(** * The NFS export-table manager of libshare (lib/libshare/nfs.c)

    A shallow embedding of the option translator, the host expander, the
    export-table store, the two lock routines and the share operations of
    [nfs.c], with the properties of its specification.

    Conventions of the model.
    - A C string is the [string] of its characters before the terminating
      NUL; a [char *] that may be [NULL] is an [option string].
    - The contents of a file is the [string] of its bytes, NUL bytes
      included.  A buffer that [getline] has filled is read by [strchr],
      [strncmp] and [fputs] as a C string, that is up to its first NUL
      ([c_str]).
    - The file system is a finite map from path names to file contents.
      Directories are not modelled: the exports directory is taken to
      exist (libshare_nfs_init creates it), so [open] with [O_CREAT]
      does not fail.
    - System calls fail only for a reason that the state shows (a file that
      is missing, every name tried being taken).  Allocation failures and
      I/O errors are outside the model, and so are other processes.
    - [verify] and [VERIFY0] abort the process, and [flock] on a lock
      that the process holds itself through another descriptor never
      returns: a computation ends with a value and a new state, or
      aborted, or blocked. *)

From Stdlib Require Import String Ascii ZArith Lia.
From stdpp Require Import base strings list gmap.

Local Open Scope string_scope.

(** Let [simpl] compute the append of a string that starts with known
    characters. *)
#[local] Arguments String.append !_ _ / : simpl nomatch.

(** ** C string primitives *)

Definition comma : ascii := ","%char.
Definition equals : ascii := "="%char.
Definition colon : ascii := ":"%char.
Definition space : ascii := " "%char.
Definition newline : ascii := "010"%char.
Definition nul : ascii := "000"%char.

(** [strchr(s, c)] followed by [*p = '\0'; p++]: the text before the
    first [c], and the text after it, [None] when [c] does not occur. *)
Fixpoint strchr_split (c : ascii) (s : string) : string * option string :=
  match s with
  | EmptyString => (EmptyString, None)
  | String a s' =>
      if Ascii.eqb a c then (EmptyString, Some s')
      else let '(k, v) := strchr_split c s' in (String a k, v)
  end.

(** [strchr(s, c) - s]: the offset of the first [c] in [s]. *)
Fixpoint strchr (c : ascii) (s : string) : option nat :=
  match s with
  | EmptyString => None
  | String a s' =>
      if Ascii.eqb a c then Some 0 else option_map S (strchr c s')
  end.

(** [strncmp(a, b, n) == 0]; the end of a string reads as its NUL. *)
Fixpoint strncmp_eq (a b : string) (n : nat) : bool :=
  match n with
  | 0 => true
  | S n' =>
      match a, b with
      | EmptyString, EmptyString => true
      | String x a', String y b' => Ascii.eqb x y && strncmp_eq a' b' n'
      | _, _ => false
      end
  end.

(** The C string that a buffer holds: its characters before the first
    NUL. *)
Fixpoint c_str (buf : string) : string :=
  match buf with
  | EmptyString => EmptyString
  | String a buf' =>
      if Ascii.eqb a nul then EmptyString else String a (c_str buf')
  end.

(** ** Result codes *)

(** Modelled from the spec: the result codes of libshare.h, a header that
    nfs.c includes and that is not at hand.  The spec names the kinds
    out-of-memory, syntax error and system error besides success; nfs.c
    uses these four names. *)
Inductive sa_rc : Set :=
  | SA_OK
  | SA_NO_MEMORY
  | SA_SYNTAX_ERR
  | SA_SYSTEM_ERR.

#[global] Instance sa_rc_eq_dec : EqDecision sa_rc.
Proof. solve_decision. Defined.

(** ** foreach_nfs_shareopt *)

Section Foreach.
Context {C : Type}.

(** [nfs_shareopt_callback_t]: the callback gets the key, the value and
    the cookie, and returns a code and the cookie as it left it. *)
Definition nfs_shareopt_callback_t : Type :=
  string → option string → C → sa_rc * C.

(** The body of the loop once [*cur] has been set to NUL: the token
    between [opt] and [cur] is handled when [cur > opt]. *)
Definition shareopt_token (callback : nfs_shareopt_callback_t)
    (opt : string) (cookie : C) : sa_rc * C :=
  match opt with
  | EmptyString => (SA_OK, cookie)
  | _ => let '(key, value) := strchr_split equals opt in
         callback key value cookie
  end.

(** [while (1)] of foreach_nfs_shareopt.  [cur] is the text from the
    pointer [cur] on, [opt] the text between the pointers [opt] and
    [cur].  At the end of the string [was_nul] is set and the loop is
    left after the token; at a comma it goes on behind the comma. *)
Fixpoint shareopt_loop (callback : nfs_shareopt_callback_t)
    (cur opt : string) (cookie : C) : sa_rc * C :=
  match cur with
  | EmptyString => shareopt_token callback opt cookie
  | String c cur' =>
      if Ascii.eqb c comma then
        match shareopt_token callback opt cookie with
        | (SA_OK, cookie') => shareopt_loop callback cur' EmptyString cookie'
        | (rc, cookie') => (rc, cookie')
        end
      else shareopt_loop callback cur' (opt +:+ String c EmptyString) cookie
  end.

Definition foreach_nfs_shareopt (shareopts : option string)
    (callback : nfs_shareopt_callback_t) (cookie : C) : sa_rc * C :=
  match shareopts with
  | None => (SA_OK, cookie)
  | Some shareopts =>
      let shareopts :=
        if String.eqb shareopts "on" then "rw,crossmnt" else shareopts in
      shareopt_loop callback shareopts EmptyString cookie
  end.
End Foreach.

(** ** Option translation *)

(** add_linux_shareopt: the option list grown by [key] or [key=value],
    behind a comma when the list is not empty. *)
Definition add_linux_shareopt (plinux_opts : option string) (key : string)
    (value : option string) : sa_rc * option string :=
  let old := default EmptyString plinux_opts in
  let len := String.length old in
  let s := if (0 <? len)%nat then old +:+ "," else old in
  let s := s +:+ key in
  let s := match value with
           | Some v => s +:+ "=" +:+ v
           | None => s
           end in
  (SA_OK, Some s).

(** The test of get_linux_shareopts_cb on the key, one [strcmp] each. *)
Definition linux_shareopt_known (key : string) : bool :=
  negb (negb (String.eqb key "insecure") && negb (String.eqb key "secure") &&
        negb (String.eqb key "async") && negb (String.eqb key "sync") &&
        negb (String.eqb key "no_wdelay") && negb (String.eqb key "wdelay") &&
        negb (String.eqb key "nohide") && negb (String.eqb key "hide") &&
        negb (String.eqb key "crossmnt") &&
        negb (String.eqb key "no_subtree_check") &&
        negb (String.eqb key "subtree_check") &&
        negb (String.eqb key "insecure_locks") &&
        negb (String.eqb key "secure_locks") &&
        negb (String.eqb key "no_auth_nlm") && negb (String.eqb key "auth_nlm") &&
        negb (String.eqb key "no_acl") && negb (String.eqb key "mountpoint") &&
        negb (String.eqb key "mp") && negb (String.eqb key "fsuid") &&
        negb (String.eqb key "refer") && negb (String.eqb key "replicas") &&
        negb (String.eqb key "root_squash") &&
        negb (String.eqb key "no_root_squash") &&
        negb (String.eqb key "all_squash") &&
        negb (String.eqb key "no_all_squash") && negb (String.eqb key "fsid") &&
        negb (String.eqb key "anonuid") && negb (String.eqb key "anongid")).

Definition get_linux_shareopts_cb (key : string) (value : option string)
    (plinux_opts : option string) : sa_rc * option string :=
  if String.eqb key "ro" || String.eqb key "rw" || String.eqb key "sec"
  then (SA_OK, plinux_opts)
  else
    let key := if String.eqb key "anon" then "anonuid" else key in
    let '(plinux_opts, key) :=
      if String.eqb key "root_mapping"
      then (snd (add_linux_shareopt plinux_opts "root_squash" None), "anonuid")
      else (plinux_opts, key) in
    let key := if String.eqb key "nosub" then "subtree_check" else key in
    if negb (linux_shareopt_known key) then (SA_SYNTAX_ERR, plinux_opts)
    else (SA_OK, snd (add_linux_shareopt plinux_opts key value)).

Definition get_linux_shareopts (shareopts : option string)
    : sa_rc * option string :=
  let plinux_opts := None in
  let plinux_opts :=
    snd (add_linux_shareopt plinux_opts "no_subtree_check" None) in
  let plinux_opts := snd (add_linux_shareopt plinux_opts "mountpoint" None) in
  match foreach_nfs_shareopt shareopts get_linux_shareopts_cb plinux_opts with
  | (SA_OK, plinux_opts) => (SA_OK, plinux_opts)
  | (error, _) => (error, None)
  end.

Definition nfs_validate_shareopts (shareopts : option string) : sa_rc :=
  fst (get_linux_shareopts shareopts).

(** ** Host expansion *)

(** Modelled from the spec: the share descriptor of libshare_impl.h, a
    header that is not at hand; it gives a mount point path and the
    option string kept for the nfs protocol, which nfs.c reads as
    [impl_share->sa_mountpoint] and
    [FSINFO(impl_share, nfs_fstype)->shareopts]. *)
Record sa_share_impl : Type := {
  sa_mountpoint : string;
  shareopts : option string
}.

Section Hosts.
Context {S : Type}.

(** [nfs_host_callback_t], with the arguments in the order in which
    foreach_nfs_host_cb passes them and nfs_add_entry takes them. *)
Definition nfs_host_callback_t : Type :=
  string → string → string → option string → string → S → sa_rc * S.

Record nfs_host_cookie_t : Type := {
  callback : nfs_host_callback_t;
  sharepath : string;
  cookie : S;
  filename : string;
  security : option string
}.

Definition set_security (value : option string) (udata : nfs_host_cookie_t)
    : nfs_host_cookie_t :=
  {| callback := callback udata; sharepath := sharepath udata;
     cookie := cookie udata; filename := filename udata;
     security := value |}.

Definition set_cookie (c : S) (udata : nfs_host_cookie_t)
    : nfs_host_cookie_t :=
  {| callback := callback udata; sharepath := sharepath udata;
     cookie := c; filename := filename udata;
     security := security udata |}.

(** One turn of the [do ... while] body: the callback on [host]. *)
Definition host_call (access host : string) (udata : nfs_host_cookie_t)
    : sa_rc * nfs_host_cookie_t :=
  let '(rc, c) :=
    callback udata (filename udata) (sharepath udata) host
      (security udata) access (cookie udata) in
  (rc, set_cookie c udata).

(** [do { next = strchr(host, ':'); ... } while (host != NULL)].
    [rest] is the text still to be searched for a colon, [host] the
    text of the current host read so far. *)
Fixpoint host_loop (access : string) (rest host : string)
    (udata : nfs_host_cookie_t) : sa_rc * nfs_host_cookie_t :=
  match rest with
  | EmptyString => host_call access host udata
  | String c rest' =>
      if Ascii.eqb c colon then
        match host_call access host udata with
        | (SA_OK, udata') => host_loop access rest' EmptyString udata'
        | (rc, udata') => (rc, udata')
        end
      else host_loop access rest' (host +:+ String c EmptyString) udata
  end.

Definition foreach_nfs_host_cb (opt : string) (value : option string)
    (udata : nfs_host_cookie_t) : sa_rc * nfs_host_cookie_t :=
  let udata :=
    if String.eqb opt "sec" then set_security value udata else udata in
  if String.eqb opt "rw" || String.eqb opt "ro" then
    let value := default "*" value in
    let access := opt in
    host_loop access value EmptyString udata
  else (SA_OK, udata).

Definition foreach_nfs_host (impl_share : sa_share_impl) (file : string)
    (cb : nfs_host_callback_t) (c : S) : sa_rc * S :=
  let udata :=
    {| callback := cb; sharepath := sa_mountpoint impl_share;
       cookie := c; filename := file; security := Some "sys" |} in
  let '(rc, udata') :=
    foreach_nfs_shareopt (shareopts impl_share) foreach_nfs_host_cb udata in
  (rc, cookie udata').
End Hosts.

Arguments nfs_host_callback_t : clear implicits.
Arguments nfs_host_cookie_t : clear implicits.

(** get_linux_hostspec: a leading [@] is dropped. *)
Definition get_linux_hostspec (solaris_hostspec : string)
    : sa_rc * option string :=
  match solaris_hostspec with
  | String "@" rest => (SA_OK, Some rest)
  | _ => (SA_OK, Some solaris_hostspec)
  end.

(** *** Observing the expansion

    The calls that foreach_nfs_host makes, recorded in order by a callback
    that stores its arguments and returns [SA_OK]. *)
Record host_entry : Type := {
  he_filename : string;
  he_path : string;
  he_host : string;
  he_security : option string;
  he_access : string
}.

Definition record_host : nfs_host_callback_t (list host_entry) :=
  λ file path host sec access acc,
    (SA_OK, (acc ++ [{| he_filename := file; he_path := path;
                        he_host := host; he_security := sec;
                        he_access := access |}])%list).

Definition expand_hosts (impl_share : sa_share_impl) (file : string)
    : sa_rc * list host_entry :=
  foreach_nfs_host impl_share file record_host [].

(** ** The process and its file system *)

Definition ZFS_EXPORTS_DIR : string := "/etc/exports.d".
Definition ZFS_EXPORTS_FILE : string := ZFS_EXPORTS_DIR +:+ "/zfs.exports".
Definition ZFS_EXPORTS_LOCK : string := ZFS_EXPORTS_FILE +:+ ".lock".

(** The files by path name, the two static descriptors of nfs.c, and the
    number of descriptors handed out so far. *)
Record world : Type := {
  files : gmap string string;
  nfs_lock_fd : Z;
  exports_lock_fd : Z;
  next_fd : nat
}.

Definition with_files (f : gmap string string → gmap string string)
    (w : world) : world :=
  {| files := f (files w); nfs_lock_fd := nfs_lock_fd w;
     exports_lock_fd := exports_lock_fd w; next_fd := next_fd w |}.

Definition with_nfs_lock_fd (fd : Z) (w : world) : world :=
  {| files := files w; nfs_lock_fd := fd;
     exports_lock_fd := exports_lock_fd w; next_fd := next_fd w |}.

Definition with_exports_lock_fd (fd : Z) (w : world) : world :=
  {| files := files w; nfs_lock_fd := nfs_lock_fd w;
     exports_lock_fd := fd; next_fd := next_fd w |}.

(** A fresh descriptor, never negative. *)
Definition new_fd (w : world) : Z * world :=
  (Z.of_nat (next_fd w),
   {| files := files w; nfs_lock_fd := nfs_lock_fd w;
      exports_lock_fd := exports_lock_fd w; next_fd := S (next_fd w) |}).

(** A computation of the process: it ends with a value and a state, or
    it is aborted by a failed [verify], or it is blocked for ever in a
    system call. *)
Inductive outcome (A : Type) : Type :=
  | Done (a : A) (w : world)
  | Aborted (w : world)
  | Blocked (w : world).
Arguments Done {A} a w.
Arguments Aborted {A} w.
Arguments Blocked {A} w.

Definition M (A : Type) : Type := world → outcome A.

Definition ret {A} (a : A) : M A := λ w, Done a w.

Definition bind {A B} (m : M A) (k : A → M B) : M B :=
  λ w, match m w with
       | Done a w' => k a w'
       | Aborted w' => Aborted w'
       | Blocked w' => Blocked w'
       end.

#[global] Instance M_ret : MRet M := @ret.
#[global] Instance M_bind : MBind M := λ A B k m, bind m k.

(** A step that cannot abort. *)
Definition lift {A} (f : world → A * world) : M A :=
  λ w, let '(a, w') := f w in Done a w'.

(** Modelled from the spec: the assertion macros [verify] and [VERIFY0]
    of a header that is not at hand; a violation is fatal, the process
    is aborted.  [verify] takes a condition that must hold. *)
Definition verify (cond : bool) : M unit :=
  λ w, if cond then Done tt w else Aborted w.

(** [VERIFY0] takes a result that must be zero. *)
Definition VERIFY0 (m : M Z) : M unit :=
  x ← m; verify (x =? 0)%Z.

(** *** System calls *)

(** [open(path, O_RDWR | O_CREAT, mode)]: the file is created empty when
    it is missing and left as it is otherwise. *)
Definition sys_open_creat (path : string) : M Z :=
  lift (λ w,
    let w := match files w !! path with
             | Some _ => w
             | None => with_files (insert path EmptyString) w
             end in
    new_fd w).

(** [creat(path, mode)], that is [open] with
    [O_CREAT | O_WRONLY | O_TRUNC]. *)
Definition sys_creat (path : string) : M Z :=
  lift (λ w, new_fd (with_files (insert path EmptyString) w)).

(** [access(path, F_OK) == 0] *)
Definition sys_access (path : string) : M bool :=
  λ w, Done (bool_decide (is_Some (files w !! path))) w.

(** [remove(path)] and [unlink(path)] of a regular file *)
Definition sys_unlink (path : string) : M Z :=
  λ w, match files w !! path with
       | Some _ => Done 0%Z (with_files (delete path) w)
       | None => Done (-1)%Z w
       end.

(** [rename(old, new)] *)
Definition sys_rename (old new : string) : M Z :=
  λ w, match files w !! old with
       | Some content =>
           if String.eqb old new then Done 0%Z w
           else Done 0%Z (with_files (λ m, <[new := content]> (delete old m)) w)
       | None => Done (-1)%Z w
       end.

(** [mkstemp(template)].  The C library puts six characters in place of
    [XXXXXX] and opens the file with [O_CREAT | O_EXCL]; when a file of
    that name exists it tries other characters, and it gives up only when
    every name that it has tried exists.  [tries] are the characters that
    the library tries, in order: the file is made, empty, under the first
    name that is free. *)
Fixpoint sys_mkstemp (template_prefix : string) (tries : list string)
    : M (Z * string) :=
  match tries with
  | [] => λ w, Done ((-1)%Z, template_prefix +:+ "XXXXXX") w
  | sfx :: tries' =>
      λ w, let name := template_prefix +:+ sfx in
           match files w !! name with
           | Some _ => sys_mkstemp template_prefix tries' w
           | None =>
               let '(fd, w') :=
                 new_fd (with_files (insert name EmptyString) w) in
               Done (fd, name) w'
           end
  end.

(** [flock(fd, LOCK_EX)] on a descriptor that the process has just
    opened.  The lock belongs to the open file description: when the
    process holds it already through an earlier descriptor ([held]), the
    call waits for a release that only the process itself could make, and
    never returns. *)
Definition sys_flock_ex (held : bool) : M Z :=
  λ w, if held then Blocked w else Done 0%Z w.

(** ** The two lock routines

    nfs.c defines nfs_exports_lock and nfs_exports_unlock twice: first
    with [flock] on [nfs_lock_fd], then with [fcntl] on
    [exports_lock_fd].  The first goes with the code that copies the
    artifact to a temporary file and renames it (nfs_init_tmpfile,
    nfs_copy_entries, nfs_add_entry, nfs_fini_tmpfile); the second with
    nfs_exports_entry, which appends to the artifact in place and asserts
    that [exports_lock_fd] is held.  Both are modelled, and the share
    operations take the routine to call as an argument. *)

(** The first definition.  [nfs_lock_fd] is not negative exactly while
    the process holds the lock: nfs_exports_unlock resets it to -1.  The
    descriptor of an earlier acquire is overwritten, not closed.  The
    branch [nfs_lock_fd == -1], which returns [errno], is not taken:
    [open] with [O_CREAT] does not fail here. *)
Definition nfs_exports_lock_flock : M Z :=
  λ w, let held := (0 <=? nfs_lock_fd w)%Z in
       (fd ← sys_open_creat ZFS_EXPORTS_LOCK;
        lift (λ w, (tt, with_nfs_lock_fd fd w));;
        (* return (flock(nfs_lock_fd, LOCK_EX)) *)
        sys_flock_ex held) w.

Definition nfs_exports_unlock_flock : M Z :=
  λ w, if (nfs_lock_fd w <? 0)%Z then Done (-1)%Z w
       else
         (* flock(nfs_lock_fd, LOCK_UN); close(nfs_lock_fd) *)
         Done 0%Z (with_nfs_lock_fd (-1) w).

(** The second definition.  [ZFS_EXPORTS] is a macro that nfs.c uses but
    does not define; it is a parameter here. *)
Definition nfs_exports_lock_fcntl (ZFS_EXPORTS : string) : M Z :=
  (λ w, verify (exports_lock_fd w =? -1)%Z w);;
  (* mkdir(dirname(name), 0755): the directory is there *)
  fd ← sys_open_creat ZFS_EXPORTS_LOCK;
  lift (λ w, (tt, with_exports_lock_fd fd w));;
  (* fcntl(exports_lock_fd, F_SETLKW, &lock): a lock of fcntl belongs to
     the process, which does not wait for itself *)
  present ← sys_access ZFS_EXPORTS;
  (if present : bool then sys_unlink ZFS_EXPORTS else ret 0%Z);;
  sys_creat ZFS_EXPORTS;;
  ret 0%Z.

Definition nfs_exports_unlock_fcntl : M Z :=
  λ w, if (exports_lock_fd w <? 0)%Z then Done (-1)%Z w
       else
         (* fcntl(exports_lock_fd, F_SETLK, &lock); close(exports_lock_fd) *)
         Done 0%Z (with_exports_lock_fd (-1) w).

(** Which of the two definitions a caller of nfs_exports_lock gets. *)
Inductive guard : Type :=
  | flock_guard
  | fcntl_guard (ZFS_EXPORTS : string).

Definition nfs_exports_lock (g : guard) : M Z :=
  match g with
  | flock_guard => nfs_exports_lock_flock
  | fcntl_guard ZFS_EXPORTS => nfs_exports_lock_fcntl ZFS_EXPORTS
  end.

Definition nfs_exports_unlock (g : guard) : M Z :=
  match g with
  | flock_guard => nfs_exports_unlock_flock
  | fcntl_guard _ => nfs_exports_unlock_fcntl
  end.

(** ** The export table store *)

(** What [getline] returns call by call on a stream with contents [s]:
    the lines with their newline, and a last line without one. *)
Fixpoint getlines (s : string) : list string :=
  match s with
  | EmptyString => []
  | String c s' =>
      if Ascii.eqb c newline then String c EmptyString :: getlines s'
      else match getlines s' with
           | [] => [String c EmptyString]
           | l :: ls => String c l :: ls
           end
  end.

(** The test of nfs_copy_entries and nfs_is_shared on the C string [s]
    of a line. *)
Definition c_line_matches (mountpoint s : string) : bool :=
  match strchr space s with
  | Some off =>
      let mountpoint_len := String.length mountpoint in
      (off =? mountpoint_len)%nat && strncmp_eq mountpoint s mountpoint_len
  | None => false
  end.

(** The test on a line: [buf] is the buffer that [getline] has filled,
    which [strchr] and [strncmp] read up to its first NUL. *)
Definition line_matches (mountpoint buf : string) : bool :=
  c_line_matches mountpoint (c_str buf).

(** The body of the [while] of nfs_copy_entries on the line [buf];
    [newfp] is what has been written so far.  [fputs] writes the buffer
    up to its first NUL. *)
Definition copy_line (mountpoint : string) (newfp buf : string) : string :=
  if line_matches mountpoint buf then newfp else newfp +:+ c_str buf.

(** [%s] of [fprintf]; the C library of Linux prints [(null)] for a
    null pointer. *)
Definition printf_s (s : option string) : string := default "(null)" s.

(** The line that nfs_add_entry prints, format
    ["%s %s(sec=%s,%s,%s)\n"]. *)
Definition export_line (sharepath linuxhost : string)
    (security : option string) (access_opts linux_opts : string) : string :=
  sharepath +:+ " " +:+ linuxhost +:+ "(sec=" +:+ printf_s security +:+ ","
    +:+ access_opts +:+ "," +:+ linux_opts +:+ ")"
    +:+ String newline EmptyString.

Definition nfs_add_entry (filename sharepath host : string)
    (security : option string) (access_opts : string)
    (pcookie : option string) (w : world) : sa_rc * world :=
  match get_linux_hostspec host with
  | (SA_OK, Some linuxhost) =>
      let linux_opts := default EmptyString pcookie in
      (* fopen(filename, "a+"); fprintf; fclose *)
      let old := default EmptyString (files w !! filename) in
      let line :=
        export_line sharepath linuxhost security access_opts linux_opts in
      (SA_OK, with_files (insert filename (old +:+ line)) w)
  | (rc, _) => (rc, w)
  end.

Definition nfs_init_tmpfile (tries : list string) : M (option string) :=
  r ← sys_mkstemp (ZFS_EXPORTS_FILE +:+ ".") tries;
  let '(fd, tmpfile) := r in
  if (fd =? -1)%Z then ret None else ret (Some tmpfile).

Definition nfs_fini_tmpfile (tmpfile : string) : M sa_rc :=
  r ← sys_rename tmpfile ZFS_EXPORTS_FILE;
  if (r =? -1)%Z then sys_unlink tmpfile;; ret SA_SYSTEM_ERR
  else ret SA_OK.

Definition nfs_copy_entries (filename mountpoint : string) : M sa_rc :=
  λ w, match files w !! ZFS_EXPORTS_FILE with
       | None => Done SA_OK w
       | Some _ =>
           (* fopen(filename, "w+") *)
           let w := with_files (insert filename EmptyString) w in
           let oldfp := default EmptyString (files w !! ZFS_EXPORTS_FILE) in
           let newfp :=
             fold_left (copy_line mountpoint) (getlines oldfp) EmptyString in
           Done SA_OK (with_files (insert filename newfp) w)
       end.

(** ** The share operations *)

Definition nfs_enable_share (g : guard) (tries : list string)
    (impl_share : sa_share_impl) : M sa_rc :=
  tmp ← nfs_init_tmpfile tries;
  match tmp with
  | None => ret SA_SYSTEM_ERR
  | Some filename =>
      VERIFY0 (nfs_exports_lock g);;
      rc ← nfs_copy_entries filename (sa_mountpoint impl_share);
      verify (bool_decide (rc = SA_OK));;
      let '(error, linux_opts) := get_linux_shareopts (shareopts impl_share) in
      if bool_decide (error ≠ SA_OK) then
        sys_unlink filename;;
        VERIFY0 (nfs_exports_unlock g);;
        ret error
      else
        error ← lift (foreach_nfs_host impl_share filename
                        (λ f p h s a, nfs_add_entry f p h s a linux_opts));
        error ← (if bool_decide (error = SA_OK)
                 then nfs_fini_tmpfile filename
                 else sys_unlink filename;; ret error);
        VERIFY0 (nfs_exports_unlock g);;
        ret error
  end.

Definition nfs_disable_share (g : guard) (tries : list string)
    (impl_share : sa_share_impl) : M sa_rc :=
  tmp ← nfs_init_tmpfile tries;
  match tmp with
  | None => ret SA_SYSTEM_ERR
  | Some filename =>
      VERIFY0 (nfs_exports_lock g);;
      rc ← nfs_copy_entries filename (sa_mountpoint impl_share);
      verify (bool_decide (rc = SA_OK));;
      error ← nfs_fini_tmpfile filename;
      VERIFY0 (nfs_exports_unlock g);;
      ret error
  end.

Definition nfs_is_shared (impl_share : sa_share_impl) (w : world) : bool :=
  match files w !! ZFS_EXPORTS_FILE with
  | None => false
  | Some content =>
      existsb (line_matches (sa_mountpoint impl_share)) (getlines content)
  end.

(** * The specification's notions *)

(** [c] occurs in [s] *)
Fixpoint has_char (c : ascii) (s : string) : bool :=
  match s with
  | EmptyString => false
  | String a s' => Ascii.eqb a c || has_char c s'
  end.

(** The pieces of [s] between the occurrences of [c]; there is always at
    least one piece. *)
Fixpoint split_on (c : ascii) (s : string) : list string :=
  match s with
  | EmptyString => [EmptyString]
  | String a s' =>
      if Ascii.eqb a c then EmptyString :: split_on c s'
      else match split_on c s' with
           | [] => [String a EmptyString]
           | t :: ts => String a t :: ts
           end
  end.

(** The pieces put together again with [c] between them. *)
Fixpoint join (c : ascii) (l : list string) : string :=
  match l with
  | [] => EmptyString
  | [t] => t
  | t :: ts => t +:+ String c (join c ts)
  end.

(** A token read as key and value: the text before its first [=], and
    the text behind it when there is one. *)
Definition key_value (tok : string) : string * option string :=
  strchr_split equals tok.

(** The tokens of a list of pieces: the pieces that are not empty, in
    order, each as key and value. *)
Definition pieces_tokens (ps : list string) : list (string * option string) :=
  key_value <$> filter (λ tok, tok ≠ EmptyString) ps.

(** The tokens of an option string are those of its comma-separated
    pieces. *)
Definition tokens (s : string) : list (string * option string) :=
  pieces_tokens (split_on comma s).

(** The shorthand [on] stands for the default option string. *)
Definition expand_shorthand (s : string) : string :=
  if String.eqb s "on" then "rw,crossmnt" else s.

(** The tokens that a scan of a share's option string visits; none when
    the option string is absent. *)
Definition shareopt_tokens (shareopts : option string)
    : list (string * option string) :=
  match shareopts with
  | None => []
  | Some s => tokens (expand_shorthand s)
  end.

(** Visiting tokens from left to right with a callback, up to the first
    token that the callback fails. *)
Fixpoint visit {C} (callback : @nfs_shareopt_callback_t C)
    (toks : list (string * option string)) (cookie : C) : sa_rc * C :=
  match toks with
  | [] => (SA_OK, cookie)
  | (key, value) :: toks' =>
      match callback key value cookie with
      | (SA_OK, cookie') => visit callback toks' cookie'
      | (rc, cookie') => (rc, cookie')
      end
  end.

(** ** Host groups *)

(** The entries of one [ro] or [rw] group: one for each host of the
    colon-separated list, all hosts ([*]) when the group has no value. *)
Definition group_entries (file path : string) (sec : option string)
    (access : string) (value : option string) : list host_entry :=
  (λ host, {| he_filename := file; he_path := path; he_host := host;
              he_security := sec; he_access := access |})
    <$> split_on colon (default "*" value).

(** The current security mode after a token: the value of a [sec] token,
    the mode as it was after any other token. *)
Definition security_after_token (sec : option string)
    (tok : string * option string) : option string :=
  if String.eqb (fst tok) "sec" then snd tok else sec.

(** The current security mode after a run of tokens. *)
Definition running_security (sec : option string)
    (toks : list (string * option string)) : option string :=
  fold_left security_after_token toks sec.

(** The entries of a run of tokens scanned from left to right with
    current security mode [sec]. *)
Fixpoint expand_groups (file path : string) (sec : option string)
    (toks : list (string * option string)) : list host_entry :=
  match toks with
  | [] => []
  | tok :: toks' =>
      let sec' := security_after_token sec tok in
      ((if String.eqb (fst tok) "rw" || String.eqb (fst tok) "ro"
        then group_entries file path sec' (fst tok) (snd tok)
        else []) ++ expand_groups file path sec' toks')%list
  end.

(** A callback applied to entries in order, up to the first failure. *)
Fixpoint call_entries {S} (cb : nfs_host_callback_t S)
    (es : list host_entry) (c : S) : sa_rc * S :=
  match es with
  | [] => (SA_OK, c)
  | e :: es' =>
      match cb (he_filename e) (he_path e) (he_host e) (he_security e)
              (he_access e) c with
      | (SA_OK, c') => call_entries cb es' c'
      | (rc, c') => (rc, c')
      end
  end.

(** The calls on [es] by the callback of [udata], from the state kept in
    [udata]. *)
Definition calls_from {S} (es : list host_entry) (udata : nfs_host_cookie_t S)
    : sa_rc * nfs_host_cookie_t S :=
  let '(rc, c) := call_entries (callback udata) es (cookie udata) in
  (rc, set_cookie c udata).

(** The default security mode of foreach_nfs_host. *)
Definition default_security : option string := Some "sys".

(** ** Lines of the artifact *)

(** The path field of a line: its text up to the first space.  A line
    without a space has no path field. *)
Fixpoint path_field (line : string) : option string :=
  match line with
  | EmptyString => None
  | String c line' =>
      if Ascii.eqb c space then Some EmptyString
      else String c <$> path_field line'
  end.

(** The contents of a file made of the given lines. *)
Definition cat (ls : list string) : string :=
  foldr String.append EmptyString ls.

(** A line that ends with its newline, and a last line without one. *)
Definition complete_line (l : string) : Prop :=
  ∃ body, l = body +:+ String newline EmptyString
          ∧ has_char newline body = false.

Definition partial_line (l : string) : Prop :=
  l ≠ EmptyString ∧ has_char newline l = false.

(** The lines of a file: all complete, but for the last, which may be
    partial. *)
Fixpoint lines_wf (ls : list string) : Prop :=
  match ls with
  | [] => True
  | l :: ls' =>
      match ls' with
      | [] => complete_line l ∨ partial_line l
      | _ :: _ => complete_line l ∧ lines_wf ls'
      end
  end.

(** The contents is empty or ends with a newline. *)
Fixpoint newline_terminated (s : string) : bool :=
  match s with
  | EmptyString => true
  | String c s' =>
      match s' with
      | EmptyString => Ascii.eqb c newline
      | String _ _ => newline_terminated s'
      end
  end.

(** The line that nfs_add_entry prints for an entry. *)
Definition entry_line (linux_opts : option string) (e : host_entry) : string :=
  export_line (he_path e)
    (default EmptyString (snd (get_linux_hostspec (he_host e))))
    (he_security e) (he_access e) (default EmptyString linux_opts).

(** ** Notions of the share operations *)

(** The name of the temporary file that nfs_init_tmpfile makes when the C
    library chooses the characters [sfx]. *)
Definition tmpfile_name (sfx : string) : string :=
  ZFS_EXPORTS_FILE +:+ "." +:+ sfx.

(** [mkstemp], trying the characters [tries] in order, makes the
    temporary file with the characters [sfx]: the names that it tries
    before are taken, and this one is free.  Each try has six
    characters. *)
Definition mkstemp_makes (tries : list string) (sfx : string) (w : world)
    : Prop :=
  ∃ taken more,
    tries = (taken ++ sfx :: more)%list
    ∧ Forall (λ s, String.length s = 6
                   ∧ is_Some (files w !! tmpfile_name s)) taken
    ∧ String.length sfx = 6
    ∧ files w !! tmpfile_name sfx = None.

(** The export options that the translation accepts. *)
Definition allow_list : list string :=
  [ "insecure"; "secure"; "async"; "sync"; "no_wdelay"; "wdelay"; "nohide";
    "hide"; "crossmnt"; "no_subtree_check"; "subtree_check";
    "insecure_locks"; "secure_locks"; "no_auth_nlm"; "auth_nlm"; "no_acl";
    "mountpoint"; "mp"; "fsuid"; "refer"; "replicas"; "root_squash";
    "no_root_squash"; "all_squash"; "no_all_squash"; "fsid"; "anonuid";
    "anongid" ].

(** The keys that belong to host expansion. *)
Definition host_keys : list string := [ "ro"; "rw"; "sec" ].

(** A key after the rewrites of [anon], [root_mapping] and [nosub]. *)
Definition rewritten_key (key : string) : string :=
  if String.eqb key "anon" then "anonuid"
  else if String.eqb key "root_mapping" then "anonuid"
  else if String.eqb key "nosub" then "subtree_check"
  else key.

(** A key that the translation does not know. *)
Definition unrecognized (key : string) : Prop :=
  (key ∉ host_keys) ∧ (rewritten_key key ∉ allow_list).

(** The option string has a token with a key that is not known. *)
Definition has_unrecognized_key (shareopts : option string) : Prop :=
  Exists (λ tok, unrecognized (fst tok)) (shareopt_tokens shareopts).

(** The statement of the specification about the lock: after a
    successful acquire the artifact is there; it is made empty when it
    was missing and keeps its contents when it was there. *)
Definition acquire_keeps_artifact (acquire : M Z) (artifact : string)
    (w : world) : Prop :=
  ∀ w', acquire w = Done 0%Z w' →
    is_Some (files w' !! artifact)
    ∧ (files w !! artifact = None →
       files w' !! artifact = Some EmptyString)
    ∧ (∀ content, files w !! artifact = Some content →
                  files w' !! artifact = Some content).

(** The lines of a file as nfs_copy_entries and nfs_is_shared read
    them: what [getline] returns call by call, each buffer up to its
    first NUL.  For contents without NUL these are the lines
    themselves. *)
Definition c_lines (content : string) : list string :=
  c_str <$> getlines content.

(** The lines of the artifact in a state, read in that way; none when it
    is missing. *)
Definition artifact_lines (w : world) : list string :=
  c_lines (default EmptyString (files w !! ZFS_EXPORTS_FILE)).

(** The file that a lock routine makes anew: none for the [flock]
    version, [ZFS_EXPORTS] for the [fcntl] version. *)
Definition guard_file (g : guard) : option string :=
  match g with
  | flock_guard => None
  | fcntl_guard ZFS_EXPORTS => Some ZFS_EXPORTS
  end.

(** The artifact as a successful acquire leaves it: empty when the lock
    routine makes the artifact anew, as before otherwise. *)
Definition acquired_artifact (g : guard) (w : world) : option string :=
  if bool_decide (guard_file g = Some ZFS_EXPORTS_FILE) then Some EmptyString
  else files w !! ZFS_EXPORTS_FILE.

Definition acquired_lines (g : guard) (w : world) : list string :=
  c_lines (default EmptyString (acquired_artifact g w)).

(** The lines that an enable of the share prints: one for each entry of
    the expansion, with the translated options. *)
Definition rendered_lines (sfx : string) (impl_share : sa_share_impl)
    : list string :=
  entry_line (snd (get_linux_shareopts (shareopts impl_share)))
    <$> snd (expand_hosts impl_share (tmpfile_name sfx)).



(** The statement of the specification about a missing artifact:
    nfs_copy_entries succeeds and the destination is there, empty. *)
Definition copy_makes_empty_destination (filename mountpoint : string)
    (w : world) : Prop :=
  files w !! ZFS_EXPORTS_FILE = None →
  ∃ w', nfs_copy_entries filename mountpoint w = Done SA_OK w'
        ∧ files w' !! filename = Some EmptyString.

(** The statement of the specification about lines without a space:
    nfs_copy_entries writes each of them to the destination as it is. *)
Definition copy_keeps_spaceless_lines (filename mountpoint : string)
    (w : world) : Prop :=
  ∀ old, files w !! ZFS_EXPORTS_FILE = Some old →
    ∃ w' new, nfs_copy_entries filename mountpoint w = Done SA_OK w'
              ∧ files w' !! filename = Some new
              ∧ filter (λ l, has_char space l = false) (getlines new) =
                  filter (λ l, has_char space l = false) (getlines old).

(** ** Text without a given character *)

(** A string, or a string that may be absent, in which [c] does not
    occur. *)
Definition lacks (c : ascii) (s : string) : Prop := has_char c s = false.

Definition lacks_opt (c : ascii) (o : option string) : Prop :=
  match o with
  | Some s => lacks c s
  | None => True
  end.

(** Without a newline. *)
Definition one_line (s : string) : Prop := lacks newline s.
Definition one_line_opt (o : option string) : Prop := lacks_opt newline o.

(** Without a NUL, as every C string is. *)
Definition nul_free (s : string) : Prop := lacks nul s.
Definition nul_free_opt (o : option string) : Prop := lacks_opt nul o.

(** ** Sample states *)

(** A process that holds no lock, with the given files. *)
Definition world_of (fs : list (string * string)) : world :=
  {| files := list_to_map fs; nfs_lock_fd := -1; exports_lock_fd := -1;
     next_fd := 3 |}.

(** ** The other operations of nfs.c *)

(** nfs_update_shareopts: the option string of the share is replaced. *)
Definition nfs_update_shareopts (impl_share : sa_share_impl)
    (new_shareopts : option string) : sa_rc * sa_share_impl :=
  (SA_OK,
   {| sa_mountpoint := sa_mountpoint impl_share;
      shareopts := new_shareopts |}).

(** nfs_clear_shareopts: the option string of the share is set to
    [NULL]. *)
Definition nfs_clear_shareopts (impl_share : sa_share_impl)
    : sa_share_impl :=
  {| sa_mountpoint := sa_mountpoint impl_share; shareopts := None |}.

(** [open(path, O_RDWR | O_APPEND, mode)], without [O_CREAT]: it fails
    when the file is missing. *)
Definition sys_open (path : string) : M Z :=
  λ w, match files w !! path with
       | Some _ => lift new_fd w
       | None => Done (-1)%Z w
       end.

(** How a call ends that may end the process with [exit]. *)
Inductive exit_or (A : Type) : Type :=
  | Returned (a : A)
  | Exited (status : Z).
Arguments Returned {A} a.
Arguments Exited {A} status.

(** nfs_exports_entry, the writer that goes with the [fcntl] lock: it
    asserts that the lock is held, opens the file [ZFS_EXPORTS], which
    must be there ([exit(1)] otherwise), and appends the line.  The test
    [rc < 0] on the result of get_linux_hostspec is for a negative code;
    the codes of libshare are not negative, so that branch is not
    taken. *)
Definition nfs_exports_entry (ZFS_EXPORTS : string) (sharepath host : string)
    (security : option string) (access_opts : string)
    (pcookie : option string) : M (exit_or sa_rc) :=
  (λ w, verify (negb (exports_lock_fd w =? -1)%Z) w);;
  fd ← sys_open ZFS_EXPORTS;
  if (fd =? -1)%Z then ret (Exited 1)
  else
    let '(rc, linuxhost) := get_linux_hostspec host in
    let linux_opts := default EmptyString pcookie in
    let buffer :=
      export_line sharepath (printf_s linuxhost) security access_opts
        linux_opts in
    (* write(fd, buffer, strlen(buffer)); fsync(fd); close(fd) *)
    lift (λ w, (tt, with_files
                      (λ m, <[ZFS_EXPORTS :=
                                default EmptyString (m !! ZFS_EXPORTS)
                                +:+ buffer]> m) w));;
    ret (Returned SA_OK).

(** nfs_exports_entry called for entries in order, as a callback of the
    host expansion is, up to the first call that does not return
    success. *)
Fixpoint exports_entries (ZFS_EXPORTS : string) (linux_opts : option string)
    (es : list host_entry) : M (exit_or sa_rc) :=
  match es with
  | [] => ret (Returned SA_OK)
  | e :: es' =>
      r ← nfs_exports_entry ZFS_EXPORTS (he_path e) (he_host e)
            (he_security e) (he_access e) linux_opts;
      match r with
      | Returned SA_OK => exports_entries ZFS_EXPORTS linux_opts es'
      | _ => ret r
      end
  end.

(** The static descriptor that a lock routine uses. *)
Definition lock_fd (g : guard) (w : world) : Z :=
  match g with
  | flock_guard => nfs_lock_fd w
  | fcntl_guard _ => exports_lock_fd w
  end.

(** ** Notions for the other properties *)

(** An option as the translation prints it: the key, or key, [=] and
    value. *)
Definition render_option (key : string) (value : option string) : string :=
  match value with
  | Some v => key +:+ String equals v
  | None => key
  end.

(** The options that the translation prints for a token: none for the
    keys of host expansion, [root_squash] and [anonuid] for
    [root_mapping], the rewritten key with the value otherwise. *)
Definition translate_token (tok : string * option string) : list string :=
  if bool_decide (fst tok ∈ host_keys) then []
  else if String.eqb (fst tok) "root_mapping"
       then ["root_squash"; render_option "anonuid" (snd tok)]
       else [render_option (rewritten_key (fst tok)) (snd tok)].

(** The options that the translation prints for an option string, behind
    the two that it always prints. *)
Definition translated_options (opts : option string) : list string :=
  "no_subtree_check" :: "mountpoint"
    :: concat (translate_token <$> shareopt_tokens opts).

(** A token that opens a host group. *)
Definition access_token (tok : string * option string) : Prop :=
  fst tok = "rw" ∨ fst tok = "ro".

(** The artifact of a state has no NUL byte (or is missing). *)
Definition text_artifact (w : world) : Prop :=
  nul_free (default EmptyString (files w !! ZFS_EXPORTS_FILE)).

(** The artifact of a state is missing, or it has no NUL byte and is
    empty or ends with a newline. *)
Definition tidy_artifact (w : world) : Prop :=
  newline_terminated (default EmptyString (files w !! ZFS_EXPORTS_FILE)) = true
  ∧ text_artifact w.

(** A share whose mount point has neither a space nor a newline nor a
    NUL and whose option string has neither a newline nor a NUL. *)
Definition plain_share (impl_share : sa_share_impl) : Prop :=
  has_char space (sa_mountpoint impl_share) = false
  ∧ one_line (sa_mountpoint impl_share)
  ∧ one_line_opt (shareopts impl_share)
  ∧ nul_free (sa_mountpoint impl_share)
  ∧ nul_free_opt (shareopts impl_share).

(** The number of occurrences of [c] in [s]. *)
Fixpoint count_char (c : ascii) (s : string) : nat :=
  match s with
  | EmptyString => 0
  | String a s' => (if Ascii.eqb a c then 1 else 0) + count_char c s'
  end.

(** * Strings *)

Lemma append_nil_r (s : string) : s +:+ EmptyString = s.
Proof. induction s as [|a s IH]; simpl; [done | by rewrite IH]. Qed.

Lemma append_assoc (a b c : string) : (a +:+ b) +:+ c = a +:+ (b +:+ c).
Proof. induction a as [|x a IH]; simpl; [done | by rewrite IH]. Qed.

Lemma append_snoc_cons (a : string) (c : ascii) (b : string) :
  (a +:+ String c EmptyString) +:+ b = a +:+ String c b.
Proof. by rewrite append_assoc. Qed.

Lemma append_length (a b : string) :
  String.length (a +:+ b) = String.length a + String.length b.
Proof. induction a as [|x a IH]; simpl; [done | by rewrite IH]. Qed.

Lemma has_char_append (c : ascii) (a b : string) :
  has_char c (a +:+ b) = has_char c a || has_char c b.
Proof.
  induction a as [|x a IH]; simpl; [done |].
  by rewrite IH, orb_assoc.
Qed.

Lemma strchr_split_some (c : ascii) (s k v : string) :
  strchr_split c s = (k, Some v) →
  s = k +:+ String c v ∧ has_char c k = false.
Proof.
  revert k. induction s as [|a s IH]; intros k; simpl; [done |].
  destruct (Ascii.eqb_spec a c) as [->|Hne].
  - intros [= <- <-]. done.
  - destruct (strchr_split c s) as [k' v'] eqn:E. intros [= <- ->].
    destruct (IH k' eq_refl) as [-> Hk]. simpl.
    split; [done |]. rewrite Hk. by apply Ascii.eqb_neq in Hne as ->.
Qed.

Lemma strchr_split_none (c : ascii) (s k : string) :
  strchr_split c s = (k, None) → s = k ∧ has_char c s = false.
Proof.
  revert k. induction s as [|a s IH]; intros k; simpl.
  - by intros [= <-].
  - destruct (Ascii.eqb_spec a c) as [->|Hne]; [done |].
    destruct (strchr_split c s) as [k' v'] eqn:E. intros [= <- ->].
    by destruct (IH k' eq_refl) as [-> Hk].
Qed.

Lemma split_on_cons (c : ascii) (s : string) :
  ∃ t ts, split_on c s = t :: ts.
Proof.
  destruct s as [|a s]; simpl; [by eexists _, _ |].
  destruct (Ascii.eqb a c); [by eexists _, _ |].
  destruct (split_on c s); by eexists _, _.
Qed.

Lemma join_split_on (c : ascii) (s : string) : join c (split_on c s) = s.
Proof.
  induction s as [|a s IH]; simpl; [done |].
  destruct (Ascii.eqb_spec a c) as [->|Hne].
  - destruct (split_on_cons c s) as (t & ts & E). rewrite E in IH |- *.
    simpl. simpl in IH. by rewrite IH.
  - destruct (split_on_cons c s) as (t & ts & E). rewrite E in IH |- *.
    destruct ts; simpl in *; by rewrite IH.
Qed.

Lemma split_on_pieces (c : ascii) (s : string) :
  Forall (λ t, has_char c t = false) (split_on c s).
Proof.
  induction s as [|a s IH]; simpl; [by constructor |].
  destruct (Ascii.eqb_spec a c) as [->|Hne]; [by constructor |].
  destruct (split_on_cons c s) as (t & ts & E). rewrite E in IH |- *.
  inversion IH; subst. constructor; [|done]. simpl.
  by apply Ascii.eqb_neq in Hne as ->.
Qed.

(** Splitting the text of two strings with [c] between them. *)
Lemma split_on_append (c : ascii) (a b : string) :
  split_on c (a +:+ String c b) = (split_on c a ++ split_on c b)%list.
Proof.
  induction a as [|x a IH]; simpl.
  - by rewrite Ascii.eqb_refl.
  - destruct (Ascii.eqb x c); [by rewrite IH |].
    rewrite IH. destruct (split_on_cons c a) as (t & ts & ->). done.
Qed.

(** * The tokenizer *)

Section Tokenizer.
Context {C : Type}.
Implicit Types (callback : @nfs_shareopt_callback_t C) (cookie : C).

Lemma visit_piece callback p ps cookie :
  visit callback (pieces_tokens (p :: ps)) cookie =
    match shareopt_token callback p cookie with
    | (SA_OK, cookie') => visit callback (pieces_tokens ps) cookie'
    | (rc, cookie') => (rc, cookie')
    end.
Proof.
  unfold pieces_tokens. rewrite filter_cons.
  destruct p as [|a p]; simpl.
  - done.
  - unfold key_value. simpl.
    destruct (Ascii.eqb a equals); [done |].
    by destruct (strchr_split equals p).
Qed.

Lemma shareopt_token_last callback p cookie :
  visit callback (pieces_tokens [p]) cookie = shareopt_token callback p cookie.
Proof.
  rewrite visit_piece. simpl.
  by destruct (shareopt_token callback p cookie) as [[] ?].
Qed.

Lemma shareopt_loop_visit callback cur opt cookie :
  shareopt_loop callback cur opt cookie =
    match split_on comma cur with
    | t :: ts => visit callback (pieces_tokens ((opt +:+ t) :: ts)) cookie
    | [] => (SA_OK, cookie)
    end.
Proof.
  revert opt cookie. induction cur as [|c cur IH]; intros opt cookie; simpl.
  - by rewrite append_nil_r, shareopt_token_last.
  - destruct (Ascii.eqb c comma).
    + rewrite append_nil_r, visit_piece.
      destruct (shareopt_token callback opt cookie) as [[] cookie']; try done.
      rewrite IH. by destruct (split_on comma cur).
    + rewrite IH. destruct (split_on_cons comma cur) as (t & ts & ->).
      by rewrite append_snoc_cons.
Qed.

Lemma foreach_nfs_shareopt_visit shareopts callback cookie :
  foreach_nfs_shareopt shareopts callback cookie =
    visit callback (shareopt_tokens shareopts) cookie.
Proof.
  destruct shareopts as [s|]; [|done]. simpl.
  rewrite shareopt_loop_visit. unfold tokens, expand_shorthand.
  by destruct (split_on_cons comma (if String.eqb s "on" then "rw,crossmnt" else s))
    as (t & ts & ->).
Qed.
End Tokenizer.

Lemma tokens_append (a b : string) :
  tokens (a +:+ String comma b) = (tokens a ++ tokens b)%list.
Proof.
  unfold tokens, pieces_tokens.
  by rewrite split_on_append, filter_app, fmap_app.
Qed.

Lemma tokens_trailing_comma (s : string) :
  tokens (s +:+ ",") = tokens s.
Proof.
  change "," with (String comma EmptyString). rewrite tokens_append.
  unfold tokens at 2. simpl. by rewrite app_nil_r.
Qed.

(** C8. foreach_nfs_shareopt returns success without a call when the
    option string is absent; otherwise it rewrites the shorthand [on] to
    the default option string and calls the callback on the tokens of the
    string from left to right, stopping at the first failure.  The tokens
    are the comma-separated pieces that are not empty, each split at its
    first [=] (no value when there is none); the last piece is a token
    with or without a comma behind it. *)
Theorem C8_tokenizer_visits_tokens :
  ∀ (C : Type) (callback : @nfs_shareopt_callback_t C) (cookie : C),
    foreach_nfs_shareopt None callback cookie = (SA_OK, cookie)
    ∧ (∀ s, foreach_nfs_shareopt (Some s) callback cookie =
              visit callback (tokens (expand_shorthand s)) cookie)
    ∧ expand_shorthand "on" = "rw,crossmnt"
    ∧ (∀ s, s ≠ "on" → expand_shorthand s = s)
    ∧ (∀ s, tokens s =
              key_value <$> filter (λ tok, tok ≠ EmptyString) (split_on comma s))
    ∧ (∀ s, join comma (split_on comma s) = s
            ∧ Forall (λ t, has_char comma t = false) (split_on comma s))
    ∧ (∀ tok, match key_value tok with
              | (k, Some v) =>
                  tok = k +:+ String equals v ∧ has_char equals k = false
              | (k, None) => tok = k ∧ has_char equals tok = false
              end)
    ∧ (∀ s, tokens (s +:+ ",") = tokens s)
    ∧ (∀ a b, tokens (a +:+ String comma b) = (tokens a ++ tokens b)%list).
Proof.
  intros C callback cookie. split; [done |].
  split; [intros s; apply (foreach_nfs_shareopt_visit (Some s)) |].
  split; [done |].
  split.
  { intros s Hs. unfold expand_shorthand.
    by apply String.eqb_neq in Hs as ->. }
  split; [done |].
  split; [intros s; split; [apply join_split_on | apply split_on_pieces] |].
  split.
  { intros tok. unfold key_value.
    destruct (strchr_split equals tok) as [k [v|]] eqn:E.
    - by apply strchr_split_some.
    - by apply strchr_split_none. }
  split; [apply tokens_trailing_comma | apply tokens_append].
Qed.

(** * Option translation *)

(** What add_linux_shareopt appends: the plain key or [key=value],
    behind a comma unless the list is still empty. *)
Lemma add_linux_shareopt_spec (plinux_opts : option string) (key : string)
    (value : option string) :
  add_linux_shareopt plinux_opts key value =
    (SA_OK,
     Some ((match plinux_opts with
            | None | Some EmptyString => EmptyString
            | Some old => old +:+ ","
            end) +:+ key +:+
           (match value with
            | Some v => "=" +:+ v
            | None => EmptyString
            end))).
Proof.
  unfold add_linux_shareopt.
  destruct plinux_opts as [[|a old]|], value as [v|]; simpl;
    by rewrite ?append_assoc, ?append_nil_r.
Qed.

(** C9. get_linux_shareopts_cb leaves the translated options as they are
    for the keys [ro], [rw] and [sec]; it adds [anon] under the name
    [anonuid]; for [root_mapping] it adds [root_squash] without a value
    and then [anonuid] with the value given; it adds [nosub] under the
    name [subtree_check]. *)
Theorem C9_translation_of_special_keys :
  ∀ (value : option string) (plinux_opts : option string),
    get_linux_shareopts_cb "ro" value plinux_opts = (SA_OK, plinux_opts)
    ∧ get_linux_shareopts_cb "rw" value plinux_opts = (SA_OK, plinux_opts)
    ∧ get_linux_shareopts_cb "sec" value plinux_opts = (SA_OK, plinux_opts)
    ∧ get_linux_shareopts_cb "anon" value plinux_opts =
        add_linux_shareopt plinux_opts "anonuid" value
    ∧ get_linux_shareopts_cb "root_mapping" value plinux_opts =
        add_linux_shareopt
          (snd (add_linux_shareopt plinux_opts "root_squash" None))
          "anonuid" value
    ∧ get_linux_shareopts_cb "nosub" value plinux_opts =
        add_linux_shareopt plinux_opts "subtree_check" value
    ∧ get_linux_shareopts (Some "ro=a:b,sec=krb5,rw") =
        (SA_OK, Some "no_subtree_check,mountpoint")
    ∧ get_linux_shareopts (Some "anon=65534") =
        (SA_OK, Some "no_subtree_check,mountpoint,anonuid=65534")
    ∧ get_linux_shareopts (Some "root_mapping=0") =
        (SA_OK, Some "no_subtree_check,mountpoint,root_squash,anonuid=0")
    ∧ get_linux_shareopts (Some "nosub") =
        (SA_OK, Some "no_subtree_check,mountpoint,subtree_check").
Proof.
  intros value plinux_opts. repeat split; reflexivity.
Qed.

(** * Host expansion *)

Section HostExpansion.
Context {S : Type}.
Implicit Types (udata : nfs_host_cookie_t S) (cb : nfs_host_callback_t S).

Lemma set_cookie_id udata : set_cookie (cookie udata) udata = udata.
Proof. by destruct udata. Qed.

Lemma calls_from_nil udata : calls_from [] udata = (SA_OK, udata).
Proof. unfold calls_from. simpl. by rewrite set_cookie_id. Qed.

Lemma calls_from_cons e es udata :
  he_filename e = filename udata →
  he_path e = sharepath udata →
  he_security e = security udata →
  calls_from (e :: es) udata =
    match host_call (he_access e) (he_host e) udata with
    | (SA_OK, udata') => calls_from es udata'
    | (rc, udata') => (rc, udata')
    end.
Proof.
  intros Hf Hp Hs. unfold calls_from, host_call. simpl.
  rewrite Hf, Hp, Hs.
  by destruct (callback udata _ _ _ _ _ _) as [[] c].
Qed.

Lemma host_loop_calls access rest host udata :
  host_loop access rest host udata =
    match split_on colon rest with
    | t :: ts =>
        calls_from
          ((λ h, {| he_filename := filename udata; he_path := sharepath udata;
                    he_host := h; he_security := security udata;
                    he_access := access |}) <$> ((host +:+ t) :: ts)) udata
    | [] => (SA_OK, udata)
    end.
Proof.
  revert host udata. induction rest as [|c rest IH]; intros host udata; simpl.
  - rewrite append_nil_r, calls_from_cons by done. simpl.
    destruct (host_call access host udata) as [[] udata']; try done.
    by rewrite calls_from_nil.
  - destruct (Ascii.eqb c colon).
    + rewrite append_nil_r, calls_from_cons by done. simpl.
      destruct (host_call access host udata) as [[] udata'] eqn:E; try done.
      rewrite IH. destruct (split_on_cons colon rest) as (t & ts & ->).
      unfold host_call in E.
      destruct (callback udata _ _ _ _ _ _) as [rc c']. by injection E as _ <-.
    + rewrite IH. destruct (split_on_cons colon rest) as (t & ts & ->).
      by rewrite append_snoc_cons.
Qed.

Lemma call_entries_app cb es1 es2 (c : S) :
  call_entries cb (es1 ++ es2) c =
    match call_entries cb es1 c with
    | (SA_OK, c') => call_entries cb es2 c'
    | (rc, c') => (rc, c')
    end.
Proof.
  revert c. induction es1 as [|e es1 IH]; intros c; simpl; [done |].
  by destruct (cb _ _ _ _ _ _) as [[] c'].
Qed.

Lemma foreach_nfs_host_cb_calls key value udata :
  foreach_nfs_host_cb key value udata =
    let sec := security_after_token (security udata) (key, value) in
    calls_from
      (if String.eqb key "rw" || String.eqb key "ro"
       then group_entries (filename udata) (sharepath udata) sec key value
       else [])
      (set_security sec udata).
Proof.
  unfold foreach_nfs_host_cb, security_after_token. simpl.
  assert (set_security (security udata) udata = udata) as Hid
    by by destruct udata.
  destruct (String.eqb key "sec") eqn:Hsec;
    destruct (String.eqb key "rw" || String.eqb key "ro") eqn:Hacc;
    rewrite ?Hid, ?calls_from_nil; try done.
  - rewrite host_loop_calls. unfold group_entries.
    by destruct (split_on_cons colon (default "*" value)) as (t & ts & ->).
  - rewrite host_loop_calls. unfold group_entries.
    by destruct (split_on_cons colon (default "*" value)) as (t & ts & ->).
Qed.

Lemma calls_from_frame es udata :
  let udata' := snd (calls_from es udata) in
  callback udata' = callback udata ∧ filename udata' = filename udata
  ∧ sharepath udata' = sharepath udata ∧ security udata' = security udata.
Proof.
  unfold calls_from. by destruct (call_entries _ _ _).
Qed.

Lemma visit_host_cb_calls toks udata :
  let r := visit foreach_nfs_host_cb toks udata in
  (fst r, cookie (snd r)) =
    call_entries (callback udata)
      (expand_groups (filename udata) (sharepath udata) (security udata) toks)
      (cookie udata).
Proof.
  revert udata. induction toks as [|[key value] toks IH]; intros udata;
    simpl; [done |].
  rewrite foreach_nfs_host_cb_calls, call_entries_app. simpl.
  set (sec := security_after_token (security udata) (key, value)).
  set (es := if String.eqb key "rw" || String.eqb key "ro" then _ else _).
  pose proof (calls_from_frame es (set_security sec udata)) as Hfr.
  unfold calls_from in *. simpl in *.
  destruct (call_entries (callback udata) es (cookie udata)) as [rc c'].
  simpl in Hfr. destruct Hfr as (Hcb & Hf & Hp & Hs).
  destruct rc; try done.
Qed.

(** foreach_nfs_host makes the calls for the entries of the share's
    tokens, scanned from the default security mode. *)
Lemma foreach_nfs_host_calls impl_share file cb (c : S) :
  foreach_nfs_host impl_share file cb c =
    call_entries cb
      (expand_groups file (sa_mountpoint impl_share) default_security
         (shareopt_tokens (shareopts impl_share)))
      c.
Proof.
  unfold foreach_nfs_host, default_security.
  rewrite foreach_nfs_shareopt_visit.
  set (udata := {| callback := cb |}).
  pose proof (visit_host_cb_calls (shareopt_tokens (shareopts impl_share))
                udata) as H.
  simpl in H. rewrite <- H.
  by destruct (visit _ _ _).
Qed.
End HostExpansion.

Lemma call_entries_record_host (es acc : list host_entry) :
  call_entries record_host es acc = (SA_OK, (acc ++ es)%list).
Proof.
  revert acc. induction es as [|[] es IH]; intros acc; simpl.
  - by rewrite app_nil_r.
  - by rewrite IH, <- app_assoc.
Qed.

(** The expansion observed is the list of entries of the tokens. *)
Lemma expand_hosts_groups (impl_share : sa_share_impl) (file : string) :
  expand_hosts impl_share file =
    (SA_OK,
     expand_groups file (sa_mountpoint impl_share) default_security
       (shareopt_tokens (shareopts impl_share))).
Proof.
  unfold expand_hosts.
  by rewrite foreach_nfs_host_calls, call_entries_record_host.
Qed.

Lemma expand_groups_app (file path : string) (sec : option string)
    (t1 t2 : list (string * option string)) :
  expand_groups file path sec (t1 ++ t2) =
    (expand_groups file path sec t1 ++
     expand_groups file path (running_security sec t1) t2)%list.
Proof.
  revert sec. induction t1 as [|tok t1 IH]; intros sec; simpl; [done |].
  by rewrite IH, app_assoc.
Qed.

Lemma running_security_no_sec (sec : option string)
    (toks : list (string * option string)) :
  Forall (λ tok, fst tok ≠ "sec") toks → running_security sec toks = sec.
Proof.
  unfold running_security. induction 1 as [|tok toks Hk _ IH]; simpl; [done |].
  unfold security_after_token at 2.
  by apply String.eqb_neq in Hk as ->.
Qed.

Lemma expand_groups_no_sec (file path : string) (sec : option string)
    (toks : list (string * option string)) :
  Forall (λ tok, fst tok ≠ "sec") toks →
  Forall (λ e, he_security e = sec) (expand_groups file path sec toks).
Proof.
  induction 1 as [|tok toks Hk _ IH]; simpl; [done |].
  unfold security_after_token. apply String.eqb_neq in Hk as ->.
  apply Forall_app. split; [|done].
  destruct (_ || _); [|done].
  unfold group_entries. by apply Forall_fmap, Forall_true.
Qed.

Lemma expand_shorthand_comma (a b : string) :
  expand_shorthand (a +:+ String comma b) = a +:+ String comma b.
Proof.
  unfold expand_shorthand.
  destruct (String.eqb_spec (a +:+ String comma b) "on") as [H|]; [|done].
  by destruct a as [|x [|y [|z a]]].
Qed.

(** C4. The expansion is a scan of the tokens from left to right with a
    current security mode that starts as [sys]: the groups scanned before
    any [sec] token get [sys]; a [sec] token sets the mode for the groups
    behind it; the entries of the tokens before it are the same whatever
    follows them. *)
Theorem C4_sec_applies_to_later_groups :
  ∀ (path file : string),
    (∀ opts,
       expand_hosts {| sa_mountpoint := path; shareopts := opts |} file =
         (SA_OK,
          expand_groups file path (Some "sys") (shareopt_tokens opts)))
    ∧ (∀ a b,
         snd (expand_hosts {| sa_mountpoint := path;
                              shareopts := Some (a +:+ String comma b) |} file) =
           (expand_groups file path (Some "sys") (tokens a) ++
            expand_groups file path
              (running_security (Some "sys") (tokens a)) (tokens b))%list)
    ∧ (∀ sec toks,
         Forall (λ tok, fst tok ≠ "sec") toks →
         running_security sec toks = sec
         ∧ Forall (λ e, he_security e = sec)
             (expand_groups file path sec toks))
    ∧ (∀ sec toks mode rest,
         expand_groups file path sec (toks ++ ("sec", mode) :: rest) =
           (expand_groups file path sec toks ++
            expand_groups file path mode rest)%list)
    ∧ snd (expand_hosts {| sa_mountpoint := path;
                           shareopts := Some "rw=a,sec=krb5,ro=b:c,sec=none,rw" |}
             file) =
        [ {| he_filename := file; he_path := path; he_host := "a";
             he_security := Some "sys"; he_access := "rw" |};
          {| he_filename := file; he_path := path; he_host := "b";
             he_security := Some "krb5"; he_access := "ro" |};
          {| he_filename := file; he_path := path; he_host := "c";
             he_security := Some "krb5"; he_access := "ro" |};
          {| he_filename := file; he_path := path; he_host := "*";
             he_security := Some "none"; he_access := "rw" |} ].
Proof.
  intros path file. split; [intros opts; apply expand_hosts_groups |].
  split.
  { intros a b. rewrite expand_hosts_groups. simpl.
    by rewrite expand_shorthand_comma, tokens_append, expand_groups_app. }
  split.
  { intros sec toks Hno. split.
    - by apply running_security_no_sec.
    - by apply expand_groups_no_sec. }
  split; [|reflexivity].
  intros sec toks mode rest. by rewrite expand_groups_app.
Qed.

(** The claim C3 as stated fails: scanning [rw=host1:host2,sec=krb5], the
    two entries of the [rw] group are made before the [sec] token is
    seen, so they do not carry [krb5]. *)
Lemma C3_sec_after_group_counterexample :
  ¬ (∃ e1 e2,
       snd (expand_hosts {| sa_mountpoint := "/data";
                            shareopts := Some "rw=host1:host2,sec=krb5" |}
              "/etc/exports.d/zfs.exports.a1B2c3") = [e1; e2]
       ∧ he_host e1 = "host1" ∧ he_host e2 = "host2"
       ∧ he_access e1 = "rw" ∧ he_access e2 = "rw"
       ∧ he_security e1 = Some "krb5" ∧ he_security e2 = Some "krb5").
Proof.
  intros (e1 & e2 & H & _ & _ & _ & _ & Hs & _).
  vm_compute in H. injection H as <- _. discriminate Hs.
Qed.

(** C3, amended. Expanding [rw=host1:host2,sec=krb5] gives exactly two
    entries, for host1 and for host2, each with access [rw] and each with
    the default security mode [sys]; with the [sec] token in front, as in
    [sec=krb5,rw=host1:host2], both carry [krb5]. *)
Theorem C3_two_hosts_default_security :
  ∀ (path file : string),
    expand_hosts {| sa_mountpoint := path;
                    shareopts := Some "rw=host1:host2,sec=krb5" |} file =
      (SA_OK,
       [ {| he_filename := file; he_path := path; he_host := "host1";
            he_security := Some "sys"; he_access := "rw" |};
         {| he_filename := file; he_path := path; he_host := "host2";
            he_security := Some "sys"; he_access := "rw" |} ])
    ∧ expand_hosts {| sa_mountpoint := path;
                      shareopts := Some "sec=krb5,rw=host1:host2" |} file =
        (SA_OK,
         [ {| he_filename := file; he_path := path; he_host := "host1";
              he_security := Some "krb5"; he_access := "rw" |};
           {| he_filename := file; he_path := path; he_host := "host2";
              he_security := Some "krb5"; he_access := "rw" |} ]).
Proof. intros path file. split; reflexivity. Qed.

(** * Lines *)

Lemma cat_cons (l : string) (ls : list string) : cat (l :: ls) = l +:+ cat ls.
Proof. done. Qed.

Lemma cat_app (ls1 ls2 : list string) : cat (ls1 ++ ls2) = cat ls1 +:+ cat ls2.
Proof.
  induction ls1 as [|l ls1 IH]; [done |].
  by rewrite <- app_comm_cons, !cat_cons, IH, append_assoc.
Qed.

Lemma cat_getlines (s : string) : cat (getlines s) = s.
Proof.
  induction s as [|c s IH]; simpl; [done |].
  destruct (Ascii.eqb c newline).
  - by rewrite cat_cons, IH.
  - destruct (getlines s) as [|l ls].
    + by rewrite <- IH.
    + by rewrite <- IH.
Qed.

Lemma getlines_nil (s : string) : getlines s = [] → s = EmptyString.
Proof. intros H. by rewrite <- (cat_getlines s), H. Qed.

Lemma getlines_complete (body rest : string) :
  has_char newline body = false →
  getlines (body +:+ String newline rest) =
    (body +:+ String newline EmptyString) :: getlines rest.
Proof.
  induction body as [|c body IH]; simpl.
  - intros _. by rewrite ?Ascii.eqb_refl.
  - destruct (Ascii.eqb c newline); [done |]. intros H. by rewrite IH.
Qed.

Lemma getlines_partial (l : string) : partial_line l → getlines l = [l].
Proof.
  intros [Hne Hnl]. induction l as [|c l IH]; [done |]. simpl in *.
  destruct (Ascii.eqb c newline); [done |].
  destruct l as [|d l]; [done |]. by rewrite IH.
Qed.

Lemma lines_wf_cons (l : string) (ls : list string) :
  lines_wf (l :: ls) →
  (complete_line l ∨ partial_line l) ∧ (ls ≠ [] → complete_line l)
  ∧ lines_wf ls.
Proof. destruct ls; simpl; intuition congruence. Qed.

Lemma lines_wf_intro (l : string) (ls : list string) :
  (complete_line l ∨ partial_line l) → (ls ≠ [] → complete_line l) →
  lines_wf ls → lines_wf (l :: ls).
Proof. destruct ls; simpl; intuition congruence. Qed.

Lemma complete_line_cons (c : ascii) (l : string) :
  Ascii.eqb c newline = false → complete_line l → complete_line (String c l).
Proof.
  intros Hc (body & -> & Hb). exists (String c body). simpl. by rewrite Hc.
Qed.

Lemma partial_line_cons (c : ascii) (l : string) :
  Ascii.eqb c newline = false → has_char newline l = false →
  partial_line (String c l).
Proof. intros Hc Hl. split; [done |]. simpl. by rewrite Hc. Qed.

Lemma complete_line_newline : complete_line (String newline EmptyString).
Proof. by exists EmptyString. Qed.

Lemma getlines_wf (s : string) : lines_wf (getlines s).
Proof.
  induction s as [|c s IH]; simpl; [done |].
  destruct (Ascii.eqb c newline) eqn:Hc.
  - apply Ascii.eqb_eq in Hc as ->.
    apply lines_wf_intro; auto using complete_line_newline.
  - destruct (getlines s) as [|l ls].
    + right. by apply partial_line_cons.
    + apply lines_wf_cons in IH as (Hl & Hls & Hwf).
      apply lines_wf_intro; [| |done].
      * destruct Hl as [Hl|[_ Hl]];
          [left; by apply complete_line_cons | right; by apply partial_line_cons].
      * intros Hne. by apply complete_line_cons, Hls.
Qed.

Lemma getlines_cat (ls : list string) : lines_wf ls → getlines (cat ls) = ls.
Proof.
  induction ls as [|l ls IH]; [done |].
  intros (Hl & Hls & Hwf)%lines_wf_cons. rewrite cat_cons.
  destruct ls as [|l2 ls].
  - simpl. rewrite append_nil_r. destruct Hl as [(body & -> & Hb)|Hl].
    + by rewrite getlines_complete.
    + by apply getlines_partial.
  - destruct Hls as (body & -> & Hb); [done |].
    by rewrite append_snoc_cons, getlines_complete, IH.
Qed.

Lemma lines_wf_filter (P : string → Prop) `{!∀ l, Decision (P l)}
    (ls : list string) :
  lines_wf ls → lines_wf (filter P ls).
Proof.
  induction ls as [|l ls IH]; [done |].
  intros (Hl & Hls & Hwf)%lines_wf_cons. rewrite filter_cons.
  case_decide; [|by apply IH].
  apply lines_wf_intro; [done | | by apply IH].
  intros Hne. apply Hls. intros ->. by rewrite filter_nil in Hne.
Qed.

(** Reading back what was written from lines of a file gives the lines
    that were kept. *)
Lemma getlines_cat_filter (P : string → Prop) `{!∀ l, Decision (P l)}
    (s : string) :
  getlines (cat (filter P (getlines s))) = filter P (getlines s).
Proof. apply getlines_cat, lines_wf_filter, getlines_wf. Qed.

Lemma getlines_cat_complete (ls : list string) (t : string) :
  Forall complete_line ls → getlines (cat ls +:+ t) = (ls ++ getlines t)%list.
Proof.
  induction 1 as [|l ls (body & -> & Hb) _ IH]; [done |].
  rewrite cat_cons, append_assoc, append_snoc_cons, getlines_complete by done.
  by rewrite IH.
Qed.

Lemma getlines_newline_terminated (s : string) :
  newline_terminated s = true → Forall complete_line (getlines s).
Proof.
  induction s as [|c s IH]; simpl; [by constructor |].
  destruct s as [|d s].
  - intros Hc. rewrite Hc. apply Ascii.eqb_eq in Hc as ->.
    constructor; [apply complete_line_newline | done].
  - intros Ht. specialize (IH Ht).
    destruct (Ascii.eqb c newline) eqn:Hc.
    + constructor; [|done]. apply Ascii.eqb_eq in Hc as ->.
      apply complete_line_newline.
    + destruct (getlines (String d s)) as [|l ls] eqn:E.
      * by apply getlines_nil in E.
      * inversion IH; subst. constructor; [|done].
        by apply complete_line_cons.
Qed.

(** * Matching a line against a mount point *)

Lemma c_line_matches_cons_cons (x c : ascii) (mountpoint s : string) :
  Ascii.eqb c space = false →
  c_line_matches (String x mountpoint) (String c s) =
    Ascii.eqb x c && c_line_matches mountpoint s.
Proof.
  intros Hc. unfold c_line_matches. simpl. rewrite Hc.
  destruct (strchr space s) as [off|]; simpl.
  - destruct (Nat.eqb off (String.length mountpoint)); simpl;
      [done | by rewrite andb_false_r].
  - by rewrite andb_false_r.
Qed.

Lemma c_line_matches_path_field (mountpoint s : string) :
  c_line_matches mountpoint s = true ↔ path_field s = Some mountpoint.
Proof.
  revert mountpoint. induction s as [|c s IH]; intros mountpoint.
  - done.
  - simpl. destruct (Ascii.eqb c space) eqn:Hc.
    + unfold c_line_matches. simpl. rewrite Hc.
      destruct mountpoint; simpl; intuition congruence.
    + destruct mountpoint as [|x mountpoint].
      * unfold c_line_matches. simpl. rewrite Hc.
        destruct (strchr space s), (path_field s); simpl;
          intuition congruence.
      * rewrite c_line_matches_cons_cons, andb_true_iff, IH by done.
        destruct (Ascii.eqb_spec x c) as [->|Hne];
          destruct (path_field s); simpl; intuition congruence.
Qed.

(** A line matches exactly when its C string has the mount point as
    path field. *)
Lemma line_matches_path_field (mountpoint buf : string) :
  line_matches mountpoint buf = true ↔
  path_field (c_str buf) = Some mountpoint.
Proof. apply c_line_matches_path_field. Qed.

Lemma line_matches_decide (mountpoint buf : string) :
  line_matches mountpoint buf =
    bool_decide (path_field (c_str buf) = Some mountpoint).
Proof.
  apply eq_true_iff_eq. rewrite bool_decide_eq_true.
  apply line_matches_path_field.
Qed.

Lemma path_field_space (p rest : string) :
  has_char space p = false →
  path_field (p +:+ String space rest) = Some p.
Proof.
  induction p as [|c p IH]; simpl; [done |].
  destruct (Ascii.eqb c space); [done |]. intros H. by rewrite IH.
Qed.

Lemma path_field_inv (buf p : string) :
  path_field buf = Some p →
  ∃ rest, buf = p +:+ String space rest ∧ has_char space p = false.
Proof.
  revert p. induction buf as [|c buf IH]; intros p; simpl; [done |].
  destruct (Ascii.eqb_spec c space) as [->|Hc].
  - intros [= <-]. by exists buf.
  - destruct (path_field buf) as [q|]; [|done]. intros [= <-].
    destruct (IH q eq_refl) as (rest & -> & Hq). exists rest. simpl.
    split; [done |]. by apply Ascii.eqb_neq in Hc as ->.
Qed.

Lemma path_field_none (buf : string) :
  has_char space buf = false ↔ path_field buf = None.
Proof.
  induction buf as [|c buf IH]; simpl; [done |].
  destruct (Ascii.eqb c space); [done |]. simpl.
  rewrite IH. by destruct (path_field buf).
Qed.

(** ** The C string of a buffer *)

Lemma c_str_nul_free (s : string) : nul_free s → c_str s = s.
Proof.
  unfold nul_free, lacks. induction s as [|a s IH]; simpl; [done |].
  intros [-> Hs]%orb_false_iff. by rewrite IH.
Qed.

Lemma nul_free_c_str (s : string) : nul_free (c_str s).
Proof.
  unfold nul_free, lacks. induction s as [|a s IH]; simpl; [done |].
  destruct (Ascii.eqb a nul) eqn:Ha; [done |]. simpl. by rewrite Ha.
Qed.

Lemma has_char_c_str (c : ascii) (s : string) :
  has_char c s = false → has_char c (c_str s) = false.
Proof.
  induction s as [|a s IH]; simpl; [done |].
  intros [Ha Hs]%orb_false_iff.
  destruct (Ascii.eqb a nul); [done |]. simpl. by rewrite Ha, IH.
Qed.

(** The path field of the C string of a buffer is the path field of the
    buffer, and for a mount point without NUL the converse holds. *)
Lemma path_field_c_str (buf p : string) :
  path_field (c_str buf) = Some p → path_field buf = Some p.
Proof.
  revert p. induction buf as [|a buf IH]; intros p; simpl; [done |].
  destruct (Ascii.eqb_spec a nul) as [->|Ha]; [done |]. simpl.
  destruct (Ascii.eqb a space); [done |].
  destruct (path_field (c_str buf)) as [q|]; [|done].
  intros [= <-]. by rewrite (IH q).
Qed.

Lemma path_field_c_str_nul_free (buf p : string) :
  nul_free p → path_field buf = Some p → path_field (c_str buf) = Some p.
Proof.
  unfold nul_free, lacks.
  revert p. induction buf as [|a buf IH]; intros p Hp; simpl; [done |].
  destruct (Ascii.eqb_spec a space) as [->|Hsp].
  - by intros [= <-].
  - destruct (path_field buf) as [q|] eqn:Hq; [|done]. intros [= <-].
    simpl in Hp. apply orb_false_iff in Hp as [Ha Hq0]. rewrite Ha. simpl.
    apply Ascii.eqb_neq in Hsp as ->. by rewrite (IH q).
Qed.

Lemma line_matches_nul_free (mountpoint buf : string) :
  nul_free mountpoint →
  line_matches mountpoint buf = true ↔ path_field buf = Some mountpoint.
Proof.
  intros Hmp. rewrite line_matches_path_field.
  split; [apply path_field_c_str | by apply path_field_c_str_nul_free].
Qed.

Lemma getlines_nul_free (s : string) :
  nul_free s → Forall nul_free (getlines s).
Proof.
  unfold nul_free, lacks. induction s as [|a s IH]; simpl; [done |].
  intros [Ha Hs]%orb_false_iff. specialize (IH Hs).
  destruct (Ascii.eqb a newline).
  - constructor; [|done]. simpl. by rewrite Ha.
  - destruct (getlines s) as [|l ls].
    + constructor; [|done]. simpl. by rewrite Ha.
    + inversion IH as [|? ? Hl Hls]; subst.
      constructor; [|done]. simpl. by rewrite Ha.
Qed.

Lemma fmap_c_str_nul_free (ls : list string) :
  Forall nul_free ls → c_str <$> ls = ls.
Proof.
  induction 1 as [|l ls Hl _ IH]; [done |].
  by rewrite fmap_cons, IH, c_str_nul_free.
Qed.

(** The lines of contents without NUL are read as they are. *)
Lemma c_lines_nul_free (s : string) : nul_free s → c_lines s = getlines s.
Proof. intros Hs. by apply fmap_c_str_nul_free, getlines_nul_free. Qed.

Lemma nul_free_append (a b : string) :
  nul_free (a +:+ b) ↔ nul_free a ∧ nul_free b.
Proof.
  unfold nul_free, lacks. rewrite has_char_append. apply orb_false_iff.
Qed.

Lemma nul_free_cat (ls : list string) :
  Forall nul_free ls → nul_free (cat ls).
Proof.
  induction 1 as [|l ls Hl _ IH]; [done |].
  rewrite cat_cons. by apply nul_free_append.
Qed.

(** The loop of nfs_copy_entries writes the lines, each up to its first
    NUL, whose path field is not the mount point. *)
Lemma copy_lines_filter (mountpoint : string) (ls : list string)
    (newfp : string) :
  fold_left (copy_line mountpoint) ls newfp =
    newfp +:+ cat (filter (λ l, path_field l ≠ Some mountpoint)
                     (c_str <$> ls)).
Proof.
  revert newfp. induction ls as [|l ls IH]; intros newfp; simpl.
  - by rewrite append_nil_r.
  - rewrite IH, ?fmap_cons, filter_cons. unfold copy_line.
    rewrite line_matches_decide. case_bool_decide; case_decide; try done.
    by rewrite cat_cons, append_assoc.
Qed.

Lemma existsb_line_matches (mountpoint : string) (ls : list string) :
  existsb (line_matches mountpoint) ls =
    bool_decide (Exists (λ l, path_field l = Some mountpoint)
                   (c_str <$> ls)).
Proof.
  induction ls as [|l ls IH]; simpl; [done |].
  rewrite IH, line_matches_decide.
  apply eq_true_iff_eq.
  rewrite orb_true_iff, !bool_decide_eq_true, Exists_cons. done.
Qed.

(** * The export table store *)

Lemma filter_c_str_matches (mountpoint : string) (ls : list string) :
  filter (λ l, path_field l ≠ Some mountpoint) (c_str <$> ls) =
    c_str <$> filter (λ l, line_matches mountpoint l = false) ls.
Proof.
  induction ls as [|l ls IH]; [done |].
  rewrite fmap_cons, !filter_cons, IH, line_matches_decide.
  case_bool_decide; repeat case_decide; try done.
Qed.

Lemma nfs_copy_entries_present (w : world) (filename mountpoint old : string) :
  files w !! ZFS_EXPORTS_FILE = Some old →
  filename ≠ ZFS_EXPORTS_FILE →
  nfs_copy_entries filename mountpoint w =
    Done SA_OK
      (with_files
         (λ m, <[filename :=
                   cat (filter (λ l, path_field l ≠ Some mountpoint)
                          (c_lines old))]> m)
         w).
Proof.
  intros Hold Hne. unfold nfs_copy_entries. rewrite Hold. simpl.
  rewrite lookup_insert_ne, Hold by done. simpl.
  rewrite copy_lines_filter. simpl.
  unfold with_files. simpl. by rewrite insert_insert_eq.
Qed.

Lemma nfs_copy_entries_absent (w : world) (filename mountpoint : string) :
  files w !! ZFS_EXPORTS_FILE = None →
  nfs_copy_entries filename mountpoint w = Done SA_OK w.
Proof. intros Hold. unfold nfs_copy_entries. by rewrite Hold. Qed.

Lemma nfs_is_shared_exists (impl_share : sa_share_impl) (w : world) :
  nfs_is_shared impl_share w =
    match files w !! ZFS_EXPORTS_FILE with
    | None => false
    | Some content =>
        bool_decide
          (Exists (λ l, path_field l = Some (sa_mountpoint impl_share))
             (c_lines content))
    end.
Proof.
  unfold nfs_is_shared. destruct (files w !! ZFS_EXPORTS_FILE); [|done].
  apply existsb_line_matches.
Qed.

Lemma tmpfile_name_fresh (sfx : string) :
  ZFS_EXPORTS_FILE +:+ "." +:+ sfx ≠ ZFS_EXPORTS_FILE.
Proof.
  intros H. apply (f_equal String.length) in H.
  rewrite !append_length in H. simpl in H. lia.
Qed.

(** [mkstemp] makes the file under the first name that it tries when
    that name is free, and goes on to the next name when it is taken. *)
Lemma nfs_init_tmpfile_done (sfx : string) (more : list string) (w : world) :
  files w !! (ZFS_EXPORTS_FILE +:+ "." +:+ sfx) = None →
  ∃ w', nfs_init_tmpfile (sfx :: more) w =
          Done (Some (ZFS_EXPORTS_FILE +:+ "." +:+ sfx)) w'
        ∧ files w' = <[ZFS_EXPORTS_FILE +:+ "." +:+ sfx := EmptyString]> (files w)
        ∧ nfs_lock_fd w' = nfs_lock_fd w
        ∧ exports_lock_fd w' = exports_lock_fd w.
Proof.
  intros Hfresh. unfold nfs_init_tmpfile, mbind, M_bind, bind.
  cbn [sys_mkstemp]. rewrite append_assoc, Hfresh. simpl.
  destruct (Z.eqb_spec (Z.of_nat (next_fd w)) (-1)) as [H|_]; [lia |].
  by eexists.
Qed.

Lemma nfs_init_tmpfile_skip (sfx content : string) (more : list string)
    (w : world) :
  files w !! tmpfile_name sfx = Some content →
  nfs_init_tmpfile (sfx :: more) w = nfs_init_tmpfile more w.
Proof.
  unfold tmpfile_name. intros H.
  unfold nfs_init_tmpfile, mbind, M_bind, bind. cbn [sys_mkstemp].
  by rewrite append_assoc, H.
Qed.

Lemma nfs_init_tmpfile_skip_all (taken tries : list string) (w : world) :
  Forall (λ sfx, is_Some (files w !! tmpfile_name sfx)) taken →
  nfs_init_tmpfile (taken ++ tries) w = nfs_init_tmpfile tries w.
Proof.
  induction 1 as [|sfx taken [content Hsfx] _ IH]; [done |].
  by rewrite <- app_comm_cons, (nfs_init_tmpfile_skip _ _ _ _ Hsfx).
Qed.

Lemma nfs_enable_share_skip (g : guard) (taken tries : list string)
    (impl_share : sa_share_impl) (w : world) :
  Forall (λ sfx, is_Some (files w !! tmpfile_name sfx)) taken →
  nfs_enable_share g (taken ++ tries) impl_share w =
    nfs_enable_share g tries impl_share w.
Proof.
  intros Htaken. unfold nfs_enable_share, mbind, M_bind, bind.
  by rewrite (nfs_init_tmpfile_skip_all taken tries w Htaken).
Qed.

Lemma nfs_disable_share_skip (g : guard) (taken tries : list string)
    (impl_share : sa_share_impl) (w : world) :
  Forall (λ sfx, is_Some (files w !! tmpfile_name sfx)) taken →
  nfs_disable_share g (taken ++ tries) impl_share w =
    nfs_disable_share g tries impl_share w.
Proof.
  intros Htaken. unfold nfs_disable_share, mbind, M_bind, bind.
  by rewrite (nfs_init_tmpfile_skip_all taken tries w Htaken).
Qed.

Lemma mkstemp_makes_first (sfx : string) (more : list string) (w : world) :
  String.length sfx = 6 →
  files w !! tmpfile_name sfx = None →
  mkstemp_makes (sfx :: more) sfx w.
Proof. intros Hlen Hfresh. by exists [], more. Qed.

Lemma mkstemp_makes_length (tries : list string) (sfx : string) (w : world) :
  mkstemp_makes tries sfx w → String.length sfx = 6.
Proof. by intros (taken & more & _ & _ & Hlen & _). Qed.

Lemma mkstemp_makes_fresh (tries : list string) (sfx : string) (w : world) :
  mkstemp_makes tries sfx w → files w !! tmpfile_name sfx = None.
Proof. by intros (taken & more & _ & _ & _ & Hfresh). Qed.

Lemma mkstemp_makes_taken (tries : list string) (sfx : string) (w : world) :
  mkstemp_makes tries sfx w →
  ∃ taken more,
    tries = (taken ++ sfx :: more)%list
    ∧ Forall (λ s, is_Some (files w !! tmpfile_name s)) taken.
Proof.
  intros (taken & more & -> & Htaken & _). exists taken, more.
  split; [done |]. eapply Forall_impl; [exact Htaken |]. by intros s [_ ?].
Qed.

(** The claim C7 as stated fails where it says that nfs_copy_entries
    produces an empty destination when the artifact is missing: the
    function returns before it opens the destination, which is not made
    when it was missing, and keeps its contents when it was there. *)
Lemma C7_missing_artifact_counterexample :
  ¬ copy_makes_empty_destination "/tmp/new" "/data" (world_of [])
  ∧ ¬ copy_makes_empty_destination "/tmp/new" "/data"
        (world_of [("/tmp/new", "keep")]).
Proof.
  split; intros H; destruct (H eq_refl) as (w' & E & Hnew);
    vm_compute in E; injection E as <-; vm_compute in Hnew;
    discriminate Hnew.
Qed.

(** C7, amended. A line is left out by nfs_copy_entries, and makes
    nfs_is_shared answer true, exactly when the text of the line up to
    its first space is the whole mount point: the line is the mount
    point, a space and the rest, and the mount point itself has no space
    (the line is read as a C string, up to its first NUL; for a mount
    point, which has no NUL, this makes no difference to the test).  A
    path field that differs from the mount point, be it shorter or
    longer, does not match.  The other lines are written in order, each
    up to its first NUL.  When the artifact is missing, nfs_copy_entries
    returns success and changes nothing: it neither makes nor changes the
    destination; nfs_is_shared answers false. *)
Theorem C7_match_is_whole_path_field :
  ∀ (mountpoint : string),
    (∀ buf, line_matches mountpoint buf = true ↔
            path_field (c_str buf) = Some mountpoint)
    ∧ (nul_free mountpoint →
       ∀ buf, line_matches mountpoint buf = true ↔
              path_field buf = Some mountpoint)
    ∧ (∀ buf, path_field buf = Some mountpoint ↔
              ∃ rest, buf = mountpoint +:+ String space rest
                      ∧ has_char space mountpoint = false)
    ∧ (∀ p rest, has_char space p = false → p ≠ mountpoint →
                 line_matches mountpoint (p +:+ String space rest) = false)
    ∧ (∀ w filename old,
         files w !! ZFS_EXPORTS_FILE = Some old →
         filename ≠ ZFS_EXPORTS_FILE →
         ∃ w', nfs_copy_entries filename mountpoint w = Done SA_OK w'
               ∧ files w' !! filename =
                   Some (cat (c_str <$>
                                filter (λ l, line_matches mountpoint l = false)
                                  (getlines old)))
               ∧ (∀ p, p ≠ filename → files w' !! p = files w !! p))
    ∧ (∀ w opts old,
         files w !! ZFS_EXPORTS_FILE = Some old →
         nfs_is_shared {| sa_mountpoint := mountpoint; shareopts := opts |} w =
           bool_decide (Exists (λ l, line_matches mountpoint l = true)
                          (getlines old)))
    ∧ (∀ w filename,
         files w !! ZFS_EXPORTS_FILE = None →
         nfs_copy_entries filename mountpoint w = Done SA_OK w)
    ∧ (∀ w opts,
         files w !! ZFS_EXPORTS_FILE = None →
         nfs_is_shared {| sa_mountpoint := mountpoint; shareopts := opts |} w =
           false).
Proof.
  intros mountpoint. split; [apply line_matches_path_field |].
  split; [intros Hmp buf; by apply line_matches_nul_free |].
  split.
  { intros buf. split; [apply path_field_inv |].
    intros (rest & -> & Hsp). by apply path_field_space. }
  split.
  { intros p rest Hp Hne. rewrite line_matches_decide.
    apply bool_decide_eq_false. intros H%path_field_c_str.
    rewrite path_field_space in H by done. congruence. }
  split.
  { intros w filename old Hold Hne. eexists. split; [|split].
    - by apply nfs_copy_entries_present.
    - simpl. rewrite lookup_insert_eq. unfold c_lines.
      by rewrite filter_c_str_matches.
    - intros p Hp. simpl. by apply lookup_insert_ne. }
  split.
  { intros w opts old Hold. unfold nfs_is_shared. rewrite Hold. simpl.
    induction (getlines old) as [|l ls IH]; [done |]. simpl. rewrite IH.
    apply eq_true_iff_eq.
    rewrite orb_true_iff, !bool_decide_eq_true, Exists_cons. done. }
  split; [intros w filename Habs; by apply nfs_copy_entries_absent |].
  intros w opts Habs. by rewrite nfs_is_shared_exists, Habs.
Qed.

(** A line without a space has no space before its first NUL either. *)
Lemma line_matches_spaceless (mountpoint buf : string) :
  has_char space buf = false → line_matches mountpoint buf = false.
Proof.
  intros Hsp. rewrite line_matches_decide. apply bool_decide_eq_false.
  apply has_char_c_str, path_field_none in Hsp. congruence.
Qed.

(** The claim C10 as stated fails for a line with a NUL byte: [fputs]
    writes the line [a], NUL, [b], newline as [a]. *)
Lemma C10_line_with_nul_counterexample :
  let old := "a" +:+ String nul ("b" +:+ String newline EmptyString) in
  has_char space old = false
  ∧ getlines old = [old]
  ∧ ¬ copy_keeps_spaceless_lines (tmpfile_name "a1B2c3") "/data"
        (world_of [(ZFS_EXPORTS_FILE, old);
                   (tmpfile_name "a1B2c3", EmptyString)])
  ∧ ∃ w', nfs_copy_entries (tmpfile_name "a1B2c3") "/data"
            (world_of [(ZFS_EXPORTS_FILE, old);
                       (tmpfile_name "a1B2c3", EmptyString)]) = Done SA_OK w'
          ∧ files w' !! tmpfile_name "a1B2c3" = Some "a".
Proof.
  intros old. split; [reflexivity |]. split; [reflexivity |]. split.
  - intros H. destruct (H old eq_refl) as (w' & new & E & Hnew & Hsame).
    vm_compute in E. injection E as <-. vm_compute in Hnew.
    injection Hnew as <-. vm_compute in Hsame. discriminate Hsame.
  - eexists. split; [vm_compute; reflexivity |]. vm_compute. reflexivity.
Qed.

(** C10, amended. A line without a space matches no mount point:
    nfs_copy_entries never leaves it out, whichever mount point is given,
    and writes it to the destination up to its first NUL, that is as it
    is when it has no NUL; for an artifact without NUL the lines without
    a space of the destination are those of the artifact, in order.
    nfs_is_shared gives the same answer as on the artifact without such
    lines. *)
Theorem C10_lines_without_space_are_kept :
  ∀ (mountpoint : string),
    (∀ buf, has_char space buf = false → line_matches mountpoint buf = false)
    ∧ (∀ w filename old,
         files w !! ZFS_EXPORTS_FILE = Some old →
         filename ≠ ZFS_EXPORTS_FILE →
         let kept :=
           filter (λ l, line_matches mountpoint l = false) (getlines old) in
         ∃ w',
           nfs_copy_entries filename mountpoint w = Done SA_OK w'
           ∧ files w' !! filename = Some (cat (c_str <$> kept))
           ∧ filter (λ l, has_char space l = false) kept =
               filter (λ l, has_char space l = false) (getlines old))
    ∧ (∀ w filename old,
         files w !! ZFS_EXPORTS_FILE = Some old →
         filename ≠ ZFS_EXPORTS_FILE →
         nul_free old →
         ∃ w' new,
           nfs_copy_entries filename mountpoint w = Done SA_OK w'
           ∧ files w' !! filename = Some new
           ∧ filter (λ l, has_char space l = false) (getlines new) =
               filter (λ l, has_char space l = false) (getlines old))
    ∧ (∀ w opts old,
         files w !! ZFS_EXPORTS_FILE = Some old →
         nfs_is_shared {| sa_mountpoint := mountpoint; shareopts := opts |} w =
           existsb (line_matches mountpoint)
             (filter (λ l, has_char space l ≠ false) (getlines old))).
Proof.
  intros mountpoint. split; [apply line_matches_spaceless |].
  split.
  { intros w filename old Hold Hne kept. eexists. split; [|split].
    - by apply nfs_copy_entries_present.
    - simpl. rewrite lookup_insert_eq. unfold c_lines.
      by rewrite filter_c_str_matches.
    - unfold kept. rewrite list_filter_filter. apply list_filter_iff.
      intros l. split; [tauto |]. intros Hsp. split; [done |].
      by apply line_matches_spaceless. }
  split.
  { intros w filename old Hold Hne Hnul. eexists _, _. split; [|split].
    - by apply nfs_copy_entries_present.
    - simpl. apply lookup_insert_eq.
    - rewrite c_lines_nul_free by done.
      rewrite getlines_cat_filter by apply _.
      rewrite list_filter_filter. apply list_filter_iff.
      intros l. split; [tauto |]. intros Hsp. split; [done |].
      apply path_field_none in Hsp. congruence. }
  intros w opts old Hold. unfold nfs_is_shared. rewrite Hold. simpl.
  induction (getlines old) as [|l ls IH]; [done |].
  rewrite filter_cons. simpl. case_decide as Hsp.
  - simpl. by rewrite IH.
  - rewrite IH. by rewrite line_matches_spaceless.
Qed.

(** * Computations *)

Lemma mbind_done {A B} (m : M A) (k : A → M B) (w w' : world) (a : A) :
  m w = Done a w' → (m ≫= k) w = k a w'.
Proof. intros E. unfold mbind, M_bind, bind. by rewrite E. Qed.

Lemma VERIFY0_done (m : M Z) (w w' : world) :
  m w = Done 0%Z w' → VERIFY0 m w = Done tt w'.
Proof. intros E. unfold VERIFY0. by rewrite (mbind_done _ _ _ _ _ E). Qed.

Lemma lift_done {A} (f : world → A * world) (w w' : world) (a : A) :
  f w = (a, w') → lift f w = Done a w'.
Proof. intros E. unfold lift. by rewrite E. Qed.

(** One step of a computation whose outcome is known. *)
Tactic Notation "step" tactic3(t) :=
  erewrite mbind_done by t; cbn beta iota.

(** * The lock *)

Lemma nfs_exports_lock_flock_done (w : world) :
  (nfs_lock_fd w < 0)%Z →
  ∃ w', nfs_exports_lock_flock w = Done 0%Z w'
        ∧ files w' =
            match files w !! ZFS_EXPORTS_LOCK with
            | Some _ => files w
            | None => <[ZFS_EXPORTS_LOCK := EmptyString]> (files w)
            end
        ∧ (0 ≤ nfs_lock_fd w')%Z
        ∧ exports_lock_fd w' = exports_lock_fd w.
Proof.
  intros Hfd.
  unfold nfs_exports_lock_flock, mbind, M_bind, bind, sys_open_creat, lift,
    sys_flock_ex.
  destruct (Z.leb_spec 0 (nfs_lock_fd w)) as [|_]; [lia |].
  destruct (files w !! ZFS_EXPORTS_LOCK) eqn:E; simpl;
    eexists; (split; [done |]); simpl; rewrite ?E; repeat split; lia.
Qed.

(** An acquire of the [flock] version by a process that holds the lock
    never returns. *)
Lemma nfs_exports_lock_flock_blocked (w : world) :
  (0 ≤ nfs_lock_fd w)%Z →
  ∃ w', nfs_exports_lock_flock w = Blocked w'.
Proof.
  intros Hfd.
  unfold nfs_exports_lock_flock, mbind, M_bind, bind, sys_open_creat, lift,
    sys_flock_ex.
  destruct (Z.leb_spec 0 (nfs_lock_fd w)) as [_|]; [|lia].
  destruct (files w !! ZFS_EXPORTS_LOCK); simpl; by eexists.
Qed.

Lemma nfs_exports_unlock_flock_done (w : world) :
  (0 ≤ nfs_lock_fd w)%Z →
  nfs_exports_unlock_flock w = Done 0%Z (with_nfs_lock_fd (-1) w).
Proof.
  intros H. unfold nfs_exports_unlock_flock.
  by destruct (Z.ltb_spec (nfs_lock_fd w) 0); [lia |].
Qed.

Lemma nfs_exports_lock_fcntl_done (ZFS_EXPORTS : string) (w : world) :
  exports_lock_fd w = (-1)%Z →
  ∃ w', nfs_exports_lock_fcntl ZFS_EXPORTS w = Done 0%Z w'
        ∧ files w' !! ZFS_EXPORTS = Some EmptyString
        ∧ (∀ p, p ≠ ZFS_EXPORTS → p ≠ ZFS_EXPORTS_LOCK →
                files w' !! p = files w !! p)
        ∧ (0 ≤ exports_lock_fd w')%Z
        ∧ nfs_lock_fd w' = nfs_lock_fd w.
Proof.
  intros Hfd.
  unfold nfs_exports_lock_fcntl, mbind, M_bind, bind, verify, sys_open_creat,
    sys_access, sys_unlink, sys_creat, lift, ret.
  rewrite Hfd. simpl.
  destruct (files w !! ZFS_EXPORTS_LOCK) eqn:E; simpl;
    case_bool_decide as Hp; simpl.
  - destruct Hp as [c Hc]. rewrite Hc. simpl. eexists. split; [done |].
    simpl. rewrite lookup_insert_eq. repeat split; try lia.
    intros p Hp1 Hp2. by rewrite lookup_insert_ne, lookup_delete_ne.
  - eexists. split; [done |].
    simpl. rewrite lookup_insert_eq. repeat split; try lia.
    intros p Hp1 Hp2. by rewrite lookup_insert_ne.
  - destruct Hp as [c Hc]. rewrite Hc. simpl. eexists. split; [done |].
    simpl. rewrite lookup_insert_eq. repeat split; try lia.
    intros p Hp1 Hp2.
    by rewrite lookup_insert_ne, lookup_delete_ne, lookup_insert_ne.
  - eexists. split; [done |].
    simpl. rewrite lookup_insert_eq. repeat split; try lia.
    intros p Hp1 Hp2. by rewrite !lookup_insert_ne.
Qed.

(** The claim C6 as stated fails.  The [fcntl] version of
    nfs_exports_lock removes an artifact that is there and makes it anew,
    empty; the [flock] version does not make a missing artifact. *)
Lemma C6_acquire_counterexample :
  ¬ acquire_keeps_artifact (nfs_exports_lock_fcntl ZFS_EXPORTS_FILE)
      ZFS_EXPORTS_FILE
      (world_of [(ZFS_EXPORTS_FILE,
                  "/data *(sec=sys,rw,no_subtree_check,mountpoint)" +:+
                  String newline EmptyString)])
  ∧ ¬ acquire_keeps_artifact nfs_exports_lock_flock ZFS_EXPORTS_FILE
        (world_of []).
Proof.
  split.
  - intros H. destruct (H _ eq_refl) as (_ & _ & Hkeep).
    specialize (Hkeep _ eq_refl). vm_compute in Hkeep. discriminate Hkeep.
  - intros H. destruct (H _ eq_refl) as ([c Hc] & _).
    vm_compute in Hc. discriminate Hc.
Qed.

(** C6, amended. A successful acquire of the [fcntl] version leaves the
    artifact there and empty, whether it was missing or not: contents it
    had are not kept; the call succeeds whenever the lock is not held
    already, and changes no file but the artifact and the lock file.  The
    [flock] version succeeds, when the process does not hold the lock
    already, and changes no file but the lock file: it neither makes nor
    changes the artifact. *)
Theorem C6_acquire_fcntl_empties_artifact :
  ∀ (ZFS_EXPORTS : string) (w : world),
    exports_lock_fd w = (-1)%Z →
    (∃ w', nfs_exports_lock_fcntl ZFS_EXPORTS w = Done 0%Z w'
           ∧ files w' !! ZFS_EXPORTS = Some EmptyString
           ∧ (∀ p, p ≠ ZFS_EXPORTS → p ≠ ZFS_EXPORTS_LOCK →
                   files w' !! p = files w !! p))
    ∧ (nfs_lock_fd w = (-1)%Z →
       ∃ w', nfs_exports_lock_flock w = Done 0%Z w'
             ∧ (∀ p, p ≠ ZFS_EXPORTS_LOCK → files w' !! p = files w !! p)).
Proof.
  intros ZFS_EXPORTS w Hfd. split.
  - destruct (nfs_exports_lock_fcntl_done ZFS_EXPORTS w Hfd)
      as (w' & E & Hart & Hother & _).
    by exists w'.
  - intros Hfd'.
    destruct (nfs_exports_lock_flock_done w) as (w' & E & Hfiles & _);
      [lia |].
    exists w'. split; [done |]. intros p Hp. rewrite Hfiles.
    destruct (files w !! ZFS_EXPORTS_LOCK); [done |].
    by rewrite lookup_insert_ne.
Qed.

(** C6 on a state whose artifact has one line. *)
Lemma C6_acquire_fcntl_witness :
  ∃ w', nfs_exports_lock_fcntl ZFS_EXPORTS_FILE
          (world_of [(ZFS_EXPORTS_FILE, "/data *(rw)")]) = Done 0%Z w'
        ∧ files w' !! ZFS_EXPORTS_FILE = Some EmptyString.
Proof.
  destruct (C6_acquire_fcntl_empties_artifact ZFS_EXPORTS_FILE
              (world_of [(ZFS_EXPORTS_FILE, "/data *(rw)")]) eq_refl)
    as [(w' & E & Hart & _) _].
  by exists w'.
Defined.

(** * The share operations *)

Lemma expand_groups_file (file path : string) (sec : option string)
    (toks : list (string * option string)) :
  Forall (λ e, he_filename e = file ∧ he_path e = path)
    (expand_groups file path sec toks).
Proof.
  revert sec. induction toks as [|tok toks IH]; intros sec; simpl; [done |].
  apply Forall_app. split; [|apply IH].
  destruct (_ || _); [|done].
  unfold group_entries. by apply Forall_fmap, Forall_true.
Qed.

Lemma get_linux_hostspec_ok (host : string) :
  ∃ linuxhost, get_linux_hostspec host = (SA_OK, Some linuxhost).
Proof.
  unfold get_linux_hostspec. destruct host as [|c host]; [by eexists |].
  destruct (Ascii.eqb_spec c "@") as [->|Hne]; [by eexists |].
  destruct c as [[] [] [] [] [] [] [] []]; by eexists.
Qed.

(** nfs_add_entry on the entries of an expansion appends their lines to
    the file and changes nothing else. *)
Lemma call_entries_nfs_add_entry (file : string) (linux_opts : option string)
    (es : list host_entry) (w : world) (content : string) :
  Forall (λ e, he_filename e = file) es →
  files w !! file = Some content →
  ∃ w', call_entries (λ f p h s a, nfs_add_entry f p h s a linux_opts) es w =
          (SA_OK, w')
        ∧ files w' !! file =
            Some (content +:+ cat (entry_line linux_opts <$> es))
        ∧ (∀ p, p ≠ file → files w' !! p = files w !! p)
        ∧ nfs_lock_fd w' = nfs_lock_fd w
        ∧ exports_lock_fd w' = exports_lock_fd w.
Proof.
  intros Hes. revert w content.
  induction Hes as [|e es Hf _ IH]; intros w content Hc; simpl.
  - exists w. by rewrite append_nil_r.
  - unfold nfs_add_entry at 1. unfold entry_line at 1.
    destruct (get_linux_hostspec_ok (he_host e)) as (linuxhost & ->).
    rewrite Hf, Hc. simpl.
    set (line := export_line _ _ _ _ _).
    destruct (IH (with_files (insert file (content +:+ line)) w)
                (content +:+ line)) as (w' & E & Hfile & Hother & Hfd1 & Hfd2).
    { simpl. apply lookup_insert_eq. }
    exists w'. split; [done |].
    split; [by rewrite Hfile, append_assoc |].
    split; [|done].
    intros p Hp. rewrite Hother by done. simpl. by apply lookup_insert_ne.
Qed.

Lemma nfs_fini_tmpfile_done (tmpfile content : string) (w : world) :
  files w !! tmpfile = Some content →
  tmpfile ≠ ZFS_EXPORTS_FILE →
  nfs_fini_tmpfile tmpfile w =
    Done SA_OK
      (with_files (λ m, <[ZFS_EXPORTS_FILE := content]> (delete tmpfile m)) w).
Proof.
  intros Hc Hne. unfold nfs_fini_tmpfile, mbind, M_bind, bind, sys_rename.
  rewrite Hc. by apply String.eqb_neq in Hne as ->.
Qed.

Lemma get_linux_shareopts_cases (opts : option string) :
  (∃ linux_opts, get_linux_shareopts opts = (SA_OK, linux_opts))
  ∨ (∃ error, error ≠ SA_OK ∧ get_linux_shareopts opts = (error, None)).
Proof.
  unfold get_linux_shareopts.
  destruct (foreach_nfs_shareopt _ _ _) as [[] o];
    [left; by eexists
    | right; eexists; (split; [|reflexivity]); done ..].
Qed.

Lemma tmpfile_name_not_lock (sfx : string) :
  String.length sfx = 6 → tmpfile_name sfx ≠ ZFS_EXPORTS_LOCK.
Proof.
  intros Hlen H. apply (f_equal String.length) in H.
  unfold tmpfile_name, ZFS_EXPORTS_LOCK in H.
  rewrite !append_length, Hlen in H. simpl in H. lia.
Qed.

Lemma tmpfile_name_not_artifact (sfx : string) :
  tmpfile_name sfx ≠ ZFS_EXPORTS_FILE.
Proof. apply tmpfile_name_fresh. Qed.

Lemma artifact_not_lock : ZFS_EXPORTS_FILE ≠ ZFS_EXPORTS_LOCK.
Proof. discriminate. Qed.

Lemma acquired_artifact_flock (w : world) :
  acquired_artifact flock_guard w = files w !! ZFS_EXPORTS_FILE.
Proof. done. Qed.

Lemma acquired_lines_flock (w : world) :
  acquired_lines flock_guard w = artifact_lines w.
Proof. done. Qed.

Lemma acquired_artifact_fcntl (w : world) :
  acquired_artifact (fcntl_guard ZFS_EXPORTS_FILE) w = Some EmptyString.
Proof. done. Qed.

Lemma acquired_lines_fcntl (w : world) :
  acquired_lines (fcntl_guard ZFS_EXPORTS_FILE) w = [].
Proof. done. Qed.

Lemma acquired_artifact_same (g : guard) (w w' : world) :
  files w' !! ZFS_EXPORTS_FILE = files w !! ZFS_EXPORTS_FILE →
  acquired_artifact g w' = acquired_artifact g w.
Proof. unfold acquired_artifact. by intros ->. Qed.

(** A successful acquire of either version: the artifact is as
    [acquired_artifact] says, the file that the routine makes anew is
    empty, and no other file but the lock file has changed. *)
Lemma nfs_exports_lock_done (g : guard) (w : world) :
  lock_fd g w = (-1)%Z →
  ∃ w', nfs_exports_lock g w = Done 0%Z w'
        ∧ files w' !! ZFS_EXPORTS_FILE = acquired_artifact g w
        ∧ (∀ p, guard_file g = Some p → files w' !! p = Some EmptyString)
        ∧ (∀ p, p ≠ ZFS_EXPORTS_LOCK → guard_file g ≠ Some p →
                files w' !! p = files w !! p)
        ∧ (0 ≤ lock_fd g w')%Z.
Proof.
  destruct g as [|ZFS_EXPORTS]; simpl; intros Hfd.
  - destruct (nfs_exports_lock_flock_done w) as (w' & E & Hf & Hl & _);
      [lia |].
    assert (∀ p, p ≠ ZFS_EXPORTS_LOCK → files w' !! p = files w !! p)
      as Hother.
    { intros p Hp. rewrite Hf. destruct (files w !! ZFS_EXPORTS_LOCK);
        [done | by rewrite lookup_insert_ne]. }
    exists w'. split; [done |].
    split; [apply Hother, artifact_not_lock |].
    split; [done |]. split; [|done]. intros p Hp _. by apply Hother.
  - destruct (nfs_exports_lock_fcntl_done ZFS_EXPORTS w Hfd)
      as (w' & E & Hz & Hother & Hl & _).
    exists w'. split; [done |]. split.
    { unfold acquired_artifact. simpl. case_bool_decide as Hgf.
      - injection Hgf as ->. done.
      - apply Hother; [congruence | apply artifact_not_lock]. }
    split; [by intros p [= <-] |]. split; [|done].
    intros p Hp1 Hp2. apply Hother; congruence.
Qed.

Lemma nfs_exports_unlock_done (g : guard) (w : world) :
  (0 ≤ lock_fd g w)%Z →
  ∃ w', nfs_exports_unlock g w = Done 0%Z w'
        ∧ files w' = files w
        ∧ lock_fd g w' = (-1)%Z.
Proof.
  destruct g as [|ZFS_EXPORTS]; simpl; intros Hfd.
  - exists (with_nfs_lock_fd (-1) w). split; [|done].
    unfold nfs_exports_unlock_flock.
    by destruct (Z.ltb_spec (nfs_lock_fd w) 0); [lia |].
  - exists (with_exports_lock_fd (-1) w). split; [|done].
    unfold nfs_exports_unlock_fcntl.
    by destruct (Z.ltb_spec (exports_lock_fd w) 0); [lia |].
Qed.

Lemma lock_fd_with_files (g : guard) (f : gmap string string → gmap string string)
    (w : world) :
  lock_fd g (with_files f w) = lock_fd g w.
Proof. by destruct g. Qed.

Lemma lock_fd_same (g : guard) (w w' : world) :
  nfs_lock_fd w' = nfs_lock_fd w →
  exports_lock_fd w' = exports_lock_fd w →
  lock_fd g w' = lock_fd g w.
Proof. by destruct g. Qed.

(** The first steps of nfs_enable_share and nfs_disable_share when
    [mkstemp] makes the file under the first name that it tries and the
    process does not hold the lock: afterwards the temporary file holds
    the lines that are kept of the artifact as the acquire has left it,
    the lock is held, and no other file has changed but the lock file and
    the file that the lock routine makes anew. *)
Lemma share_prologue (g : guard) (sfx : string) (more : list string)
    (mountpoint : string) (w : world) :
  String.length sfx = 6 →
  files w !! tmpfile_name sfx = None →
  lock_fd g w = (-1)%Z →
  ∃ w1 w2 w3,
    nfs_init_tmpfile (sfx :: more) w = Done (Some (tmpfile_name sfx)) w1
    ∧ nfs_exports_lock g w1 = Done 0%Z w2
    ∧ nfs_copy_entries (tmpfile_name sfx) mountpoint w2 = Done SA_OK w3
    ∧ files w3 !! tmpfile_name sfx =
        Some (cat (filter (λ l, path_field l ≠ Some mountpoint)
                     (acquired_lines g w)))
    ∧ files w3 !! ZFS_EXPORTS_FILE = acquired_artifact g w
    ∧ (∀ p, p ≠ tmpfile_name sfx → p ≠ ZFS_EXPORTS_LOCK →
            guard_file g ≠ Some p → files w3 !! p = files w !! p)
    ∧ (0 ≤ lock_fd g w3)%Z.
Proof.
  intros Hlen Hfresh Hfd.
  pose proof (tmpfile_name_not_lock sfx Hlen) as Hnl.
  pose proof (tmpfile_name_not_artifact sfx) as Hna.
  destruct (nfs_init_tmpfile_done sfx more w Hfresh)
    as (w1 & E1 & Hf1 & Hl1 & Hx1).
  fold (tmpfile_name sfx) in E1, Hf1.
  assert (lock_fd g w1 = (-1)%Z) as Hfd1
    by (by rewrite (lock_fd_same g w w1)).
  destruct (nfs_exports_lock_done g w1 Hfd1)
    as (w2 & E2 & Hart2 & Hnew2 & Hother2 & Hl2).
  assert (acquired_artifact g w1 = acquired_artifact g w) as Hacq.
  { apply acquired_artifact_same. rewrite Hf1. by apply lookup_insert_ne. }
  rewrite Hacq in Hart2.
  exists w1, w2.
  assert (files w2 !! tmpfile_name sfx = Some EmptyString) as Htmp2.
  { destruct (decide (guard_file g = Some (tmpfile_name sfx))) as [Hg|Hg].
    - by apply Hnew2.
    - rewrite Hother2, Hf1 by done. apply lookup_insert_eq. }
  assert (∀ p, p ≠ tmpfile_name sfx → p ≠ ZFS_EXPORTS_LOCK →
               guard_file g ≠ Some p → files w2 !! p = files w !! p)
    as Hframe2.
  { intros p Hp1 Hp2 Hp3. rewrite Hother2, Hf1 by done.
    by apply lookup_insert_ne. }
  unfold acquired_lines.
  destruct (acquired_artifact g w) as [old|] eqn:Eold.
  - eexists. split; [done |]. split; [done |].
    split; [by apply (nfs_copy_entries_present w2 _ _ old) |]. simpl.
    rewrite lookup_insert_eq. split; [done |].
    split; [by rewrite lookup_insert_ne |].
    split; [|by rewrite lock_fd_with_files].
    intros p Hp1 Hp2 Hp3. rewrite lookup_insert_ne by done. auto.
  - exists w2. split; [done |]. split; [done |].
    split; [by apply nfs_copy_entries_absent |]. done.
Qed.

Lemma nfs_unlink_done (path content : string) (w : world) :
  files w !! path = Some content →
  sys_unlink path w = Done 0%Z (with_files (delete path) w).
Proof. intros H. unfold sys_unlink. by rewrite H. Qed.

(** nfs_enable_share with options that translate, when [mkstemp] makes
    the file under the first name. *)
Lemma nfs_enable_share_ok_first (g : guard) (sfx : string) (more : list string)
    (impl_share : sa_share_impl) (linux_opts : option string) (w : world) :
  String.length sfx = 6 →
  files w !! tmpfile_name sfx = None →
  lock_fd g w = (-1)%Z →
  get_linux_shareopts (shareopts impl_share) = (SA_OK, linux_opts) →
  ∃ w', nfs_enable_share g (sfx :: more) impl_share w = Done SA_OK w'
        ∧ files w' !! ZFS_EXPORTS_FILE =
            Some (cat (filter (λ l, path_field l ≠
                                      Some (sa_mountpoint impl_share))
                         (acquired_lines g w) ++
                       rendered_lines sfx impl_share))
        ∧ files w' !! tmpfile_name sfx = None
        ∧ (∀ p, p ≠ ZFS_EXPORTS_FILE → p ≠ ZFS_EXPORTS_LOCK →
                guard_file g ≠ Some p → files w' !! p = files w !! p)
        ∧ lock_fd g w' = (-1)%Z.
Proof.
  intros Hlen Hfresh Hfd Hopts.
  pose proof (tmpfile_name_not_lock sfx Hlen) as Hnl.
  pose proof (tmpfile_name_not_artifact sfx) as Hna.
  destruct (share_prologue g sfx more (sa_mountpoint impl_share) w Hlen
              Hfresh Hfd)
    as (w1 & w2 & w3 & E1 & E2 & E3 & Htmp & _ & Hother & Hl3).
  unfold nfs_enable_share.
  step (apply E1). step (apply VERIFY0_done, E2). step (apply E3).
  step reflexivity. rewrite Hopts. cbn beta iota.
  rewrite bool_decide_eq_false_2 by (intros H; by apply H).
  set (es := expand_groups (tmpfile_name sfx) (sa_mountpoint impl_share)
               default_security (shareopt_tokens (shareopts impl_share))).
  assert (Forall (λ e, he_filename e = tmpfile_name sfx) es) as Hes.
  { eapply Forall_impl; [apply expand_groups_file |]. by intros e [? _]. }
  destruct (call_entries_nfs_add_entry _ linux_opts es w3 _ Hes Htmp)
    as (w4 & E4 & Htmp4 & Hother4 & Hfd4 & Hfd4').
  step (apply lift_done; rewrite foreach_nfs_host_calls; apply E4).
  rewrite bool_decide_eq_true_2 by done.
  step (by eapply nfs_fini_tmpfile_done).
  set (w5 := with_files _ w4).
  destruct (nfs_exports_unlock_done g w5) as (w6 & E6 & Hf6 & Hl6).
  { unfold w5. by rewrite lock_fd_with_files, (lock_fd_same g w3 w4). }
  step (apply VERIFY0_done, E6).
  exists w6. split; [done |]. rewrite Hf6. unfold w5. simpl.
  rewrite lookup_insert_eq, lookup_insert_ne, lookup_delete_eq by done.
  unfold rendered_lines. rewrite expand_hosts_groups, Hopts. simpl.
  split; [by rewrite cat_app |]. split; [done |]. split; [|done].
  intros p Hp1 Hp2 Hp3. rewrite lookup_insert_ne by done.
  destruct (decide (p = tmpfile_name sfx)) as [->|Hp4].
  - by rewrite lookup_delete_eq.
  - rewrite lookup_delete_ne, Hother4 by done. by apply Hother.
Qed.

(** nfs_enable_share with options that do not translate, when [mkstemp]
    makes the file under the first name. *)
Lemma nfs_enable_share_error_first (g : guard) (sfx : string) (more : list string)
    (impl_share : sa_share_impl) (error : sa_rc) (w : world) :
  String.length sfx = 6 →
  files w !! tmpfile_name sfx = None →
  lock_fd g w = (-1)%Z →
  error ≠ SA_OK →
  get_linux_shareopts (shareopts impl_share) = (error, None) →
  ∃ w', nfs_enable_share g (sfx :: more) impl_share w = Done error w'
        ∧ files w' !! ZFS_EXPORTS_FILE = acquired_artifact g w
        ∧ (∀ p, p ≠ ZFS_EXPORTS_FILE → p ≠ ZFS_EXPORTS_LOCK →
                guard_file g ≠ Some p → files w' !! p = files w !! p)
        ∧ lock_fd g w' = (-1)%Z.
Proof.
  intros Hlen Hfresh Hfd Herr Hopts.
  pose proof (tmpfile_name_not_lock sfx Hlen) as Hnl.
  pose proof (tmpfile_name_not_artifact sfx) as Hna.
  destruct (share_prologue g sfx more (sa_mountpoint impl_share) w Hlen
              Hfresh Hfd)
    as (w1 & w2 & w3 & E1 & E2 & E3 & Htmp & Hart & Hother & Hl3).
  unfold nfs_enable_share.
  step (apply E1). step (apply VERIFY0_done, E2). step (apply E3).
  step reflexivity. rewrite Hopts. cbn beta iota.
  rewrite bool_decide_eq_true_2 by done.
  step (by eapply nfs_unlink_done).
  set (w4 := with_files _ w3).
  destruct (nfs_exports_unlock_done g w4) as (w5 & E5 & Hf5 & Hl5).
  { unfold w4. by rewrite lock_fd_with_files. }
  step (apply VERIFY0_done, E5).
  exists w5. split; [done |]. rewrite Hf5. unfold w4. simpl.
  split; [by rewrite lookup_delete_ne |]. split; [|done].
  intros p Hp1 Hp2 Hp3. destruct (decide (p = tmpfile_name sfx)) as [->|Hp4].
  - by rewrite lookup_delete_eq.
  - rewrite lookup_delete_ne by done. by apply Hother.
Qed.

(** nfs_disable_share when [mkstemp] makes the file under the first
    name. *)
Lemma nfs_disable_share_done_first (g : guard) (sfx : string) (more : list string)
    (impl_share : sa_share_impl) (w : world) :
  String.length sfx = 6 →
  files w !! tmpfile_name sfx = None →
  lock_fd g w = (-1)%Z →
  ∃ w', nfs_disable_share g (sfx :: more) impl_share w = Done SA_OK w'
        ∧ files w' !! ZFS_EXPORTS_FILE =
            Some (cat (filter (λ l, path_field l ≠
                                      Some (sa_mountpoint impl_share))
                         (acquired_lines g w)))
        ∧ (∀ p, p ≠ ZFS_EXPORTS_FILE → p ≠ ZFS_EXPORTS_LOCK →
                guard_file g ≠ Some p → files w' !! p = files w !! p)
        ∧ lock_fd g w' = (-1)%Z.
Proof.
  intros Hlen Hfresh Hfd.
  pose proof (tmpfile_name_not_artifact sfx) as Hna.
  destruct (share_prologue g sfx more (sa_mountpoint impl_share) w Hlen
              Hfresh Hfd)
    as (w1 & w2 & w3 & E1 & E2 & E3 & Htmp & _ & Hother & Hl3).
  unfold nfs_disable_share.
  step (apply E1). step (apply VERIFY0_done, E2). step (apply E3).
  step reflexivity.
  step (by eapply nfs_fini_tmpfile_done).
  set (w4 := with_files _ w3).
  destruct (nfs_exports_unlock_done g w4) as (w5 & E5 & Hf5 & Hl5).
  { unfold w4. by rewrite lock_fd_with_files. }
  step (apply VERIFY0_done, E5).
  exists w5. split; [done |]. rewrite Hf5. unfold w4. simpl.
  rewrite lookup_insert_eq. split; [done |]. split; [|done].
  intros p Hp1 Hp2 Hp3. rewrite lookup_insert_ne by done.
  destruct (decide (p = tmpfile_name sfx)) as [->|Hp4].
  - by rewrite lookup_delete_eq.
  - rewrite lookup_delete_ne by done. by apply Hother.
Qed.

(** The same for every run of [mkstemp] that makes the file: the names
    that are taken are skipped. *)
Lemma nfs_enable_share_ok (g : guard) (tries : list string) (sfx : string)
    (impl_share : sa_share_impl) (linux_opts : option string) (w : world) :
  mkstemp_makes tries sfx w →
  lock_fd g w = (-1)%Z →
  get_linux_shareopts (shareopts impl_share) = (SA_OK, linux_opts) →
  ∃ w', nfs_enable_share g tries impl_share w = Done SA_OK w'
        ∧ files w' !! ZFS_EXPORTS_FILE =
            Some (cat (filter (λ l, path_field l ≠
                                      Some (sa_mountpoint impl_share))
                         (acquired_lines g w) ++
                       rendered_lines sfx impl_share))
        ∧ files w' !! tmpfile_name sfx = None
        ∧ (∀ p, p ≠ ZFS_EXPORTS_FILE → p ≠ ZFS_EXPORTS_LOCK →
                guard_file g ≠ Some p → files w' !! p = files w !! p)
        ∧ lock_fd g w' = (-1)%Z.
Proof.
  intros Hmk Hfd Hopts.
  pose proof (mkstemp_makes_length _ _ _ Hmk) as Hlen.
  pose proof (mkstemp_makes_fresh _ _ _ Hmk) as Hfresh.
  destruct (mkstemp_makes_taken _ _ _ Hmk) as (taken & more & -> & Htaken).
  rewrite nfs_enable_share_skip by done.
  by apply (nfs_enable_share_ok_first g sfx more impl_share linux_opts).
Qed.

Lemma nfs_enable_share_error (g : guard) (tries : list string) (sfx : string)
    (impl_share : sa_share_impl) (error : sa_rc) (w : world) :
  mkstemp_makes tries sfx w →
  lock_fd g w = (-1)%Z →
  error ≠ SA_OK →
  get_linux_shareopts (shareopts impl_share) = (error, None) →
  ∃ w', nfs_enable_share g tries impl_share w = Done error w'
        ∧ files w' !! ZFS_EXPORTS_FILE = acquired_artifact g w
        ∧ (∀ p, p ≠ ZFS_EXPORTS_FILE → p ≠ ZFS_EXPORTS_LOCK →
                guard_file g ≠ Some p → files w' !! p = files w !! p)
        ∧ lock_fd g w' = (-1)%Z.
Proof.
  intros Hmk Hfd Herr Hopts.
  pose proof (mkstemp_makes_length _ _ _ Hmk) as Hlen.
  pose proof (mkstemp_makes_fresh _ _ _ Hmk) as Hfresh.
  destruct (mkstemp_makes_taken _ _ _ Hmk) as (taken & more & -> & Htaken).
  rewrite nfs_enable_share_skip by done.
  by apply nfs_enable_share_error_first.
Qed.

(** nfs_disable_share leaves the lines whose path field is not the mount
    point, in order, and no other file changed but the lock file and the
    file that the lock routine makes anew. *)
Lemma nfs_disable_share_done (g : guard) (tries : list string) (sfx : string)
    (impl_share : sa_share_impl) (w : world) :
  mkstemp_makes tries sfx w →
  lock_fd g w = (-1)%Z →
  ∃ w', nfs_disable_share g tries impl_share w = Done SA_OK w'
        ∧ files w' !! ZFS_EXPORTS_FILE =
            Some (cat (filter (λ l, path_field l ≠
                                      Some (sa_mountpoint impl_share))
                         (acquired_lines g w)))
        ∧ (∀ p, p ≠ ZFS_EXPORTS_FILE → p ≠ ZFS_EXPORTS_LOCK →
                guard_file g ≠ Some p → files w' !! p = files w !! p)
        ∧ lock_fd g w' = (-1)%Z.
Proof.
  intros Hmk Hfd.
  pose proof (mkstemp_makes_length _ _ _ Hmk) as Hlen.
  pose proof (mkstemp_makes_fresh _ _ _ Hmk) as Hfresh.
  destruct (mkstemp_makes_taken _ _ _ Hmk) as (taken & more & -> & Htaken).
  rewrite nfs_disable_share_skip by done.
  by apply nfs_disable_share_done_first.
Qed.


(** * Unknown keys *)

Lemma linux_shareopt_known_allow_list (key : string) :
  linux_shareopt_known key = true ↔ key ∈ allow_list.
Proof.
  unfold linux_shareopt_known, allow_list.
  rewrite negb_true_iff, !andb_false_iff, !negb_false_iff, !String.eqb_eq.
  rewrite !elem_of_cons, elem_of_nil. tauto.
Qed.

Lemma host_keys_eqb (key : string) :
  String.eqb key "ro" || String.eqb key "rw" || String.eqb key "sec" = true
  ↔ key ∈ host_keys.
Proof.
  unfold host_keys.
  rewrite !orb_true_iff, !String.eqb_eq, !elem_of_cons, elem_of_nil. tauto.
Qed.

(** get_linux_shareopts_cb fails, with a syntax error, exactly on the keys
    that are not known. *)
Lemma get_linux_shareopts_cb_code (key : string) (value : option string)
    (plinux_opts : option string) :
  fst (get_linux_shareopts_cb key value plinux_opts) =
    if decide (unrecognized key) then SA_SYNTAX_ERR else SA_OK.
Proof.
  unfold get_linux_shareopts_cb, unrecognized.
  destruct (String.eqb key "ro" || String.eqb key "rw" || String.eqb key "sec")
    eqn:Hhost.
  { apply host_keys_eqb in Hhost. simpl. case_decide; tauto. }
  assert (key ∉ host_keys) as Hnh.
  { intros H%host_keys_eqb. congruence. }
  assert (∀ k, k ∈ allow_list → rewritten_key key = k →
            SA_OK = if decide ((key ∉ host_keys) ∧
                               (rewritten_key key ∉ allow_list))
                    then SA_SYNTAX_ERR else SA_OK) as Hrew.
  { intros k Hin <-. rewrite decide_False; [done | tauto]. }
  destruct (String.eqb_spec key "anon") as [->|Hanon].
  { apply (Hrew "anonuid"); [|done].
    by apply linux_shareopt_known_allow_list. }
  destruct (String.eqb_spec key "root_mapping") as [->|Hroot].
  { apply (Hrew "anonuid"); [|done].
    by apply linux_shareopt_known_allow_list. }
  destruct (String.eqb_spec key "nosub") as [->|Hnosub].
  { apply (Hrew "subtree_check"); [|done].
    by apply linux_shareopt_known_allow_list. }
  clear Hrew. assert (rewritten_key key = key) as ->.
  { unfold rewritten_key.
    apply String.eqb_neq in Hanon as ->. apply String.eqb_neq in Hroot as ->.
    by apply String.eqb_neq in Hnosub as ->. }
  destruct (linux_shareopt_known key) eqn:Hknown; simpl.
  - apply linux_shareopt_known_allow_list in Hknown. case_decide; tauto.
  - rewrite decide_True; [done |]. split; [done |].
    intros H%linux_shareopt_known_allow_list. congruence.
Qed.

Lemma visit_unrecognized (toks : list (string * option string))
    (plinux_opts : option string) :
  Exists (λ tok, unrecognized (fst tok)) toks →
  fst (visit get_linux_shareopts_cb toks plinux_opts) = SA_SYNTAX_ERR.
Proof.
  revert plinux_opts.
  induction toks as [|[key value] toks IH]; intros plinux_opts Hex.
  - by apply Exists_nil in Hex.
  - simpl.
    pose proof (get_linux_shareopts_cb_code key value plinux_opts) as Hcode.
    destruct (get_linux_shareopts_cb key value plinux_opts) as [rc o].
    simpl in Hcode. subst rc. case_decide as Hun; [done |].
    apply Exists_cons in Hex as [Hex|Hex]; [done |]. by apply IH.
Qed.

Lemma visit_recognized (toks : list (string * option string))
    (plinux_opts : option string) :
  Forall (λ tok, ¬ unrecognized (fst tok)) toks →
  fst (visit get_linux_shareopts_cb toks plinux_opts) = SA_OK.
Proof.
  revert plinux_opts.
  induction toks as [|[key value] toks IH]; intros plinux_opts Hall; [done |].
  simpl. apply Forall_cons in Hall as [Hkey Hall].
  pose proof (get_linux_shareopts_cb_code key value plinux_opts) as Hcode.
  destruct (get_linux_shareopts_cb key value plinux_opts) as [rc o].
  simpl in Hcode. subst rc. rewrite decide_False by done. by apply IH.
Qed.

(** The translation fails with a syntax error, and keeps nothing, when
    the option string has a key that is not known; it succeeds
    otherwise. *)
Lemma get_linux_shareopts_unrecognized (opts : option string) :
  has_unrecognized_key opts →
  get_linux_shareopts opts = (SA_SYNTAX_ERR, None).
Proof.
  intros Hex. unfold get_linux_shareopts.
  rewrite foreach_nfs_shareopt_visit.
  pose proof (visit_unrecognized _
    (snd (add_linux_shareopt
            (snd (add_linux_shareopt None "no_subtree_check" None))
            "mountpoint" None)) Hex) as H.
  destruct (visit _ _ _) as [rc o]. simpl in H. by subst rc.
Qed.

Lemma get_linux_shareopts_recognized (opts : option string) :
  ¬ has_unrecognized_key opts →
  fst (get_linux_shareopts opts) = SA_OK.
Proof.
  intros Hno. unfold get_linux_shareopts.
  rewrite foreach_nfs_shareopt_visit.
  pose proof (visit_recognized (shareopt_tokens opts)
    (snd (add_linux_shareopt
            (snd (add_linux_shareopt None "no_subtree_check" None))
            "mountpoint" None))) as H.
  destruct (visit _ _ _) as [rc o]. simpl in H. rewrite H; [done |].
  by apply not_Exists_Forall; [intros tok; apply _ |].
Qed.




(** * Enabling a share *)

Lemma filter_Forall_all {A} (P : A → Prop) `{!∀ x, Decision (P x)}
    (l : list A) :
  Forall P l → filter P l = l.
Proof.
  induction 1 as [|x l Hx _ IH]; [done |].
  by rewrite filter_cons, decide_True, IH.
Qed.



(** The lines that nfs_add_entry prints for a share have its mount point
    as path field when the mount point has no space. *)
Lemma rendered_lines_path_field (sfx : string) (impl_share : sa_share_impl) :
  has_char space (sa_mountpoint impl_share) = false →
  Forall (λ l, path_field l = Some (sa_mountpoint impl_share))
    (rendered_lines sfx impl_share).
Proof.
  intros Hsp. unfold rendered_lines. rewrite expand_hosts_groups. simpl.
  apply Forall_fmap.
  eapply Forall_impl; [apply expand_groups_file |].
  intros e [_ Hp]. simpl. unfold entry_line, export_line. rewrite Hp.
  by apply path_field_space.
Qed.

(** Lines that are complete and have no NUL are read back as they were
    written. *)
Lemma c_lines_cat_complete (ls : list string) :
  Forall complete_line ls → Forall nul_free ls → c_lines (cat ls) = ls.
Proof.
  intros Hc Hn. rewrite c_lines_nul_free by by apply nul_free_cat.
  rewrite <- (append_nil_r (cat ls)), getlines_cat_complete by done.
  apply app_nil_r.
Qed.

(** The lines of contents that end with a newline and have no NUL. *)
Lemma c_lines_tidy (old : string) :
  newline_terminated old = true → nul_free old →
  Forall complete_line (c_lines old) ∧ Forall nul_free (c_lines old).
Proof.
  intros Hnt Hnul. rewrite c_lines_nul_free by done.
  split; [by apply getlines_newline_terminated | by apply getlines_nul_free].
Qed.

Lemma Forall_filter_keep {A} (P Q : A → Prop) `{!∀ x, Decision (P x)}
    (l : list A) :
  Forall Q l → Forall Q (filter P l).
Proof.
  intros Hall. apply Forall_forall. intros x [_ Hin]%list_elem_of_filter.
  by apply (proj1 (Forall_forall _ _) Hall).
Qed.


(** * Lines printed by an enable are single lines without NUL *)

#[local] Arguments add_linux_shareopt : simpl never.

Section Lacks.
Variable c : ascii.
Hypothesis c_line_end : c = newline ∨ c = nul.

Lemma lacks_append (a b : string) :
  lacks c (a +:+ b) ↔ lacks c a ∧ lacks c b.
Proof. unfold lacks. rewrite has_char_append. apply orb_false_iff. Qed.

Lemma split_on_lacks (sep : ascii) (s : string) :
  lacks c s → Forall (lacks c) (split_on sep s).
Proof.
  unfold lacks. induction s as [|a s IH]; simpl; [by constructor |].
  intros [Ha Hs]%orb_false_iff. specialize (IH Hs).
  destruct (Ascii.eqb a sep); [by constructor |].
  destruct (split_on sep s) as [|t ts]; [by constructor; [simpl; rewrite Ha|] |].
  inversion IH; subst. constructor; [|done]. simpl. by rewrite Ha.
Qed.

Lemma strchr_split_lacks (sep : ascii) (s : string) :
  lacks c s →
  lacks c (fst (strchr_split sep s)) ∧ lacks_opt c (snd (strchr_split sep s)).
Proof.
  unfold lacks. induction s as [|a s IH]; simpl; [done |].
  intros [Ha Hs]%orb_false_iff. specialize (IH Hs).
  destruct (Ascii.eqb a sep); [done |].
  destruct (strchr_split sep s) as [k v]. simpl in *.
  unfold lacks. simpl. by rewrite Ha.
Qed.

Lemma tokens_lacks (s : string) :
  lacks c s →
  Forall (λ tok, lacks c (fst tok) ∧ lacks_opt c (snd tok)) (tokens s).
Proof.
  intros Hs. unfold tokens, pieces_tokens. apply Forall_fmap.
  apply Forall_forall. intros tok [_ Hin]%list_elem_of_filter.
  apply strchr_split_lacks.
  by apply (proj1 (Forall_forall _ _) (split_on_lacks comma s Hs)).
Qed.

Lemma shareopt_tokens_lacks (opts : option string) :
  lacks_opt c opts →
  Forall (λ tok, lacks c (fst tok) ∧ lacks_opt c (snd tok))
    (shareopt_tokens opts).
Proof.
  destruct opts as [s|]; [|by constructor]. simpl. intros Hs.
  apply tokens_lacks. unfold expand_shorthand.
  destruct (String.eqb s "on"); [|done].
  by destruct c_line_end as [-> | ->].
Qed.

Lemma expand_groups_lacks (file path : string) (sec : option string)
    (toks : list (string * option string)) :
  lacks c path → lacks_opt c sec →
  Forall (λ tok, lacks c (fst tok) ∧ lacks_opt c (snd tok)) toks →
  Forall (λ e, lacks c (he_path e) ∧ lacks c (he_host e)
               ∧ lacks_opt c (he_security e) ∧ lacks c (he_access e))
    (expand_groups file path sec toks).
Proof.
  intros Hpath Hsec Htoks. revert sec Hsec.
  induction Htoks as [|[key value] toks [Hk Hv] _ IH]; intros sec Hsec;
    simpl; [done |].
  assert (lacks_opt c (security_after_token sec (key, value))) as Hsec'.
  { unfold security_after_token. simpl. by destruct (String.eqb key "sec"). }
  apply Forall_app. split; [|by apply IH].
  destruct (_ || _); [|done].
  unfold group_entries. apply Forall_fmap, Forall_forall.
  intros host Hhost. simpl. repeat split; try done.
  assert (lacks c (default "*" value)) as Hval.
  { destruct value; [done |]. by destruct c_line_end as [-> | ->]. }
  by apply (proj1 (Forall_forall _ _) (split_on_lacks colon _ Hval)).
Qed.

Lemma add_linux_shareopt_lacks (plinux_opts : option string)
    (key : string) (value : option string) :
  lacks_opt c plinux_opts → lacks c key → lacks_opt c value →
  lacks_opt c (snd (add_linux_shareopt plinux_opts key value)).
Proof.
  intros Ho Hk Hv. rewrite add_linux_shareopt_spec. simpl.
  rewrite !lacks_append. repeat split; try done.
  - destruct plinux_opts as [[|a old]|]; try done.
    apply (proj2 (lacks_append (String a old) ",")). split; [done |].
    by destruct c_line_end as [-> | ->].
  - destruct value as [v|]; [|done].
    apply (proj2 (lacks_append "=" v)). split; [|done].
    by destruct c_line_end as [-> | ->].
Qed.

Lemma get_linux_shareopts_cb_lacks (key : string) (value : option string)
    (plinux_opts : option string) :
  lacks_opt c plinux_opts → lacks c key → lacks_opt c value →
  lacks_opt c (snd (get_linux_shareopts_cb key value plinux_opts)).
Proof.
  intros Ho Hk Hv. unfold get_linux_shareopts_cb.
  destruct (_ || _); [done |].
  set (key1 := if String.eqb key "anon" then "anonuid" else key).
  assert (lacks c key1) as Hk1.
  { subst key1. destruct (String.eqb _ _); [|done].
    by destruct c_line_end as [-> | ->]. }
  clearbody key1.
  destruct (String.eqb key1 "root_mapping").
  - cbn. repeat apply add_linux_shareopt_lacks; try done;
      by destruct c_line_end as [-> | ->].
  - set (key2 := if String.eqb key1 "nosub" then "subtree_check" else key1).
    assert (lacks c key2) as Hk2.
    { subst key2. destruct (String.eqb _ _); [|done].
      by destruct c_line_end as [-> | ->]. }
    clearbody key2.
    destruct (negb (linux_shareopt_known key2)); cbn; [done |].
    by apply add_linux_shareopt_lacks.
Qed.

Lemma visit_lacks (toks : list (string * option string))
    (plinux_opts : option string) :
  lacks_opt c plinux_opts →
  Forall (λ tok, lacks c (fst tok) ∧ lacks_opt c (snd tok)) toks →
  lacks_opt c (snd (visit get_linux_shareopts_cb toks plinux_opts)).
Proof.
  intros Ho Htoks. revert plinux_opts Ho.
  induction Htoks as [|[key value] toks [Hk Hv] _ IH]; intros plinux_opts Ho;
    simpl; [done |].
  pose proof (get_linux_shareopts_cb_lacks key value plinux_opts Ho Hk Hv)
    as Hcb.
  destruct (get_linux_shareopts_cb key value plinux_opts) as [[] o];
    simpl in *; try done.
  by apply IH.
Qed.

Lemma get_linux_shareopts_lacks (opts : option string) :
  lacks_opt c opts → lacks_opt c (snd (get_linux_shareopts opts)).
Proof.
  intros Hopts. unfold get_linux_shareopts.
  rewrite foreach_nfs_shareopt_visit.
  pose proof (visit_lacks (shareopt_tokens opts)
    (snd (add_linux_shareopt
            (snd (add_linux_shareopt None "no_subtree_check" None))
            "mountpoint" None))) as H.
  destruct (visit _ _ _) as [[] o]; simpl in *; try done.
  apply H; [|by apply shareopt_tokens_lacks].
  by destruct c_line_end as [-> | ->].
Qed.

Lemma get_linux_hostspec_lacks (host : string) :
  lacks c host →
  lacks c (default EmptyString (snd (get_linux_hostspec host))).
Proof.
  unfold get_linux_hostspec. destruct host as [|a host]; [done |].
  destruct (Ascii.eqb_spec a "@") as [->|Hne].
  - unfold lacks. simpl. by intros [_ H]%orb_false_iff.
  - by destruct a as [[] [] [] [] [] [] [] []].
Qed.

(** The line of an entry is a text without [c] followed by a newline. *)
Lemma export_line_lacks (sharepath linuxhost : string)
    (sec : option string) (access_opts linux_opts : string) :
  lacks c sharepath → lacks c linuxhost → lacks_opt c sec →
  lacks c access_opts → lacks c linux_opts →
  ∃ body,
    export_line sharepath linuxhost sec access_opts linux_opts =
      body +:+ String newline EmptyString
    ∧ lacks c body.
Proof.
  intros Hp Hh Hs Ha Ho. unfold export_line.
  exists (sharepath +:+ " " +:+ linuxhost +:+ "(sec=" +:+ printf_s sec +:+ ","
          +:+ access_opts +:+ "," +:+ linux_opts +:+ ")").
  split; [by rewrite !append_assoc |].
  assert (lacks c (printf_s sec)) as Hs'.
  { destruct sec; [done |]. by destruct c_line_end as [-> | ->]. }
  rewrite !lacks_append.
  repeat split; try done; by destruct c_line_end as [-> | ->].
Qed.

Lemma rendered_lines_lacks (sfx : string) (impl_share : sa_share_impl) :
  lacks c (sa_mountpoint impl_share) →
  lacks_opt c (shareopts impl_share) →
  Forall (λ l, ∃ body, l = body +:+ String newline EmptyString
                       ∧ lacks c body)
    (rendered_lines sfx impl_share).
Proof.
  intros Hmp Hopts. unfold rendered_lines. rewrite expand_hosts_groups. simpl.
  apply Forall_fmap.
  eapply Forall_impl;
    [apply (expand_groups_lacks _ _ default_security); try done;
     [by destruct c_line_end as [-> | ->] | by apply shareopt_tokens_lacks] |].
  intros e (Hp & Hh & Hs & Ha). simpl. unfold entry_line.
  apply export_line_lacks; try done.
  - by apply get_linux_hostspec_lacks.
  - pose proof (get_linux_shareopts_lacks _ Hopts) as Ho.
    destruct (snd (get_linux_shareopts (shareopts impl_share))); [done |].
    by destruct c_line_end as [-> | ->].
Qed.
End Lacks.

(** Every line that an enable prints is one complete line when neither
    the mount point nor the option string has a newline. *)
Lemma rendered_lines_complete (sfx : string) (impl_share : sa_share_impl) :
  one_line (sa_mountpoint impl_share) →
  one_line_opt (shareopts impl_share) →
  Forall complete_line (rendered_lines sfx impl_share).
Proof. apply rendered_lines_lacks. by left. Qed.

(** It has no NUL when neither the mount point nor the option string
    has. *)
Lemma rendered_lines_nul_free (sfx : string) (impl_share : sa_share_impl) :
  nul_free (sa_mountpoint impl_share) →
  nul_free_opt (shareopts impl_share) →
  Forall nul_free (rendered_lines sfx impl_share).
Proof.
  intros Hmp Hopts.
  eapply Forall_impl;
    [apply (rendered_lines_lacks nul (or_intror eq_refl) sfx impl_share);
     done |].
  intros l (body & -> & Hbody). by apply nul_free_append.
Qed.




(** C5. For the option string [rw=192.168.1.0/24,sec=sys,no_root_squash]
    and the mount point [/data]: the translation gives
    [no_subtree_check,mountpoint,no_root_squash]; the expansion gives the
    one entry with path [/data], host [192.168.1.0/24], security [sys]
    and access [rw]; and an enable appends exactly the line
    [/data 192.168.1.0/24(sec=sys,rw,no_subtree_check,mountpoint,no_root_squash)]
    behind the lines of other mount points, so that it is the whole
    artifact when there was none (the enable takes the [flock] lock,
    which its process does not hold already). *)
Theorem C5_example_share :
  let opts := "rw=192.168.1.0/24,sec=sys,no_root_squash" in
  let share := {| sa_mountpoint := "/data"; shareopts := Some opts |} in
  let line :=
    "/data 192.168.1.0/24(sec=sys,rw,no_subtree_check,mountpoint,no_root_squash)"
    +:+ String newline EmptyString in
  get_linux_shareopts (Some opts) =
    (SA_OK, Some "no_subtree_check,mountpoint,no_root_squash")
  ∧ (∀ file,
       expand_hosts share file =
         (SA_OK,
          [ {| he_filename := file; he_path := "/data";
               he_host := "192.168.1.0/24"; he_security := Some "sys";
               he_access := "rw" |} ]))
  ∧ (∀ sfx, rendered_lines sfx share = [line])
  ∧ (∀ tries sfx w,
       mkstemp_makes tries sfx w →
       nfs_lock_fd w = (-1)%Z →
       ∃ w', nfs_enable_share flock_guard tries share w = Done SA_OK w'
             ∧ files w' !! ZFS_EXPORTS_FILE =
                 Some (cat (filter (λ l, path_field l ≠ Some "/data")
                              (artifact_lines w)) +:+ line))
  ∧ (∃ w', nfs_enable_share flock_guard ["a1B2c3"] share (world_of []) =
             Done SA_OK w'
           ∧ files w' !! ZFS_EXPORTS_FILE = Some line).
Proof.
  intros opts share line.
  assert (∀ sfx, rendered_lines sfx share = [line]) as Hlines
    by (intros sfx; reflexivity).
  assert (∀ tries sfx w,
            mkstemp_makes tries sfx w →
            nfs_lock_fd w = (-1)%Z →
            ∃ w', nfs_enable_share flock_guard tries share w =
                    Done SA_OK w'
                  ∧ files w' !! ZFS_EXPORTS_FILE =
                      Some (cat (filter (λ l, path_field l ≠ Some "/data")
                                   (artifact_lines w)) +:+ line)) as Henable.
  { intros tries sfx w Hmk Hfd.
    destruct (nfs_enable_share_ok flock_guard tries sfx share _ w Hmk
                Hfd eq_refl) as (w' & E & Hart & _).
    exists w'. split; [done |].
    rewrite Hart, Hlines, cat_app. reflexivity. }
  split; [reflexivity |]. split; [intros file; reflexivity |].
  split; [done |]. split; [done |].
  destruct (Henable ["a1B2c3"] "a1B2c3" (world_of []) ltac:(by apply mkstemp_makes_first) eq_refl)
    as (w' & E & Hart).
  exists w'. split; [done |]. by rewrite Hart.
Qed.

(** * Instances of the theorems *)

(** C8 on an option string with an empty token and a trailing comma. *)
Lemma C8_tokenizer_witness :
  foreach_nfs_shareopt (Some "rw=a:b,,sync,") get_linux_shareopts_cb None =
    visit get_linux_shareopts_cb [("rw", Some "a:b"); ("sync", None)] None
  ∧ expand_shorthand "off" = "off".
Proof.
  destruct (C8_tokenizer_visits_tokens (option string) get_linux_shareopts_cb
              None) as (_ & Hvisit & _ & Hother & _).
  split.
  - exact (Hvisit "rw=a:b,,sync,").
  - apply Hother. discriminate.
Defined.

(** C4 on two groups without a [sec] token. *)
Lemma C4_sec_witness :
  running_security (Some "sys") [("rw", Some "a"); ("ro", None)] = Some "sys"
  ∧ Forall (λ e, he_security e = Some "sys")
      (expand_groups "zfs.exports.a1B2c3" "/data" (Some "sys")
         [("rw", Some "a"); ("ro", None)]).
Proof.
  destruct (C4_sec_applies_to_later_groups "/data" "zfs.exports.a1B2c3")
    as (_ & _ & Hbefore & _).
  apply Hbefore. repeat constructor; discriminate.
Defined.

(** C5 on a state whose artifact has a line of another mount point. *)
Lemma C5_example_witness :
  ∃ w', nfs_enable_share flock_guard ["a1B2c3"]
          {| sa_mountpoint := "/data";
             shareopts := Some "rw=192.168.1.0/24,sec=sys,no_root_squash" |}
          (world_of [(ZFS_EXPORTS_FILE, "/home *(sec=sys,ro,mountpoint)" +:+
                                        String newline EmptyString)]) =
          Done SA_OK w'
        ∧ files w' !! ZFS_EXPORTS_FILE =
            Some ("/home *(sec=sys,ro,mountpoint)" +:+
                  String newline
                    "/data 192.168.1.0/24(sec=sys,rw,no_subtree_check,mountpoint,no_root_squash)"
                  +:+ String newline EmptyString).
Proof.
  destruct C5_example_share as (_ & _ & _ & Henable & _).
  destruct (Henable ["a1B2c3"] "a1B2c3"
              (world_of [(ZFS_EXPORTS_FILE, "/home *(sec=sys,ro,mountpoint)" +:+
                                            String newline EmptyString)])
              ltac:(by apply mkstemp_makes_first) eq_refl) as (w' & E & Hart).
  exists w'. split; [exact E |]. rewrite Hart. vm_compute. reflexivity.
Defined.

(** C7 on an artifact with the mount point [/data], two paths that
    share a prefix with it and a line with a NUL, and on a state without
    artifact. *)
Lemma C7_match_witness :
  let old := "/data a(sec=sys,rw,mountpoint)" +:+
             String newline "/data2 b(sec=sys,rw,mountpoint)" +:+
             String newline "/dat c(sec=sys,rw,mountpoint)" +:+
             String newline ("x" +:+ String nul "y") +:+
             String newline EmptyString in
  let w := world_of [(ZFS_EXPORTS_FILE, old);
                     (tmpfile_name "a1B2c3", EmptyString)] in
  (∀ buf, line_matches "/data" buf = true ↔ path_field buf = Some "/data")
  ∧ (∃ w', nfs_copy_entries (tmpfile_name "a1B2c3") "/data" w = Done SA_OK w'
           ∧ files w' !! tmpfile_name "a1B2c3" =
               Some ("/data2 b(sec=sys,rw,mountpoint)" +:+
                     String newline "/dat c(sec=sys,rw,mountpoint)" +:+
                     String newline "x"))
  ∧ line_matches "/data" "/data2 b(sec=sys,rw,mountpoint)" = false
  ∧ nfs_copy_entries "/tmp/new" "/data" (world_of [("/tmp/new", "keep")]) =
      Done SA_OK (world_of [("/tmp/new", "keep")])
  ∧ nfs_is_shared {| sa_mountpoint := "/data"; shareopts := None |}
      (world_of []) = false.
Proof.
  intros old w.
  destruct (C7_match_is_whole_path_field "/data")
    as (_ & Hnul & _ & Hother & Hcopy & _ & Hmissing & Habsent).
  split; [apply Hnul; reflexivity |].
  split; [|split; [|split]].
  - destruct (Hcopy w (tmpfile_name "a1B2c3") old eq_refl)
      as (w' & E & Htmp & _); [discriminate |].
    exists w'. split; [exact E |]. rewrite Htmp. vm_compute. reflexivity.
  - apply (Hother "/data2" "b(sec=sys,rw,mountpoint)"); [reflexivity |].
    discriminate.
  - apply Hmissing. reflexivity.
  - apply Habsent. reflexivity.
Defined.

(** C10 on an artifact whose first line has no space. *)
Lemma C10_no_space_witness :
  let old := "#comment" +:+ String newline "/data a(sec=sys,rw,mountpoint)" +:+
             String newline EmptyString in
  let w := world_of [(ZFS_EXPORTS_FILE, old)] in
  line_matches "#comment" ("#comment" +:+ String newline EmptyString) = false
  ∧ ∃ w' new,
      nfs_copy_entries (tmpfile_name "a1B2c3") "/data" w = Done SA_OK w'
      ∧ files w' !! tmpfile_name "a1B2c3" = Some new
      ∧ filter (λ l, has_char space l = false) (getlines new) =
          ["#comment" +:+ String newline EmptyString].
Proof.
  intros old w.
  destruct (C10_lines_without_space_are_kept "#comment") as (Hline & _).
  destruct (C10_lines_without_space_are_kept "/data") as (_ & _ & Hcopy & _).
  split.
  - apply Hline. reflexivity.
  - destruct (Hcopy w (tmpfile_name "a1B2c3") old eq_refl)
      as (w' & new & E & Htmp & Hkept); [discriminate | reflexivity |].
    exists w', new. split; [exact E |]. split; [exact Htmp |].
    rewrite Hkept. vm_compute. reflexivity.
Defined.

(** * Validation and enabling *)

(** X1. nfs_validate_shareopts returns success exactly for the option
    strings all of whose keys are known, and the syntax error for all
    others; it returns no other code. *)
Theorem validate_decides_known_keys :
  ∀ (opts : option string),
    nfs_validate_shareopts opts =
      if decide (has_unrecognized_key opts) then SA_SYNTAX_ERR else SA_OK.
Proof.
  intros opts. unfold nfs_validate_shareopts. case_decide as Hbad.
  - by rewrite get_linux_shareopts_unrecognized.
  - by apply get_linux_shareopts_recognized.
Qed.

(** X2. Whenever [mkstemp] makes the temporary file of nfs_enable_share,
    and the process does not hold the lock already, it returns the code
    that nfs_validate_shareopts returns for the share's option string,
    with either lock routine. *)
Theorem enable_returns_code_of_validate :
  ∀ (g : guard) (tries : list string) (sfx : string)
    (impl_share : sa_share_impl) (w : world),
    mkstemp_makes tries sfx w →
    lock_fd g w = (-1)%Z →
    ∃ w', nfs_enable_share g tries impl_share w =
            Done (nfs_validate_shareopts (shareopts impl_share)) w'.
Proof.
  intros g tries sfx impl_share w Hmk Hfd.
  unfold nfs_validate_shareopts.
  destruct (get_linux_shareopts_cases (shareopts impl_share))
    as [(linux_opts & Hopts)|(error & Herr & Hopts)]; rewrite Hopts.
  - destruct (nfs_enable_share_ok g tries sfx impl_share linux_opts w Hmk Hfd Hopts) as (w' & E & _).
    by exists w'.
  - destruct (nfs_enable_share_error g tries sfx impl_share error w Hmk
                Hfd Herr Hopts) as (w' & E & _).
    by exists w'.
Qed.

(** An instance on a share with a known and on one with an unknown key. *)
Lemma enable_returns_code_of_validate_witness :
  (∃ w', nfs_enable_share flock_guard ["a1B2c3"]
           {| sa_mountpoint := "/data"; shareopts := Some "ro,sync" |}
           (world_of []) = Done SA_OK w')
  ∧ (∃ w', nfs_enable_share (fcntl_guard ZFS_EXPORTS_FILE) ["a1B2c3"]
             {| sa_mountpoint := "/data"; shareopts := Some "ro,bogus=1" |}
             (world_of []) = Done SA_SYNTAX_ERR w').
Proof.
  split.
  - exact (enable_returns_code_of_validate flock_guard ["a1B2c3"] "a1B2c3"
             {| sa_mountpoint := "/data"; shareopts := Some "ro,sync" |}
             (world_of []) ltac:(by apply mkstemp_makes_first) eq_refl).
  - exact (enable_returns_code_of_validate (fcntl_guard ZFS_EXPORTS_FILE)
             ["a1B2c3"] "a1B2c3"
             {| sa_mountpoint := "/data"; shareopts := Some "ro,bogus=1" |}
             (world_of []) ltac:(by apply mkstemp_makes_first) eq_refl).
Defined.

Lemma enable_code_and_frame (g : guard) (tries : list string) (sfx : string)
    (impl_share : sa_share_impl) (w : world) :
  mkstemp_makes tries sfx w →
  lock_fd g w = (-1)%Z →
  ∃ w', nfs_enable_share g tries impl_share w =
          Done (nfs_validate_shareopts (shareopts impl_share)) w'
        ∧ (∀ p, p ≠ ZFS_EXPORTS_FILE → p ≠ ZFS_EXPORTS_LOCK →
                guard_file g ≠ Some p → files w' !! p = files w !! p).
Proof.
  intros Hmk Hfd. unfold nfs_validate_shareopts.
  destruct (get_linux_shareopts_cases (shareopts impl_share))
    as [(linux_opts & Hopts)|(error & Herr & Hopts)]; rewrite Hopts.
  - destruct (nfs_enable_share_ok g tries sfx impl_share linux_opts w Hmk Hfd
                Hopts) as (w' & E & _ & _ & Hother & _).
    by exists w'.
  - destruct (nfs_enable_share_error g tries sfx impl_share error w Hmk Hfd
                Herr Hopts) as (w' & E & _ & Hother & _).
    by exists w'.
Qed.

(** X3. A file left over under a name that [mkstemp] tries does not make
    nfs_enable_share or nfs_disable_share fail: the names that are taken
    are skipped, the call runs with the first name that is free, the
    enable returns the code of nfs_validate_shareopts and the disable
    success, and the files left over are not touched (no file changes
    but the artifact, the lock file and the file that the lock routine
    makes anew). *)
Theorem taken_tmpfile_names_are_skipped :
  ∀ (g : guard) (taken : list string) (sfx : string) (more : list string)
    (impl_share : sa_share_impl) (w : world),
    Forall (λ sfx, is_Some (files w !! tmpfile_name sfx)) taken →
    String.length sfx = 6 →
    files w !! tmpfile_name sfx = None →
    lock_fd g w = (-1)%Z →
    (∃ w', nfs_enable_share g (taken ++ sfx :: more) impl_share w =
             Done (nfs_validate_shareopts (shareopts impl_share)) w'
           ∧ (∀ p, p ≠ ZFS_EXPORTS_FILE → p ≠ ZFS_EXPORTS_LOCK →
                   guard_file g ≠ Some p → files w' !! p = files w !! p))
    ∧ (∃ w', nfs_disable_share g (taken ++ sfx :: more) impl_share w =
               Done SA_OK w'
             ∧ (∀ p, p ≠ ZFS_EXPORTS_FILE → p ≠ ZFS_EXPORTS_LOCK →
                     guard_file g ≠ Some p → files w' !! p = files w !! p)).
Proof.
  intros g taken sfx more impl_share w Htaken Hlen Hfresh Hfd.
  rewrite nfs_enable_share_skip, nfs_disable_share_skip by done.
  pose proof (mkstemp_makes_first sfx more w Hlen Hfresh) as Hmk.
  split.
  - destruct (enable_code_and_frame g (sfx :: more) sfx impl_share w Hmk Hfd)
      as (w' & E & Hother).
    by exists w'.
  - destruct (nfs_disable_share_done g (sfx :: more) sfx impl_share w Hmk Hfd)
      as (w' & E & _ & Hother & _).
    by exists w'.
Qed.

(** An instance on a state in which the first name tried exists. *)
Lemma taken_tmpfile_names_witness :
  let w := world_of [(tmpfile_name "a1B2c3", "left over")] in
  ∃ w', nfs_enable_share flock_guard ["a1B2c3"; "d4E5f6"]
          {| sa_mountpoint := "/data"; shareopts := Some "rw" |} w =
          Done SA_OK w'
        ∧ files w' !! tmpfile_name "a1B2c3" = Some "left over".
Proof.
  intros w.
  destruct (taken_tmpfile_names_are_skipped flock_guard ["a1B2c3"] "d4E5f6" []
              {| sa_mountpoint := "/data"; shareopts := Some "rw" |} w)
    as [(w' & E & Hother) _].
  - constructor; [by eexists | constructor].
  - reflexivity.
  - reflexivity.
  - reflexivity.
  - exists w'. split; [exact E |]. by rewrite Hother.
Defined.

(** * Releasing and taking the lock *)

Lemma nfs_exports_unlock_fcntl_done (w : world) :
  (0 ≤ exports_lock_fd w)%Z →
  nfs_exports_unlock_fcntl w = Done 0%Z (with_exports_lock_fd (-1) w).
Proof.
  intros H. unfold nfs_exports_unlock_fcntl.
  by destruct (Z.ltb_spec (exports_lock_fd w) 0); [lia |].
Qed.

(** X4. From a process that does not hold the lock, acquire returns 0
    and holds a descriptor; the release that follows returns 0, resets
    the descriptor to -1 and changes no file; a second release returns
    -1.  This holds for either pair of lock routines. *)
Theorem acquire_release_round_trip :
  ∀ (g : guard) (w : world),
    lock_fd g w = (-1)%Z →
    ∃ w1 w2,
      nfs_exports_lock g w = Done 0%Z w1
      ∧ (0 ≤ lock_fd g w1)%Z
      ∧ nfs_exports_unlock g w1 = Done 0%Z w2
      ∧ lock_fd g w2 = (-1)%Z
      ∧ files w2 = files w1
      ∧ nfs_exports_unlock g w2 = Done (-1)%Z w2.
Proof.
  intros [|ZFS_EXPORTS] w Hfd; simpl in *.
  - destruct (nfs_exports_lock_flock_done w) as (w1 & E1 & _ & Hfd1 & _);
      [lia |].
    exists w1, (with_nfs_lock_fd (-1) w1).
    split; [done |]. split; [done |].
    split; [by apply nfs_exports_unlock_flock_done |].
    split; [done |]. split; [done |]. reflexivity.
  - destruct (nfs_exports_lock_fcntl_done ZFS_EXPORTS w Hfd)
      as (w1 & E1 & _ & _ & Hfd1 & _).
    exists w1, (with_exports_lock_fd (-1) w1).
    split; [done |]. split; [done |].
    split; [by apply nfs_exports_unlock_fcntl_done |].
    split; [done |]. split; [done |]. reflexivity.
Qed.

(** An instance with the [fcntl] routines on a fresh process. *)
Lemma acquire_release_round_trip_witness :
  ∃ w1 w2,
    nfs_exports_lock (fcntl_guard ZFS_EXPORTS_FILE) (world_of []) = Done 0%Z w1
    ∧ nfs_exports_unlock (fcntl_guard ZFS_EXPORTS_FILE) w1 = Done 0%Z w2
    ∧ lock_fd (fcntl_guard ZFS_EXPORTS_FILE) w2 = (-1)%Z.
Proof.
  destruct (acquire_release_round_trip (fcntl_guard ZFS_EXPORTS_FILE)
              (world_of []) eq_refl)
    as (w1 & w2 & E1 & _ & E2 & Hfd & _).
  by exists w1, w2.
Defined.

(** X5. The [fcntl] acquire is not re-entrant: called again while the
    lock is held it aborts the process; after a release it succeeds
    again. *)
Theorem fcntl_acquire_twice_aborts :
  ∀ (ZFS_EXPORTS : string) (w : world),
    exports_lock_fd w = (-1)%Z →
    ∃ w1,
      nfs_exports_lock_fcntl ZFS_EXPORTS w = Done 0%Z w1
      ∧ nfs_exports_lock_fcntl ZFS_EXPORTS w1 = Aborted w1
      ∧ ∃ w2 w3,
          nfs_exports_unlock_fcntl w1 = Done 0%Z w2
          ∧ nfs_exports_lock_fcntl ZFS_EXPORTS w2 = Done 0%Z w3.
Proof.
  intros ZFS_EXPORTS w Hfd.
  destruct (nfs_exports_lock_fcntl_done ZFS_EXPORTS w Hfd)
    as (w1 & E1 & _ & _ & Hfd1 & _).
  exists w1. split; [done |]. split.
  - unfold nfs_exports_lock_fcntl, mbind, M_bind, bind, verify.
    by destruct (Z.eqb_spec (exports_lock_fd w1) (-1)); [lia |].
  - destruct (nfs_exports_lock_fcntl_done ZFS_EXPORTS
                (with_exports_lock_fd (-1) w1) eq_refl) as (w3 & E3 & _).
    exists (with_exports_lock_fd (-1) w1), w3.
    split; [by apply nfs_exports_unlock_fcntl_done | done].
Qed.

(** An instance on a fresh process. *)
Lemma fcntl_acquire_twice_aborts_witness :
  ∃ w1,
    nfs_exports_lock_fcntl ZFS_EXPORTS_FILE (world_of []) = Done 0%Z w1
    ∧ nfs_exports_lock_fcntl ZFS_EXPORTS_FILE w1 = Aborted w1.
Proof.
  destruct (fcntl_acquire_twice_aborts ZFS_EXPORTS_FILE (world_of [])
              eq_refl) as (w1 & E1 & E2 & _).
  by exists w1.
Defined.

(** * The writer of the second lock routine *)

Lemma nfs_exports_entry_done (ZFS_EXPORTS sharepath host : string)
    (security : option string) (access_opts : string)
    (pcookie : option string) (old : string) (w : world) :
  exports_lock_fd w ≠ (-1)%Z →
  files w !! ZFS_EXPORTS = Some old →
  ∃ w', nfs_exports_entry ZFS_EXPORTS sharepath host security access_opts
          pcookie w = Done (Returned SA_OK) w'
        ∧ files w' =
            <[ZFS_EXPORTS :=
                old +:+ entry_line pcookie
                          {| he_filename := ZFS_EXPORTS; he_path := sharepath;
                             he_host := host; he_security := security;
                             he_access := access_opts |}]> (files w)
        ∧ exports_lock_fd w' = exports_lock_fd w.
Proof.
  intros Hheld Hold.
  unfold nfs_exports_entry, mbind, M_bind, bind, verify, sys_open, lift, ret.
  destruct (Z.eqb_spec (exports_lock_fd w) (-1)) as [|_]; [done |].
  simpl. rewrite Hold. simpl.
  destruct (Z.eqb_spec (Z.of_nat (next_fd w)) (-1)) as [|_]; [lia |].
  destruct (get_linux_hostspec_ok host) as (linuxhost & Hhost).
  unfold entry_line. rewrite Hhost.
  eexists. split; [reflexivity |]. simpl. by rewrite Hold, Hhost.
Qed.

(** X6. With the lock held and the file there, nfs_exports_entry returns
    success and leaves the files exactly as nfs_add_entry on the same
    file and arguments does: the old contents followed by the one line
    [path host(sec=...,access,options)], with a leading [@] of the host
    dropped; no other file changes. *)
Theorem entry_writers_agree :
  ∀ (ZFS_EXPORTS sharepath host : string) (security : option string)
    (access_opts : string) (pcookie : option string) (old : string)
    (w : world),
    exports_lock_fd w ≠ (-1)%Z →
    files w !! ZFS_EXPORTS = Some old →
    ∃ w', nfs_exports_entry ZFS_EXPORTS sharepath host security access_opts
            pcookie w = Done (Returned SA_OK) w'
          ∧ fst (nfs_add_entry ZFS_EXPORTS sharepath host security
                   access_opts pcookie w) = SA_OK
          ∧ files w' =
              files (snd (nfs_add_entry ZFS_EXPORTS sharepath host security
                            access_opts pcookie w))
          ∧ files w' !! ZFS_EXPORTS =
              Some (old +:+
                    export_line sharepath
                      (match host with
                       | String "@" rest => rest
                       | _ => host
                       end)
                      security access_opts (default EmptyString pcookie))
          ∧ (∀ p, p ≠ ZFS_EXPORTS → files w' !! p = files w !! p).
Proof.
  intros ZFS_EXPORTS sharepath host security access_opts pcookie old w
    Hheld Hold.
  destruct (nfs_exports_entry_done ZFS_EXPORTS sharepath host security
              access_opts pcookie old w Hheld Hold) as (w' & E & Hfiles & _).
  exists w'. split; [done |].
  assert (default EmptyString (snd (get_linux_hostspec host)) =
          match host with String "@" rest => rest | _ => host end) as Hhost.
  { unfold get_linux_hostspec. destruct host as [|c host]; [done |].
    destruct (Ascii.eqb_spec c "@") as [->|Hne]; [done |].
    by destruct c as [[] [] [] [] [] [] [] []]. }
  unfold nfs_add_entry.
  destruct (get_linux_hostspec_ok host) as (linuxhost & Hspec).
  rewrite Hspec in *. simpl in Hhost. subst linuxhost. simpl.
  rewrite Hold, Hfiles. unfold entry_line. simpl. rewrite Hspec. simpl.
  split; [done |]. split; [done |].
  split; [by rewrite lookup_insert_eq |].
  intros p Hp. by rewrite lookup_insert_ne.
Qed.

(** An instance with a network host. *)
Lemma entry_writers_agree_witness :
  let w := with_exports_lock_fd 3 (world_of [(ZFS_EXPORTS_FILE, "")]) in
  ∃ w', nfs_exports_entry ZFS_EXPORTS_FILE "/data" "@10.0.0.0/8" (Some "sys")
          "rw" (Some "no_subtree_check,mountpoint") w =
          Done (Returned SA_OK) w'
        ∧ files w' !! ZFS_EXPORTS_FILE =
            Some ("/data 10.0.0.0/8(sec=sys,rw,no_subtree_check,mountpoint)"
                  +:+ String newline EmptyString).
Proof.
  intros w.
  destruct (entry_writers_agree ZFS_EXPORTS_FILE "/data" "@10.0.0.0/8"
              (Some "sys") "rw" (Some "no_subtree_check,mountpoint") "" w)
    as (w' & E & _ & _ & Hline & _); [discriminate | reflexivity |].
  exists w'. split; [exact E | exact Hline].
Defined.

(** X7. nfs_exports_entry writes nothing unless the lock is held and the
    file is there: without the lock the process is aborted, and with the
    lock but without the file the process exits with status 1; in both
    cases no file has been made or changed. *)
Theorem exports_entry_needs_lock_and_file :
  ∀ (ZFS_EXPORTS sharepath host : string) (security : option string)
    (access_opts : string) (pcookie : option string) (w : world),
    (exports_lock_fd w = (-1)%Z →
     nfs_exports_entry ZFS_EXPORTS sharepath host security access_opts
       pcookie w = Aborted w)
    ∧ (exports_lock_fd w ≠ (-1)%Z →
       files w !! ZFS_EXPORTS = None →
       nfs_exports_entry ZFS_EXPORTS sharepath host security access_opts
         pcookie w = Done (Exited 1) w).
Proof.
  intros ZFS_EXPORTS sharepath host security access_opts pcookie w.
  unfold nfs_exports_entry, mbind, M_bind, bind, verify, sys_open, ret.
  split.
  - intros ->. done.
  - intros Hheld Hmissing.
    destruct (Z.eqb_spec (exports_lock_fd w) (-1)) as [|_]; [done |].
    simpl. by rewrite Hmissing.
Qed.

(** An instance without the lock and one without the file. *)
Lemma exports_entry_needs_lock_and_file_witness :
  nfs_exports_entry ZFS_EXPORTS_FILE "/data" "*" (Some "sys") "rw" None
    (world_of [(ZFS_EXPORTS_FILE, "")]) =
    Aborted (world_of [(ZFS_EXPORTS_FILE, "")])
  ∧ nfs_exports_entry ZFS_EXPORTS_FILE "/data" "*" (Some "sys") "rw" None
      (with_exports_lock_fd 3 (world_of [])) =
      Done (Exited 1) (with_exports_lock_fd 3 (world_of [])).
Proof.
  split.
  - apply (proj1 (exports_entry_needs_lock_and_file ZFS_EXPORTS_FILE "/data"
                    "*" (Some "sys") "rw" None
                    (world_of [(ZFS_EXPORTS_FILE, "")]))).
    reflexivity.
  - apply (proj2 (exports_entry_needs_lock_and_file ZFS_EXPORTS_FILE "/data"
                    "*" (Some "sys") "rw" None
                    (with_exports_lock_fd 3 (world_of [])))).
    + discriminate.
    + reflexivity.
Defined.

Lemma exports_entries_done (ZFS_EXPORTS : string) (linux_opts : option string)
    (es : list host_entry) (old : string) (w : world) :
  exports_lock_fd w ≠ (-1)%Z →
  files w !! ZFS_EXPORTS = Some old →
  ∃ w', exports_entries ZFS_EXPORTS linux_opts es w = Done (Returned SA_OK) w'
        ∧ files w' !! ZFS_EXPORTS =
            Some (old +:+ cat (entry_line linux_opts <$> es))
        ∧ (∀ p, p ≠ ZFS_EXPORTS → files w' !! p = files w !! p)
        ∧ exports_lock_fd w' = exports_lock_fd w.
Proof.
  revert old w. induction es as [|e es IH]; intros old w Hheld Hold.
  - exists w. simpl. by rewrite append_nil_r.
  - destruct (nfs_exports_entry_done ZFS_EXPORTS (he_path e) (he_host e)
                (he_security e) (he_access e) linux_opts old w Hheld Hold)
      as (w1 & E1 & Hfiles1 & Hfd1).
    destruct (IH (old +:+ entry_line linux_opts
                    {| he_filename := ZFS_EXPORTS; he_path := he_path e;
                       he_host := he_host e; he_security := he_security e;
                       he_access := he_access e |}) w1)
      as (w' & E' & Hart & Hother & Hfd'); [congruence | |].
    { rewrite Hfiles1. apply lookup_insert_eq. }
    exists w'. split.
    { cbn [exports_entries]. step (apply E1). exact E'. }
    split.
    { rewrite Hart, fmap_cons, cat_cons, append_assoc. done. }
    split; [|congruence].
    intros p Hp. rewrite Hother, Hfiles1 by done. by apply lookup_insert_ne.
Qed.

(** X8. Taking the [fcntl] lock and then writing entries with
    nfs_exports_entry regenerates the file from scratch: whatever it held
    before, afterwards it holds exactly the lines of these entries, one
    each, in order. *)
Theorem fcntl_lock_then_entries_regenerates :
  ∀ (ZFS_EXPORTS : string) (linux_opts : option string)
    (es : list host_entry) (w : world),
    exports_lock_fd w = (-1)%Z →
    ∃ w1 w',
      nfs_exports_lock_fcntl ZFS_EXPORTS w = Done 0%Z w1
      ∧ exports_entries ZFS_EXPORTS linux_opts es w1 = Done (Returned SA_OK) w'
      ∧ files w' !! ZFS_EXPORTS = Some (cat (entry_line linux_opts <$> es)).
Proof.
  intros ZFS_EXPORTS linux_opts es w Hfd.
  destruct (nfs_exports_lock_fcntl_done ZFS_EXPORTS w Hfd)
    as (w1 & E1 & Hart1 & _ & Hfd1 & _).
  destruct (exports_entries_done ZFS_EXPORTS linux_opts es EmptyString w1)
    as (w' & E' & Hart & _); [lia | done |].
  by exists w1, w'.
Qed.

(** An instance on an artifact with an old line. *)
Lemma fcntl_lock_then_entries_witness :
  ∃ w1 w',
    nfs_exports_lock_fcntl ZFS_EXPORTS_FILE
      (world_of [(ZFS_EXPORTS_FILE, "/old *(sec=sys,rw,mountpoint)")]) =
      Done 0%Z w1
    ∧ exports_entries ZFS_EXPORTS_FILE (Some "mountpoint")
        [ {| he_filename := ZFS_EXPORTS_FILE; he_path := "/data";
             he_host := "a"; he_security := Some "sys";
             he_access := "ro" |} ] w1 = Done (Returned SA_OK) w'
    ∧ files w' !! ZFS_EXPORTS_FILE =
        Some ("/data a(sec=sys,ro,mountpoint)" +:+ String newline EmptyString).
Proof.
  exact (fcntl_lock_then_entries_regenerates ZFS_EXPORTS_FILE
           (Some "mountpoint")
           [ {| he_filename := ZFS_EXPORTS_FILE; he_path := "/data";
                he_host := "a"; he_security := Some "sys";
                he_access := "ro" |} ]
           (world_of [(ZFS_EXPORTS_FILE, "/old *(sec=sys,rw,mountpoint)")])
           eq_refl).
Defined.

(** * The translated option string *)

Lemma fold_append_options (c : ascii) (ps : list string) (a b : string) :
  fold_left (λ acc p, acc +:+ String c p) ps (a +:+ String c b) =
    a +:+ String c (fold_left (λ acc p, acc +:+ String c p) ps b).
Proof.
  revert b. induction ps as [|p ps IH]; intros b; simpl; [done |].
  by rewrite <- IH, append_assoc.
Qed.

Lemma join_fold (c : ascii) (t : string) (ts : list string) :
  join c (t :: ts) = fold_left (λ acc p, acc +:+ String c p) ts t.
Proof.
  revert t. induction ts as [|t' ts IH]; intros t; [done |].
  change (join c (t :: t' :: ts)) with (t +:+ String c (join c (t' :: ts))).
  by rewrite IH, <- fold_append_options.
Qed.

Lemma fold_append_options_nonempty (c : ascii) (ps : list string)
    (s : string) :
  s ≠ EmptyString →
  fold_left (λ acc p, acc +:+ String c p) ps s ≠ EmptyString.
Proof.
  revert s. induction ps as [|p ps IH]; intros s Hs; simpl; [done |].
  apply IH. by destruct s.
Qed.

Lemma add_linux_shareopt_nonempty (s key : string) (value : option string) :
  s ≠ EmptyString →
  add_linux_shareopt (Some s) key value =
    (SA_OK, Some (s +:+ String comma (render_option key value))).
Proof.
  intros Hs. rewrite add_linux_shareopt_spec. unfold render_option.
  destruct s as [|a s]; [done |].
  destruct value as [v|]; by rewrite ?append_assoc, ?append_nil_r.
Qed.

(** What get_linux_shareopts_cb appends for a token with a known key. *)
Lemma get_linux_shareopts_cb_append (key : string) (value : option string)
    (s : string) :
  ¬ unrecognized key →
  s ≠ EmptyString →
  get_linux_shareopts_cb key value (Some s) =
    (SA_OK,
     Some (fold_left (λ acc p, acc +:+ String comma p)
             (translate_token (key, value)) s)).
Proof.
  intros Hknown Hs. unfold get_linux_shareopts_cb, translate_token.
  cbn [fst snd].
  destruct (String.eqb key "ro" || String.eqb key "rw" || String.eqb key "sec")
    eqn:Hhost.
  { apply host_keys_eqb in Hhost. by rewrite bool_decide_eq_true_2. }
  assert (key ∉ host_keys) as Hnh.
  { intros H%host_keys_eqb. congruence. }
  rewrite bool_decide_eq_false_2 by done.
  destruct (String.eqb_spec key "anon") as [->|Hanon].
  { cbn. by rewrite add_linux_shareopt_nonempty. }
  destruct (String.eqb_spec key "root_mapping") as [->|Hroot].
  { cbn. rewrite (add_linux_shareopt_nonempty s) by done. cbn.
    rewrite add_linux_shareopt_nonempty; [done | by destruct s]. }
  assert (rewritten_key key ∈ allow_list) as Hin.
  { destruct (decide (rewritten_key key ∈ allow_list)) as [|Hout]; [done |].
    destruct Hknown. by split. }
  destruct (String.eqb_spec key "nosub") as [->|Hnosub].
  { cbn. by rewrite add_linux_shareopt_nonempty. }
  assert (rewritten_key key = key) as Hrw.
  { unfold rewritten_key.
    apply String.eqb_neq in Hanon as ->. apply String.eqb_neq in Hroot as ->.
    by apply String.eqb_neq in Hnosub as ->. }
  rewrite Hrw in *.
  apply linux_shareopt_known_allow_list in Hin. rewrite Hin. cbn.
  by rewrite add_linux_shareopt_nonempty.
Qed.

Lemma visit_append (toks : list (string * option string)) (s : string) :
  Forall (λ tok, ¬ unrecognized (fst tok)) toks →
  s ≠ EmptyString →
  visit get_linux_shareopts_cb toks (Some s) =
    (SA_OK,
     Some (fold_left (λ acc p, acc +:+ String comma p)
             (concat (translate_token <$> toks)) s)).
Proof.
  intros Hall. revert s.
  induction Hall as [|[key value] toks Hk _ IH]; intros s Hs; [done |].
  simpl. rewrite get_linux_shareopts_cb_append by done.
  rewrite IH by by apply fold_append_options_nonempty.
  by rewrite fold_left_app.
Qed.

Lemma get_linux_shareopts_join (opts : option string) :
  ¬ has_unrecognized_key opts →
  get_linux_shareopts opts = (SA_OK, Some (join comma (translated_options opts))).
Proof.
  intros Hknown. unfold get_linux_shareopts, translated_options.
  rewrite foreach_nfs_shareopt_visit.
  change (snd (add_linux_shareopt
                 (snd (add_linux_shareopt None "no_subtree_check" None))
                 "mountpoint" None))
    with (Some "no_subtree_check,mountpoint").
  rewrite visit_append; [|by apply not_Exists_Forall;
                           [intros tok; apply _ |] | done].
  by rewrite join_fold.
Qed.

(** X9. For an option string all of whose keys are known the translation
    is the comma-separated list of [no_subtree_check], [mountpoint] and,
    token by token in order, nothing for [ro], [rw] and [sec],
    [root_squash] and [anonuid=value] for [root_mapping], and the
    rewritten key with its value for every other token; a key that
    occurs twice is printed twice. *)
Theorem translation_is_join_of_translated_tokens :
  ∀ (opts : option string),
    ¬ has_unrecognized_key opts →
    get_linux_shareopts opts =
      (SA_OK,
       Some (join comma
               ("no_subtree_check" :: "mountpoint"
                  :: concat (translate_token <$> shareopt_tokens opts)))).
Proof. intros opts Hknown. by apply get_linux_shareopts_join. Qed.

(** An instance with a repeated key and host options in between. *)
Lemma translation_is_join_witness :
  get_linux_shareopts (Some "sync,rw=a:b,root_mapping=0,sync,anon=99") =
    (SA_OK,
     Some "no_subtree_check,mountpoint,sync,root_squash,anonuid=0,sync,anonuid=99").
Proof.
  apply (translation_is_join_of_translated_tokens
           (Some "sync,rw=a:b,root_mapping=0,sync,anon=99")).
  unfold has_unrecognized_key, unrecognized.
  apply (bool_decide_unpack _). vm_compute. exact I.
Defined.

Lemma split_on_no_sep (c : ascii) (t : string) :
  has_char c t = false → split_on c t = [t].
Proof.
  induction t as [|a t IH]; simpl; [done |].
  intros [Ha Ht]%orb_false_iff. by rewrite Ha, IH.
Qed.

Lemma split_on_join (c : ascii) (ps : list string) :
  ps ≠ [] →
  Forall (λ p, has_char c p = false) ps →
  split_on c (join c ps) = ps.
Proof.
  intros Hne Hall. induction Hall as [|t ts Ht Hts IH]; [done |].
  destruct ts as [|t' ts]; [by apply split_on_no_sep |].
  change (join c (t :: t' :: ts)) with (t +:+ String c (join c (t' :: ts))).
  by rewrite split_on_append, split_on_no_sep, IH.
Qed.

Lemma strchr_split_has_char (c d : ascii) (s : string) :
  has_char d s = false →
  has_char d (fst (strchr_split c s)) = false
  ∧ ∀ v, snd (strchr_split c s) = Some v → has_char d v = false.
Proof.
  induction s as [|a s IH]; simpl; [done |].
  intros [Ha Hs]%orb_false_iff. specialize (IH Hs).
  destruct (Ascii.eqb a c).
  - split; [done |]. by intros v [= <-].
  - destruct (strchr_split c s) as [k v']. simpl in *.
    by rewrite Ha.
Qed.

Lemma strchr_split_key (c : ascii) (s : string) :
  has_char c (fst (strchr_split c s)) = false.
Proof.
  destruct (strchr_split c s) as [k [v|]] eqn:E; simpl.
  - by apply strchr_split_some in E as [_ ?].
  - by apply strchr_split_none in E as [-> ?].
Qed.

Lemma strchr_split_append (c : ascii) (k v : string) :
  has_char c k = false →
  strchr_split c (k +:+ String c v) = (k, Some v).
Proof.
  induction k as [|a k IH]; simpl.
  - by rewrite Ascii.eqb_refl.
  - intros [Ha Hk]%orb_false_iff. by rewrite Ha, IH.
Qed.

Lemma strchr_split_absent (c : ascii) (k : string) :
  has_char c k = false → strchr_split c k = (k, None).
Proof.
  induction k as [|a k IH]; simpl; [done |].
  intros [Ha Hk]%orb_false_iff. by rewrite Ha, IH.
Qed.

Lemma key_value_render_option (key : string) (value : option string) :
  has_char equals key = false →
  key_value (render_option key value) = (key, value).
Proof.
  intros Hk. unfold key_value, render_option. destruct value as [v|].
  - by apply strchr_split_append.
  - by apply strchr_split_absent.
Qed.

(** The tokens of an option string have no comma, and their keys no
    [=]. *)
Lemma shareopt_tokens_shape (opts : option string) :
  Forall (λ tok, has_char comma (fst tok) = false
                 ∧ (∀ v, snd tok = Some v → has_char comma v = false)
                 ∧ has_char equals (fst tok) = false)
    (shareopt_tokens opts).
Proof.
  destruct opts as [s|]; [|by constructor]. simpl.
  unfold tokens, pieces_tokens. apply Forall_fmap, Forall_forall.
  intros piece [_ Hin]%list_elem_of_filter. simpl. unfold key_value.
  pose proof (proj1 (Forall_forall _ _)
                (split_on_pieces comma (expand_shorthand s)) _ Hin) as Hc.
  destruct (strchr_split_has_char equals comma piece Hc) as [Hk Hv].
  split; [done |]. split; [done |]. apply strchr_split_key.
Qed.

Lemma rewritten_key_has_char (c : ascii) (key : string) :
  has_char c "anonuid" = false → has_char c "subtree_check" = false →
  has_char c key = false → has_char c (rewritten_key key) = false.
Proof.
  intros Ha Hs Hk. unfold rewritten_key.
  by repeat destruct (String.eqb _ _).
Qed.

Lemma rewritten_key_allowed (key : string) :
  key ∈ allow_list → rewritten_key key = key.
Proof.
  assert (Forall (λ k, rewritten_key k = k) allow_list) as H
    by (repeat constructor).
  apply (proj1 (Forall_forall _ _) H).
Qed.

Lemma render_option_has_char (c : ascii) (key : string)
    (value : option string) :
  Ascii.eqb equals c = false →
  has_char c key = false →
  (∀ v, value = Some v → has_char c v = false) →
  has_char c (render_option key value) = false.
Proof.
  intros Hc Hk Hv. unfold render_option. destruct value as [v|]; [|done].
  rewrite has_char_append, Hk.
  change (has_char c (String equals v))
    with (Ascii.eqb equals c || has_char c v).
  by rewrite Hc, (Hv v).
Qed.

(** The options printed for a token with a known key have no comma, and
    each has an allowed key. *)
Lemma translate_token_shape (tok : string * option string) :
  ¬ unrecognized (fst tok) →
  has_char comma (fst tok) = false →
  (∀ v, snd tok = Some v → has_char comma v = false) →
  has_char equals (fst tok) = false →
  Forall (λ p, has_char comma p = false
               ∧ fst (key_value p) ∈ allow_list)
    (translate_token tok).
Proof.
  intros Hknown Hc Hcv He. unfold translate_token.
  case_bool_decide as Hhost; [done |].
  destruct (String.eqb_spec (fst tok) "root_mapping") as [Hroot|Hroot].
  - apply Forall_cons. split.
    { split; [done | by apply linux_shareopt_known_allow_list]. }
    apply Forall_cons. split; [|done]. split.
    + by apply render_option_has_char.
    + rewrite key_value_render_option by done. simpl.
      by apply linux_shareopt_known_allow_list.
  - assert (rewritten_key (fst tok) ∈ allow_list) as Hin.
    { destruct (decide (rewritten_key (fst tok) ∈ allow_list)) as [|Hout];
        [done |].
      destruct Hknown. by split. }
    apply Forall_cons. split; [|done]. split.
    + apply render_option_has_char; [done | | done].
      by apply rewritten_key_has_char.
    + rewrite key_value_render_option; [done |].
      by apply rewritten_key_has_char.
Qed.

Lemma translated_options_shape (opts : option string) :
  ¬ has_unrecognized_key opts →
  Forall (λ p, has_char comma p = false ∧ fst (key_value p) ∈ allow_list)
    (translated_options opts).
Proof.
  intros Hknown. unfold translated_options.
  constructor; [split; [done | by apply linux_shareopt_known_allow_list] |].
  constructor; [split; [done | by apply linux_shareopt_known_allow_list] |].
  apply Forall_concat, Forall_fmap.
  assert (Forall (λ tok, ¬ unrecognized (fst tok)) (shareopt_tokens opts))
    as Hall by by apply not_Exists_Forall; [intros tok; apply _ |].
  pose proof (shareopt_tokens_shape opts) as Hshape.
  induction Hall as [|tok toks Hk _ IH]; [done |].
  apply Forall_cons in Hshape as [(Hc & Hv & He) Hshape].
  constructor; [by apply translate_token_shape | by apply IH].
Qed.

Lemma get_linux_shareopts_ok_known (opts linux_opts : option string) :
  get_linux_shareopts opts = (SA_OK, linux_opts) →
  ¬ has_unrecognized_key opts.
Proof.
  intros E Hbad. by rewrite get_linux_shareopts_unrecognized in E.
Qed.

(** X10. The string of a successful translation, split at its commas, is
    the list of options printed; every one of them has a key of the
    allow-list (so none is [ro], [rw] or [sec]), and the string itself
    passes nfs_validate_shareopts. *)
Theorem translation_output_is_allowed :
  ∀ (opts : option string) (linux_opts : string),
    get_linux_shareopts opts = (SA_OK, Some linux_opts) →
    split_on comma linux_opts = translated_options opts
    ∧ Forall (λ p, fst (key_value p) ∈ allow_list
                   ∧ fst (key_value p) ∉ host_keys)
        (split_on comma linux_opts)
    ∧ nfs_validate_shareopts (Some linux_opts) = SA_OK.
Proof.
  intros opts linux_opts E.
  pose proof (get_linux_shareopts_ok_known _ _ E) as Hknown.
  pose proof (translated_options_shape opts Hknown) as Hshape.
  pose proof (get_linux_shareopts_join opts Hknown) as Hjoin.
  assert (linux_opts = join comma (translated_options opts)) as ->
    by congruence.
  clear E Hjoin.
  assert (split_on comma (join comma (translated_options opts)) =
          translated_options opts) as Hsplit.
  { apply split_on_join; [done |].
    eapply Forall_impl; [exact Hshape | by intros p [? _]]. }
  assert (∀ k, k ∈ allow_list → k ∉ host_keys) as Hdisj.
  { intros k Hin Hh. unfold host_keys in Hh.
    rewrite !elem_of_cons, elem_of_nil in Hh.
    destruct Hh as [->|[->|[->|[]]]];
      apply linux_shareopt_known_allow_list in Hin; discriminate Hin. }
  split; [done |]. split.
  { rewrite Hsplit. eapply Forall_impl; [exact Hshape |].
    intros p [_ Hin]. split; [done | by apply Hdisj]. }
  unfold nfs_validate_shareopts. apply get_linux_shareopts_recognized.
  unfold has_unrecognized_key, shareopt_tokens.
  assert (expand_shorthand (join comma (translated_options opts)) =
          join comma (translated_options opts)) as ->.
  { unfold translated_options.
    destruct (concat _) as [|p ps]; reflexivity. }
  unfold tokens, pieces_tokens. rewrite Hsplit.
  intros Hex. apply Exists_exists in Hex as (tok & Htok & Hun & Hout).
  apply list_elem_of_fmap in Htok as (p & -> & [_ Hp]%list_elem_of_filter).
  apply (proj1 (Forall_forall _ _) Hshape) in Hp as [_ Hin].
  by rewrite rewritten_key_allowed in Hout.
Qed.

(** An instance with a rewritten key. *)
Lemma translation_output_is_allowed_witness :
  split_on comma "no_subtree_check,mountpoint,subtree_check,fsid=7" =
    translated_options (Some "ro=a,nosub,fsid=7")
  ∧ nfs_validate_shareopts
      (Some "no_subtree_check,mountpoint,subtree_check,fsid=7") = SA_OK.
Proof.
  destruct (translation_output_is_allowed (Some "ro=a,nosub,fsid=7")
              "no_subtree_check,mountpoint,subtree_check,fsid=7" eq_refl)
    as (Hsplit & _ & Hvalid).
  by split.
Defined.

(** * Hosts of a group *)

Lemma split_on_length (c : ascii) (s : string) :
  length (split_on c s) = S (count_char c s).
Proof.
  induction s as [|a s IH]; simpl; [done |].
  destruct (Ascii.eqb a c); simpl; [by rewrite IH |].
  destruct (split_on_cons c s) as (t & ts & E). by rewrite E in *.
Qed.

Lemma tokens_single (s : string) :
  has_char comma s = false → s ≠ EmptyString → tokens s = [key_value s].
Proof.
  intros Hc Hne. unfold tokens, pieces_tokens.
  rewrite split_on_no_sep by done.
  rewrite filter_cons, decide_True by done. done.
Qed.

(** X11. A group [rw=v] or [ro=v] gives one entry for every piece of [v]
    between colons, in order and with the default security: one more
    entry than [v] has colons, empty pieces included, so that [rw=]
    gives the one entry with the empty host and not the entry for all
    hosts, which is what a group without [=] gives. *)
Theorem group_gives_entry_per_colon_piece :
  ∀ (path file access v : string),
    access = "rw" ∨ access = "ro" →
    has_char comma v = false →
    let entry host :=
      {| he_filename := file; he_path := path; he_host := host;
         he_security := Some "sys"; he_access := access |} in
    expand_hosts {| sa_mountpoint := path;
                    shareopts := Some (access +:+ String equals v) |} file =
      (SA_OK, entry <$> split_on colon v)
    ∧ length (split_on colon v) = S (count_char colon v)
    ∧ join colon (split_on colon v) = v
    ∧ expand_hosts {| sa_mountpoint := path; shareopts := Some access |} file =
        (SA_OK, [entry "*"]).
Proof.
  intros path file access v Hacc Hc entry.
  split; [|split; [apply split_on_length |
                   split; [apply join_split_on |
                           by destruct Hacc as [->| ->]]]].
  rewrite expand_hosts_groups. f_equal. simpl.
  assert (expand_shorthand (access +:+ String equals v) =
          access +:+ String equals v) as ->
    by by destruct Hacc as [->| ->].
  rewrite tokens_single.
  - unfold key_value. rewrite strchr_split_append
      by by destruct Hacc as [->| ->].
    destruct Hacc as [->| ->]; simpl; by rewrite app_nil_r.
  - rewrite has_char_append. simpl. rewrite Hc.
    by destruct Hacc as [->| ->].
  - by destruct Hacc as [->| ->].
Qed.

(** An instance with an empty host between two colons. *)
Lemma group_gives_entry_per_colon_piece_witness :
  expand_hosts {| sa_mountpoint := "/data"; shareopts := Some "ro=a::b" |}
    "zfs.exports.a1B2c3" =
    (SA_OK,
     (λ host, {| he_filename := "zfs.exports.a1B2c3"; he_path := "/data";
                 he_host := host; he_security := Some "sys";
                 he_access := "ro" |}) <$> ["a"; ""; "b"]).
Proof.
  exact (proj1 (group_gives_entry_per_colon_piece "/data" "zfs.exports.a1B2c3"
                  "ro" "a::b" (or_intror eq_refl) eq_refl)).
Defined.

(** * The life cycle of a share *)

Lemma nfs_is_shared_lines (impl_share : sa_share_impl) (w : world) :
  nfs_is_shared impl_share w =
    bool_decide (Exists (λ l, path_field l = Some (sa_mountpoint impl_share))
                   (artifact_lines w)).
Proof.
  rewrite nfs_is_shared_exists. unfold artifact_lines.
  by destruct (files w !! ZFS_EXPORTS_FILE).
Qed.

Lemma nt_append (a b : string) :
  b ≠ EmptyString → newline_terminated (a +:+ b) = newline_terminated b.
Proof.
  intros Hb. induction a as [|c a IH]; [done |].
  change (String c a +:+ b) with (String c (a +:+ b)).
  cbn [newline_terminated]. rewrite <- IH.
  destruct (a +:+ b) eqn:E; [|done].
  destruct a; [|done]. by simpl in E.
Qed.

Lemma newline_terminated_cat (ls : list string) :
  Forall complete_line ls → newline_terminated (cat ls) = true.
Proof.
  induction 1 as [|l ls (body & -> & _) _ IH]; [done |].
  rewrite cat_cons. destruct (cat ls) as [|c rest] eqn:E.
  - rewrite append_nil_r. by rewrite nt_append.
  - by rewrite nt_append.
Qed.

Lemma Exists_filter_other {A} (P Q : A → Prop) `{!∀ x, Decision (P x)}
    (l : list A) :
  (∀ x, Q x → P x) → Exists Q (filter P l) ↔ Exists Q l.
Proof.
  intros HQP. rewrite !Exists_exists. split.
  - intros (x & [_ Hin]%list_elem_of_filter & HQ). eauto.
  - intros (x & Hin & HQ). exists x. split; [|done].
    apply list_elem_of_filter. auto.
Qed.


Lemma tidy_artifact_same (w w' : world) :
  files w' !! ZFS_EXPORTS_FILE = files w !! ZFS_EXPORTS_FILE →
  tidy_artifact w → tidy_artifact w'.
Proof. unfold tidy_artifact, text_artifact. by intros ->. Qed.


Lemma artifact_lines_nul_free (w : world) :
  Forall nul_free (artifact_lines w).
Proof.
  unfold artifact_lines, c_lines. apply Forall_fmap, Forall_true.
  intros l. apply nul_free_c_str.
Qed.

Lemma text_artifact_cat (ls : list string) (w : world) :
  files w !! ZFS_EXPORTS_FILE = Some (cat ls) →
  Forall nul_free ls → text_artifact w.
Proof. unfold text_artifact. intros -> Hls. by apply nul_free_cat. Qed.

Lemma tidy_artifact_cat (ls : list string) (w : world) :
  files w !! ZFS_EXPORTS_FILE = Some (cat ls) →
  Forall complete_line ls → Forall nul_free ls → tidy_artifact w.
Proof.
  intros Hw Hc Hn. split; [|by eapply text_artifact_cat].
  rewrite Hw. by apply newline_terminated_cat.
Qed.

Lemma validate_ok_cases (opts : option string) :
  nfs_validate_shareopts opts = SA_OK
  ∨ ∃ error, error ≠ SA_OK ∧ get_linux_shareopts opts = (error, None).
Proof.
  destruct (get_linux_shareopts_cases opts)
    as [(linux_opts & Hopts)|(error & Herr & Hopts)].
  - left. unfold nfs_validate_shareopts. by rewrite Hopts.
  - right. eauto.
Qed.

(** What nfs_disable_share (with the [flock] lock) leaves of an artifact
    without NUL. *)
Lemma nfs_disable_share_lines (tries : list string) (sfx : string)
    (impl_share : sa_share_impl) (w : world) :
  mkstemp_makes tries sfx w →
  nfs_lock_fd w = (-1)%Z →
  text_artifact w →
  ∃ w', nfs_disable_share flock_guard tries impl_share w =
          Done SA_OK w'
        ∧ files w' !! ZFS_EXPORTS_FILE =
            Some (cat (filter (λ l, path_field l ≠
                                      Some (sa_mountpoint impl_share))
                         (artifact_lines w)))
        ∧ artifact_lines w' =
            filter (λ l, path_field l ≠ Some (sa_mountpoint impl_share))
              (artifact_lines w)
        ∧ files w' !! tmpfile_name sfx = None
        ∧ (∀ p, p ≠ ZFS_EXPORTS_FILE → p ≠ ZFS_EXPORTS_LOCK →
                files w' !! p = files w !! p)
        ∧ nfs_lock_fd w' = (-1)%Z
        ∧ text_artifact w'.
Proof.
  intros Hmk Hfd Htext.
  pose proof (mkstemp_makes_length _ _ _ Hmk) as Hlen.
  pose proof (mkstemp_makes_fresh _ _ _ Hmk) as Hfresh.
  destruct (nfs_disable_share_done flock_guard tries sfx impl_share w Hmk
              Hfd) as (w' & E & Hart & Hother & Hfd').
  rewrite acquired_lines_flock in Hart.
  assert (∀ p, p ≠ ZFS_EXPORTS_FILE → p ≠ ZFS_EXPORTS_LOCK →
               files w' !! p = files w !! p) as Hframe
    by (intros p Hp1 Hp2; by apply Hother).
  exists w'. split; [done |]. split; [done |].
  assert (text_artifact w') as Htext'.
  { eapply text_artifact_cat; [done |].
    apply Forall_filter_keep, artifact_lines_nul_free. }
  split.
  { unfold artifact_lines at 1. rewrite Hart. simpl.
    rewrite c_lines_nul_free.
    - unfold artifact_lines. rewrite c_lines_nul_free by done.
      apply getlines_cat_filter.
    - apply nul_free_cat, Forall_filter_keep, artifact_lines_nul_free. }
  split; [|done].
  rewrite Hframe; [done | apply tmpfile_name_not_artifact |
                   by apply tmpfile_name_not_lock].
Qed.

(** X12. nfs_disable_share (with the [flock] lock, which the process
    does not hold already) on an artifact without NUL returns success
    whether or not the mount point has entries.  Afterwards
    nfs_is_shared answers false for the share, and for every other
    mount point it answers as before; the lines of the artifact are the
    earlier lines without those of the mount point, in order. *)
Theorem disable_unshares_only_this_mountpoint :
  ∀ (tries : list string) (sfx : string) (impl_share : sa_share_impl)
    (w : world),
    mkstemp_makes tries sfx w →
    nfs_lock_fd w = (-1)%Z →
    text_artifact w →
    ∃ w', nfs_disable_share flock_guard tries impl_share w =
            Done SA_OK w'
          ∧ nfs_is_shared impl_share w' = false
          ∧ (∀ other,
               sa_mountpoint other ≠ sa_mountpoint impl_share →
               nfs_is_shared other w' = nfs_is_shared other w)
          ∧ artifact_lines w' =
              filter (λ l, path_field l ≠ Some (sa_mountpoint impl_share))
                (artifact_lines w).
Proof.
  intros tries sfx impl_share w Hmk Hfd Htext.
  destruct (nfs_disable_share_lines tries sfx impl_share w Hmk Hfd
              Htext) as (w' & E & _ & Hlines & _).
  exists w'. split; [done |].
  split; [|split; [|done]].
  - rewrite nfs_is_shared_lines, Hlines. apply bool_decide_eq_false.
    intros (l & [Hl _]%list_elem_of_filter & Hmp)%Exists_exists. done.
  - intros other Hne. rewrite !nfs_is_shared_lines, Hlines.
    apply bool_decide_ext, Exists_filter_other. congruence.
Qed.

(** An instance on an artifact with two mount points. *)
Lemma disable_unshares_witness :
  let old := "/data a(sec=sys,rw,mountpoint)" +:+
             String newline "/home b(sec=sys,rw,mountpoint)" +:+
             String newline EmptyString in
  ∃ w', nfs_disable_share flock_guard ["a1B2c3"]
          {| sa_mountpoint := "/data"; shareopts := Some "rw" |}
          (world_of [(ZFS_EXPORTS_FILE, old)]) = Done SA_OK w'
        ∧ nfs_is_shared {| sa_mountpoint := "/data"; shareopts := None |} w' =
            false
        ∧ nfs_is_shared {| sa_mountpoint := "/home"; shareopts := None |} w' =
            true.
Proof.
  intros old.
  destruct (disable_unshares_only_this_mountpoint ["a1B2c3"] "a1B2c3"
              {| sa_mountpoint := "/data"; shareopts := Some "rw" |}
              (world_of [(ZFS_EXPORTS_FILE, old)]) ltac:(by apply mkstemp_makes_first) eq_refl
              eq_refl)
    as (w' & E & Hmine & Hother & _).
  exists w'. split; [exact E |]. split.
  - rewrite nfs_is_shared_lines in Hmine |- *. exact Hmine.
  - rewrite (Hother {| sa_mountpoint := "/home"; shareopts := None |});
      [vm_compute; reflexivity | discriminate].
Defined.

(** The lines of an artifact without NUL, none of which has the mount
    point as path field, are kept as they are by the filter of
    nfs_copy_entries: together they are the contents of the artifact. *)
Lemma cat_filter_unshared (impl_share : sa_share_impl) (w : world) :
  text_artifact w →
  nfs_is_shared impl_share w = false →
  cat (filter (λ l, path_field l ≠ Some (sa_mountpoint impl_share))
         (artifact_lines w)) =
    default EmptyString (files w !! ZFS_EXPORTS_FILE).
Proof.
  intros Htext Hno.
  rewrite nfs_is_shared_lines in Hno. apply bool_decide_eq_false in Hno.
  rewrite filter_Forall_all.
  - unfold artifact_lines. rewrite c_lines_nul_free by done.
    apply cat_getlines.
  - apply Forall_forall. intros l Hin Hmp. apply Hno, Exists_exists. eauto.
Qed.

(** X13. nfs_disable_share (with the [flock] lock, not held already) of
    a mount point that has no line in an artifact without NUL leaves
    the artifact byte for byte as it was, a last line without newline
    included; a missing artifact, however, is made, as an empty file. *)
Theorem disable_without_entries_keeps_contents :
  ∀ (tries : list string) (sfx : string) (impl_share : sa_share_impl)
    (w : world),
    mkstemp_makes tries sfx w →
    nfs_lock_fd w = (-1)%Z →
    text_artifact w →
    nfs_is_shared impl_share w = false →
    ∃ w', nfs_disable_share flock_guard tries impl_share w =
            Done SA_OK w'
          ∧ files w' !! ZFS_EXPORTS_FILE =
              Some (default EmptyString (files w !! ZFS_EXPORTS_FILE))
          ∧ (∀ p, p ≠ ZFS_EXPORTS_FILE → p ≠ ZFS_EXPORTS_LOCK →
                  files w' !! p = files w !! p).
Proof.
  intros tries sfx impl_share w Hmk Hfd Htext Hno.
  destruct (nfs_disable_share_lines tries sfx impl_share w Hmk Hfd Htext)
    as (w' & E & Hart & _ & _ & Hother & _).
  exists w'. split; [done |]. split; [|done].
  by rewrite Hart, cat_filter_unshared.
Qed.

(** An instance on an artifact whose last line has no newline, and one
    without artifact. *)
Lemma disable_without_entries_witness :
  (∃ w', nfs_disable_share flock_guard ["a1B2c3"]
           {| sa_mountpoint := "/data"; shareopts := None |}
           (world_of [(ZFS_EXPORTS_FILE, "/home b(sec=sys,rw,mountpoint)")]) =
           Done SA_OK w'
         ∧ files w' !! ZFS_EXPORTS_FILE =
             Some "/home b(sec=sys,rw,mountpoint)")
  ∧ (∃ w', nfs_disable_share flock_guard ["a1B2c3"]
             {| sa_mountpoint := "/data"; shareopts := None |}
             (world_of []) = Done SA_OK w'
           ∧ files w' !! ZFS_EXPORTS_FILE = Some EmptyString).
Proof.
  split.
  - destruct (disable_without_entries_keeps_contents ["a1B2c3"] "a1B2c3"
                {| sa_mountpoint := "/data"; shareopts := None |}
                (world_of [(ZFS_EXPORTS_FILE,
                            "/home b(sec=sys,rw,mountpoint)")])
                ltac:(by apply mkstemp_makes_first) eq_refl eq_refl eq_refl)
      as (w' & E & Hart & _).
    by exists w'.
  - destruct (disable_without_entries_keeps_contents ["a1B2c3"] "a1B2c3"
                {| sa_mountpoint := "/data"; shareopts := None |}
                (world_of []) ltac:(by apply mkstemp_makes_first) eq_refl eq_refl eq_refl)
      as (w' & E & Hart & _).
    by exists w'.
Defined.

(** What a successful nfs_enable_share (with the [flock] lock) leaves
    when the artifact had no NUL and ended with a newline and the share
    has neither a newline nor a NUL. *)
Lemma nfs_enable_share_lines (tries : list string) (sfx : string)
    (impl_share : sa_share_impl) (w : world) :
  mkstemp_makes tries sfx w →
  nfs_lock_fd w = (-1)%Z →
  nfs_validate_shareopts (shareopts impl_share) = SA_OK →
  tidy_artifact w →
  one_line (sa_mountpoint impl_share) →
  one_line_opt (shareopts impl_share) →
  nul_free (sa_mountpoint impl_share) →
  nul_free_opt (shareopts impl_share) →
  let kept :=
    filter (λ l, path_field l ≠ Some (sa_mountpoint impl_share))
      (artifact_lines w) in
  ∃ w', nfs_enable_share flock_guard tries impl_share w =
          Done SA_OK w'
        ∧ files w' !! ZFS_EXPORTS_FILE =
            Some (cat (kept ++ rendered_lines sfx impl_share))
        ∧ artifact_lines w' = (kept ++ rendered_lines sfx impl_share)%list
        ∧ files w' !! tmpfile_name sfx = None
        ∧ (∀ p, p ≠ ZFS_EXPORTS_FILE → p ≠ ZFS_EXPORTS_LOCK →
                files w' !! p = files w !! p)
        ∧ nfs_lock_fd w' = (-1)%Z
        ∧ tidy_artifact w'.
Proof.
  intros Hmk Hfd Hvalid [Hnt Hnul] Hmp Hopts Hmpn Hoptn kept.
  unfold nfs_validate_shareopts in Hvalid.
  destruct (get_linux_shareopts (shareopts impl_share)) as [rc linux_opts]
    eqn:Htr.
  simpl in Hvalid. subst rc.
  destruct (nfs_enable_share_ok flock_guard tries sfx impl_share linux_opts w
              Hmk Hfd Htr) as (w' & E & Hart & Htmp & Hother & Hfd').
  rewrite acquired_lines_flock in Hart. fold kept in Hart.
  pose proof (rendered_lines_complete sfx impl_share Hmp Hopts) as Hnew.
  pose proof (rendered_lines_nul_free sfx impl_share Hmpn Hoptn) as Hnewn.
  destruct (c_lines_tidy _ Hnt Hnul) as [Hc Hn].
  assert (Forall complete_line (kept ++ rendered_lines sfx impl_share))
    as Hallc.
  { apply Forall_app. split; [by apply Forall_filter_keep | done]. }
  assert (Forall nul_free (kept ++ rendered_lines sfx impl_share)) as Halln.
  { apply Forall_app. split; [by apply Forall_filter_keep | done]. }
  exists w'. split; [done |]. split; [done |].
  split.
  { unfold artifact_lines at 1. rewrite Hart. simpl.
    by apply c_lines_cat_complete. }
  split; [done |].
  split; [intros p Hp1 Hp2; by apply Hother |].
  split; [done |]. by eapply tidy_artifact_cat.
Qed.

Lemma expand_groups_nil (file path : string) (sec : option string)
    (toks : list (string * option string)) :
  expand_groups file path sec toks = [] ↔ ¬ Exists access_token toks.
Proof.
  revert sec. induction toks as [|[key value] toks IH]; intros sec; simpl.
  - split; [by intros _ ?%Exists_nil | done].
  - rewrite Exists_cons. unfold access_token at 1. simpl.
    destruct (String.eqb_spec key "rw") as [->|Hrw]; simpl.
    { unfold group_entries.
      destruct (split_on_cons colon (default "*" value)) as (t & ts & ->).
      split; [done | intros []; by left; left]. }
    destruct (String.eqb_spec key "ro") as [->|Hro]; simpl.
    { unfold group_entries.
      destruct (split_on_cons colon (default "*" value)) as (t & ts & ->).
      split; [done | intros []; by left; right]. }
    rewrite IH. intuition.
Qed.

Lemma rendered_lines_nil (sfx : string) (impl_share : sa_share_impl) :
  rendered_lines sfx impl_share = [] ↔
  ¬ Exists access_token (shareopt_tokens (shareopts impl_share)).
Proof.
  unfold rendered_lines. rewrite expand_hosts_groups. simpl.
  rewrite <- expand_groups_nil.
  split; [apply fmap_nil_inv | by intros ->].
Qed.

(** X14. After a successful nfs_enable_share (with the [flock] lock, not
    held already) of a share without space, newline or NUL, on an
    artifact that had no NUL and ended with a newline, nfs_is_shared
    answers true exactly when the option string has a [ro] or [rw]
    token: a share enabled with options such as [sec=krb5] alone gets no
    line and is not reported as shared. *)
Theorem enabled_share_is_shared_iff_access_token :
  ∀ (tries : list string) (sfx : string) (impl_share : sa_share_impl)
    (w : world),
    mkstemp_makes tries sfx w →
    nfs_lock_fd w = (-1)%Z →
    nfs_validate_shareopts (shareopts impl_share) = SA_OK →
    tidy_artifact w →
    plain_share impl_share →
    ∃ w', nfs_enable_share flock_guard tries impl_share w =
            Done SA_OK w'
          ∧ (nfs_is_shared impl_share w' = true ↔
             Exists access_token (shareopt_tokens (shareopts impl_share))).
Proof.
  intros tries sfx impl_share w Hmk Hfd Hvalid Htidy
    (Hsp & Hmp & Hopts & Hmpn & Hoptn).
  destruct (nfs_enable_share_lines tries sfx impl_share w Hmk Hfd
              Hvalid Htidy Hmp Hopts Hmpn Hoptn) as (w' & E & _ & Hlines & _).
  exists w'. split; [done |].
  rewrite nfs_is_shared_lines, Hlines, bool_decide_eq_true, Exists_app.
  pose proof (rendered_lines_path_field sfx impl_share Hsp) as Hnew.
  pose proof (rendered_lines_nil sfx impl_share) as Hnil.
  split.
  - intros [(l & [Hl _]%list_elem_of_filter & Hmine)%Exists_exists|Hex];
      [done |].
    destruct (decide (Exists access_token
                        (shareopt_tokens (shareopts impl_share))))
      as [|Hno]; [done |].
    apply Hnil in Hno. rewrite Hno in Hex. by apply Exists_nil in Hex.
  - intros Hacc. right.
    destruct (rendered_lines sfx impl_share) as [|l ls] eqn:Hr.
    + by destruct (proj1 Hnil eq_refl).
    + apply Exists_cons_hd. by apply Forall_cons in Hnew as [? _].
Qed.

(** An instance with an access token and one without. *)
Lemma enabled_share_is_shared_witness :
  (∃ w', nfs_enable_share flock_guard ["a1B2c3"]
           {| sa_mountpoint := "/data"; shareopts := Some "sec=krb5,ro=h" |}
           (world_of []) = Done SA_OK w'
         ∧ nfs_is_shared
             {| sa_mountpoint := "/data"; shareopts := Some "sec=krb5,ro=h" |}
             w' = true)
  ∧ (∃ w', nfs_enable_share flock_guard ["a1B2c3"]
             {| sa_mountpoint := "/data"; shareopts := Some "sec=krb5" |}
             (world_of []) = Done SA_OK w'
           ∧ nfs_is_shared
               {| sa_mountpoint := "/data"; shareopts := Some "sec=krb5" |}
               w' = false).
Proof.
  split.
  - destruct (enabled_share_is_shared_iff_access_token ["a1B2c3"] "a1B2c3"
                {| sa_mountpoint := "/data";
                   shareopts := Some "sec=krb5,ro=h" |}
                (world_of []) ltac:(by apply mkstemp_makes_first) eq_refl eq_refl)
      as (w' & E & Hiff).
    { by vm_compute. }
    { by vm_compute. }
    exists w'. split; [exact E |]. apply Hiff. vm_compute.
    apply Exists_cons_tl, Exists_cons_hd. by right.
  - destruct (enabled_share_is_shared_iff_access_token ["a1B2c3"] "a1B2c3"
                {| sa_mountpoint := "/data"; shareopts := Some "sec=krb5" |}
                (world_of []) ltac:(by apply mkstemp_makes_first) eq_refl eq_refl)
      as (w' & E & Hiff).
    { by vm_compute. }
    { by vm_compute. }
    exists w'. split; [exact E |].
    destruct (nfs_is_shared _ w'); [|reflexivity].
    exfalso. destruct Hiff as [Hiff _]. specialize (Hiff eq_refl).
    vm_compute in Hiff. apply Exists_cons in Hiff as [[H|H]|H%Exists_nil];
      [discriminate H | discriminate H | exact H].
Defined.

(** X15. A successful nfs_enable_share (with the [flock] lock, not held
    already) of a share without space, newline or NUL, on an artifact
    that had no NUL and ended with a newline, does not change the answer
    of nfs_is_shared for any other mount point. *)
Theorem enable_keeps_other_mountpoints :
  ∀ (tries : list string) (sfx : string) (impl_share other : sa_share_impl)
    (w : world),
    mkstemp_makes tries sfx w →
    nfs_lock_fd w = (-1)%Z →
    nfs_validate_shareopts (shareopts impl_share) = SA_OK →
    tidy_artifact w →
    plain_share impl_share →
    sa_mountpoint other ≠ sa_mountpoint impl_share →
    ∃ w', nfs_enable_share flock_guard tries impl_share w =
            Done SA_OK w'
          ∧ nfs_is_shared other w' = nfs_is_shared other w.
Proof.
  intros tries sfx impl_share other w Hmk Hfd Hvalid Htidy
    (Hsp & Hmp & Hopts & Hmpn & Hoptn) Hne.
  destruct (nfs_enable_share_lines tries sfx impl_share w Hmk Hfd
              Hvalid Htidy Hmp Hopts Hmpn Hoptn) as (w' & E & _ & Hlines & _).
  exists w'. split; [done |].
  rewrite !nfs_is_shared_lines, Hlines. apply bool_decide_ext.
  rewrite Exists_app, Exists_filter_other by congruence.
  split; [|by left]. intros [|Hex]; [done |]. exfalso.
  apply Exists_exists in Hex as (l & Hin & Hl).
  pose proof (rendered_lines_path_field sfx impl_share Hsp) as Hnew.
  pose proof (proj1 (Forall_forall _ _) Hnew l Hin) as Hmine. simpl in Hmine.
  congruence.
Qed.

(** An instance: enabling [/data] leaves [/home] shared and [/srv] not
    shared. *)
Lemma enable_keeps_other_mountpoints_witness :
  let old := "/home b(sec=sys,rw,mountpoint)" +:+
             String newline EmptyString in
  (∃ w', nfs_enable_share flock_guard ["a1B2c3"]
           {| sa_mountpoint := "/data"; shareopts := Some "rw" |}
           (world_of [(ZFS_EXPORTS_FILE, old)]) = Done SA_OK w'
         ∧ nfs_is_shared {| sa_mountpoint := "/home"; shareopts := None |} w'
           = true)
  ∧ (∃ w', nfs_enable_share flock_guard ["a1B2c3"]
             {| sa_mountpoint := "/data"; shareopts := Some "rw" |}
             (world_of [(ZFS_EXPORTS_FILE, old)]) = Done SA_OK w'
           ∧ nfs_is_shared {| sa_mountpoint := "/srv"; shareopts := None |} w'
             = false).
Proof.
  intros old. split.
  - destruct (enable_keeps_other_mountpoints ["a1B2c3"] "a1B2c3"
                {| sa_mountpoint := "/data"; shareopts := Some "rw" |}
                {| sa_mountpoint := "/home"; shareopts := None |}
                (world_of [(ZFS_EXPORTS_FILE, old)])
                ltac:(by apply mkstemp_makes_first) eq_refl eq_refl)
      as (w' & E & Hsame);
      [by vm_compute | by vm_compute | discriminate |].
    exists w'. split; [exact E |]. rewrite Hsame. by vm_compute.
  - destruct (enable_keeps_other_mountpoints ["a1B2c3"] "a1B2c3"
                {| sa_mountpoint := "/data"; shareopts := Some "rw" |}
                {| sa_mountpoint := "/srv"; shareopts := None |}
                (world_of [(ZFS_EXPORTS_FILE, old)])
                ltac:(by apply mkstemp_makes_first) eq_refl eq_refl)
      as (w' & E & Hsame);
      [by vm_compute | by vm_compute | discriminate |].
    exists w'. split; [exact E |]. rewrite Hsame. by vm_compute.
Defined.


(** What a failed nfs_enable_share (with the [flock] lock) leaves. *)
Lemma nfs_enable_share_failed (tries : list string) (sfx : string)
    (impl_share : sa_share_impl) (error : sa_rc) (w : world) :
  mkstemp_makes tries sfx w →
  nfs_lock_fd w = (-1)%Z →
  error ≠ SA_OK →
  get_linux_shareopts (shareopts impl_share) = (error, None) →
  ∃ w', nfs_enable_share flock_guard tries impl_share w =
          Done error w'
        ∧ (∀ p, p ≠ ZFS_EXPORTS_LOCK → files w' !! p = files w !! p)
        ∧ nfs_lock_fd w' = (-1)%Z.
Proof.
  intros Hmk Hfd Herr Htr.
  destruct (nfs_enable_share_error flock_guard tries sfx impl_share error w
              Hmk Hfd Herr Htr) as (w' & E & Hart & Hother & Hfd').
  exists w'. split; [done |]. split; [|done].
  intros p Hp. destruct (decide (p = ZFS_EXPORTS_FILE)) as [->|Hpa].
  - by rewrite Hart.
  - by apply Hother.
Qed.

(** X16. Invariant of the share operations (with the [flock] lock, which
    the process does not hold already, and a temporary file that
    [mkstemp] has made): when the artifact is missing, or has no NUL
    and is empty or ends with a newline, it still is so after
    nfs_disable_share, and after nfs_enable_share of a share whose mount
    point and option string have neither a newline nor a NUL, whatever
    code the enable returns. *)
Theorem share_operations_keep_final_newline :
  ∀ (tries : list string) (sfx : string) (impl_share : sa_share_impl)
    (w : world),
    mkstemp_makes tries sfx w →
    nfs_lock_fd w = (-1)%Z →
    tidy_artifact w →
    (∃ w', nfs_disable_share flock_guard tries impl_share w =
             Done SA_OK w'
           ∧ tidy_artifact w')
    ∧ (one_line (sa_mountpoint impl_share) →
       one_line_opt (shareopts impl_share) →
       nul_free (sa_mountpoint impl_share) →
       nul_free_opt (shareopts impl_share) →
       ∃ w', nfs_enable_share flock_guard tries impl_share w =
               Done (nfs_validate_shareopts (shareopts impl_share)) w'
             ∧ tidy_artifact w').
Proof.
  intros tries sfx impl_share w Hmk Hfd Htidy.
  split.
  - destruct Htidy as [Hnt Hnul].
    destruct (nfs_disable_share_lines tries sfx impl_share w Hmk Hfd
                Hnul) as (w' & E & Hart & _).
    exists w'. split; [done |].
    destruct (c_lines_tidy _ Hnt Hnul) as [Hc Hn].
    eapply tidy_artifact_cat; [done | |]; by apply Forall_filter_keep.
  - intros Hmp Hopts Hmpn Hoptn.
    destruct (validate_ok_cases (shareopts impl_share))
      as [Hvalid|(error & Herr & Htr)].
    + destruct (nfs_enable_share_lines tries sfx impl_share w Hmk Hfd
                  Hvalid Htidy Hmp Hopts Hmpn Hoptn)
        as (w' & E & _ & _ & _ & _ & _ & Htidy').
      exists w'. by rewrite Hvalid.
    + destruct (nfs_enable_share_failed tries sfx impl_share error w Hmk Hfd Herr Htr) as (w' & E & Hsame & _).
      exists w'. unfold nfs_validate_shareopts. rewrite Htr.
      split; [done |].
      eapply tidy_artifact_same; [|done].
      apply Hsame, artifact_not_lock.
Qed.

(** An instance on an artifact of one line. *)
Lemma share_operations_keep_final_newline_witness :
  let w := world_of [(ZFS_EXPORTS_FILE,
                      "/home b(sec=sys,rw,mountpoint)" +:+
                      String newline EmptyString)] in
  ∃ w', nfs_enable_share flock_guard ["a1B2c3"]
          {| sa_mountpoint := "/data"; shareopts := Some "rw=a:b" |} w =
          Done SA_OK w'
        ∧ tidy_artifact w'.
Proof.
  intros w.
  apply (share_operations_keep_final_newline ["a1B2c3"] "a1B2c3"
           {| sa_mountpoint := "/data"; shareopts := Some "rw=a:b" |} w
           ltac:(by apply mkstemp_makes_first) eq_refl); by vm_compute.
Defined.





(** An enable of a share whose options are accepted and have no [ro] or
    [rw] token runs as the disable of the share, with either lock. *)
Lemma enable_without_hosts g tries impl_share w :
  nfs_validate_shareopts (shareopts impl_share) = SA_OK →
  ¬ Exists access_token (shareopt_tokens (shareopts impl_share)) →
  nfs_enable_share g tries impl_share w =
    nfs_disable_share g tries impl_share w.
Proof.
  unfold nfs_validate_shareopts. intros Hvalid Hno.
  unfold nfs_enable_share, nfs_disable_share.
  destruct (get_linux_shareopts (shareopts impl_share)) as [rc linux_opts].
  simpl in Hvalid. subst rc.
  unfold mbind, M_bind, bind.
  destruct (nfs_init_tmpfile tries w) as [[filename|] w1|w1|w1]; try done.
  destruct (VERIFY0 (nfs_exports_lock g) w1) as [[] w2|w2|w2]; try done.
  destruct (nfs_copy_entries filename (sa_mountpoint impl_share) w2)
    as [rc w3|w3|w3]; try done.
  destruct (verify (bool_decide (rc = SA_OK)) w3) as [[] w4|w4|w4]; try done.
  rewrite bool_decide_eq_false_2 by (intros H; by apply H).
  unfold lift. rewrite foreach_nfs_host_calls.
  rewrite (proj2 (expand_groups_nil _ _ _ _) Hno). cbn [call_entries].
  by rewrite bool_decide_eq_true_2.
Qed.

(** X19. nfs_enable_share of a share whose options are accepted and
    have no [ro] or [rw] token does what nfs_disable_share does, result
    and state, with either lock and whatever the state; so does the
    enable of a share whose options nfs_clear_shareopts has cleared. *)
Theorem enable_without_hosts_is_disable :
  ∀ (g : guard) (tries : list string) (impl_share : sa_share_impl)
    (w : world),
    (nfs_validate_shareopts (shareopts impl_share) = SA_OK →
     ¬ Exists access_token (shareopt_tokens (shareopts impl_share)) →
     nfs_enable_share g tries impl_share w =
       nfs_disable_share g tries impl_share w)
    ∧ nfs_enable_share g tries (nfs_clear_shareopts impl_share) w =
        nfs_disable_share g tries impl_share w.
Proof.
  intros g tries impl_share w. split; [apply enable_without_hosts |].
  etrans; [apply enable_without_hosts | reflexivity].
  - reflexivity.
  - by intros ?%Exists_nil.
Qed.

(** An instance with the options [sec=krb5,nosub], on a state without
    artifact. *)
Lemma enable_without_hosts_is_disable_witness :
  nfs_enable_share flock_guard ["a1B2c3"]
    {| sa_mountpoint := "/data"; shareopts := Some "sec=krb5,nosub" |}
    (world_of []) =
  nfs_disable_share flock_guard ["a1B2c3"]
    {| sa_mountpoint := "/data"; shareopts := Some "sec=krb5,nosub" |}
    (world_of []).
Proof.
  destruct (enable_without_hosts_is_disable flock_guard ["a1B2c3"]
              {| sa_mountpoint := "/data";
                 shareopts := Some "sec=krb5,nosub" |} (world_of []))
    as [Hsame _].
  apply Hsame.
  - reflexivity.
  - vm_compute.
    intros [[H|H]|[[H|H]|H%Exists_nil]%Exists_cons]%Exists_cons;
      solve [discriminate H | exact H].
Defined.

(** X20. A mount point that contains a space is never reported as
    shared by nfs_is_shared, whatever the artifact holds, and
    nfs_disable_share (with the [flock] lock, not held already) removes
    nothing for it: an artifact without NUL keeps its contents. *)
Theorem mountpoint_with_space_is_never_shared :
  ∀ (tries : list string) (sfx : string) (impl_share : sa_share_impl)
    (w : world),
    has_char space (sa_mountpoint impl_share) = true →
    nfs_is_shared impl_share w = false
    ∧ (mkstemp_makes tries sfx w →
       nfs_lock_fd w = (-1)%Z →
       text_artifact w →
       ∃ w', nfs_disable_share flock_guard tries impl_share w =
               Done SA_OK w'
             ∧ files w' !! ZFS_EXPORTS_FILE =
                 Some (default EmptyString (files w !! ZFS_EXPORTS_FILE))).
Proof.
  intros tries sfx impl_share w Hsp.
  assert (∀ l, path_field l ≠ Some (sa_mountpoint impl_share)) as Hnone.
  { intros l (rest & _ & Hno)%path_field_inv. congruence. }
  assert (nfs_is_shared impl_share w = false) as Hno.
  { rewrite nfs_is_shared_lines. apply bool_decide_eq_false.
    intros (l & _ & Hl)%Exists_exists. by apply (Hnone l). }
  split; [done |]. intros Hmk Hfd Htext.
  destruct (nfs_disable_share_lines tries sfx impl_share w Hmk Hfd Htext)
    as (w' & E & Hart & _).
  exists w'. split; [done |].
  by rewrite Hart, cat_filter_unshared.
Qed.

(** An instance: the lines that the enable of [/my data] has written
    are not found again. *)
Lemma mountpoint_with_space_witness :
  let line := "/my data *(sec=sys,rw,no_subtree_check,mountpoint)" +:+
              String newline EmptyString in
  nfs_is_shared {| sa_mountpoint := "/my data"; shareopts := Some "rw" |}
    (world_of [(ZFS_EXPORTS_FILE, line)]) = false.
Proof.
  intros line.
  apply (mountpoint_with_space_is_never_shared ["a1B2c3"] "a1B2c3"
           {| sa_mountpoint := "/my data"; shareopts := Some "rw" |}
           (world_of [(ZFS_EXPORTS_FILE, line)])).
  reflexivity.
Defined.
